(** * NTP packet codec and query engine of [@hixbe/time]

    A shallow embedding of [src/core/parser.ts] (class [NTPParser]), of
    [src/core/client.ts] (class [NTPClient]) and of the default export of
    [src/core/index.ts], with the properties of the packet codec, of the
    timestamp conversion, of the request packet and of the fallback loop.

    Conventions of the embedding.
    - A Node [Buffer] is a list of bytes ([Byte.byte]).
    - A JavaScript [number] that holds an integer (a byte, a 32-bit word, a
      count of seconds, a time value in milliseconds) is a [Z]; the
      operations on these are exact in binary64, whose integers are exact
      below [2^53] (lemma [unixSeconds_safe]).
    - A [number] that holds a fraction (milliseconds, seconds with their
      fraction) is the rational [Q] of a finite binary64 number, and every
      operation on these rounds its exact result to binary64 ([round64]).
      [NaN], the infinities and the sign of zero are not modelled.  Module
      [Binary64] repeats the fractional expressions of the parser on the
      floats of the kernel, and the examples after it compare the two.
    - A thrown exception is the left summand of [JsError + A].
    - A [Date] is its time value, an integer count of milliseconds.
    - The network and the clock are inputs of the client: an [Attempt]
      holds what one call of [queryServer] reads from them. *)

From Stdlib Require Import ZArith QArith Qabs Qround Qpower Qreduction.
From Stdlib Require Import List String Ascii Bool Lia Lqa.
From Stdlib.Strings Require Import Byte.
From Stdlib Require Import DecimalString Floats Uint63.
Import ListNotations.

Local Open Scope Z_scope.

(** * The program *)

(** ** Exceptions *)

(** The two classes of exception the code can raise: [Error] (thrown by the
    parser and by the client, and the class of the transport errors the
    socket reports) and [RangeError] (thrown by the [Buffer] accessors and
    by [Date.prototype.toISOString]). *)
Inductive JsError : Type :=
| Error (message : string)
| RangeError (message : string).

Definition message (e : JsError) : string :=
  match e with
  | Error m => m
  | RangeError m => m
  end.

Definition throws (A : Type) : Type := (JsError + A)%type.

Definition ret {A : Type} (a : A) : throws A := inr a.
Definition throw {A : Type} (e : JsError) : throws A := inl e.

Definition bind {A B : Type} (m : throws A) (k : A -> throws B) : throws B :=
  match m with
  | inl e => inl e
  | inr a => k a
  end.

Declare Scope throws_scope.
Delimit Scope throws_scope with throws.
Notation "x <- m ;; k" := (bind m (fun x => k))
  (at level 61, m at next level, right associativity) : throws_scope.
Local Open Scope throws_scope.

(** ** Buffers *)

Definition Buffer : Type := list byte.

Definition Z_of_byte (b : byte) : Z := Z.of_N (Byte.to_N b).

(** The byte whose value is [z mod 256]. *)
Definition byte_of_Z (z : Z) : byte :=
  match Byte.of_N (Z.to_N (z mod 256)) with
  | Some b => b
  | None => x00
  end.

(** [Buffer.alloc(size)] : a zero-filled buffer. *)
Definition alloc (size : nat) : Buffer := repeat x00 size.

(** [buffer[i]] for an index inside the buffer.  Outside the buffer
    JavaScript gives [undefined]; [parsePacket] reads indices 0 to 3 after
    it has checked that the buffer holds 48 bytes, and [index] is given the
    value 0 there. *)
Definition index (buffer : Buffer) (i : nat) : Z :=
  match nth_error buffer i with
  | Some b => Z_of_byte b
  | None => 0
  end.

Definition out_of_range : JsError :=
  RangeError "The value of 'offset' is out of range.".

(** [buffer.readUInt32BE(offset)] : the four bytes at [offset], most
    significant first; a [RangeError] when they are not all inside the
    buffer. *)
Definition readUInt32BE (buffer : Buffer) (offset : nat) : throws Z :=
  match firstn 4 (skipn offset buffer) with
  | [b0; b1; b2; b3] =>
      ret (Z_of_byte b0 * 2 ^ 24 + Z_of_byte b1 * 2 ^ 16
           + Z_of_byte b2 * 2 ^ 8 + Z_of_byte b3)
  | _ => throw out_of_range
  end.

(** [buffer.writeUInt32BE(value, offset)] : the buffer with the four bytes
    at [offset] replaced by [value], most significant first; a [RangeError]
    when [value] is not an unsigned 32-bit integer or the four bytes are not
    all inside the buffer. *)
Definition writeUInt32BE (buffer : Buffer) (value : Z) (offset : nat)
  : throws Buffer :=
  if negb ((0 <=? value) && (value <? 2 ^ 32)) then
    throw (RangeError "The value of 'value' is out of range.")
  else if negb (offset + 4 <=? List.length buffer)%nat then
    throw out_of_range
  else
    ret (firstn offset buffer
         ++ [byte_of_Z (value / 2 ^ 24); byte_of_Z (value / 2 ^ 16);
             byte_of_Z (value / 2 ^ 8); byte_of_Z value]
         ++ skipn (offset + 4) buffer).

(** [buffer.slice(start, end)] for [start <= end]. *)
Definition slice (buffer : Buffer) (start stop : nat) : Buffer :=
  firstn (stop - start) (skipn start buffer).

(** ** Strings *)

Definition fromCharCode (code : Z) : ascii := ascii_of_N (Z.to_N code).

Definition charCode (c : ascii) : Z := Z.of_N (N_of_ascii c).

(** [buffer.toString('ascii')] : Node clears the highest bit of every byte
    and reads the result as a character. *)
Definition toString_ascii (buffer : Buffer) : string :=
  string_of_list_ascii
    (map (fun b => fromCharCode (Z.land (Z_of_byte b) 127)) buffer).

(** [s.replace(/\x00/g, '')] : every NUL character is deleted. *)
Fixpoint replace_nul (s : string) : string :=
  match s with
  | EmptyString => EmptyString
  | String c rest =>
      if (charCode c =? 0) then replace_nul rest
      else String c (replace_nul rest)
  end.

(** The digit of [d] in [Number.prototype.toString(16)], lower case. *)
Definition hexDigit (d : Z) : ascii :=
  if d <? 10 then fromCharCode (48 + d) else fromCharCode (87 + d).

Fixpoint toString16_digits (fuel : nat) (n : Z) (acc : string) : string :=
  match fuel with
  | O => acc
  | S fuel' =>
      let acc' := String (hexDigit (n mod 16)) acc in
      if n / 16 =? 0 then acc' else toString16_digits fuel' (n / 16) acc'
  end.

(** [n.toString(16)] for an integer [n] : no leading zero, a minus sign
    before the digits of a negative number. *)
Definition toString16 (n : Z) : string :=
  if n <? 0 then
    String "-" (toString16_digits (S (Z.to_nat (Z.log2 (- n)))) (- n) EmptyString)
  else toString16_digits (S (Z.to_nat (Z.log2 n))) n EmptyString.

Definition toUpperCase_char (c : ascii) : ascii :=
  if (97 <=? charCode c) && (charCode c <=? 122)
  then fromCharCode (charCode c - 32) else c.

(** [s.toUpperCase()] on the characters of ASCII. *)
Fixpoint toUpperCase (s : string) : string :=
  match s with
  | EmptyString => EmptyString
  | String c rest => String (toUpperCase_char c) (toUpperCase rest)
  end.

Fixpoint repeat_char (c : ascii) (n : nat) : string :=
  match n with
  | O => EmptyString
  | S n' => String c (repeat_char c n')
  end.

(** [s.padStart(targetLength, c)] for a pad string of one character. *)
Definition padStart (s : string) (targetLength : nat) (c : ascii) : string :=
  (repeat_char c (targetLength - String.length s) ++ s)%string.

(** [s.padEnd(targetLength, c)] for a pad string of one character. *)
Definition padEnd (s : string) (targetLength : nat) (c : ascii) : string :=
  (s ++ repeat_char c (targetLength - String.length s))%string.

(** [String(n)] and [`${n}`] for an integer [n]. *)
Definition String_of_Z (n : Z) : string :=
  NilEmpty.string_of_int (Z.to_int n).

(** [xs.join(sep)]. *)
Fixpoint join (sep : string) (xs : list string) : string :=
  match xs with
  | [] => EmptyString
  | [x] => x
  | x :: rest => (x ++ sep ++ join sep rest)%string
  end.

(** ** Numbers *)

(** A finite binary64 number is a rational; an operation of JavaScript on
    numbers is the exact operation on rationals followed by [round64], the
    rounding of IEEE 754 to the nearest binary64 number, ties to the even
    significand. *)

Definition pow2 (k : Z) : Q := (2 ^ k)%Q.

(** The exponent [e] of a positive rational [a] : [2^e <= a < 2^(e+1)]. *)
Definition ilog2 (a : Q) : Z :=
  let l := Z.log2 (Qnum a) - Z.log2 (Zpos (Qden a)) in
  if Qle_bool (pow2 l) a then l else l - 1.

(** The nearest integer, the even one of two that are equally near. *)
Definition round_half_even (x : Q) : Z :=
  let f := Qfloor x in
  match (x - inject_Z f ?= 1 # 2)%Q with
  | Lt => f
  | Gt => f + 1
  | Eq => if Z.even f then f else f + 1
  end.

(** The nearest binary64 number: a significand of 53 bits, that is a
    multiple of [2^(e-52)] where [e] is the exponent of the number, and not
    below -1022 (the subnormal numbers are the multiples of [2^-1074]).
    Beyond [2^1024] binary64 has [Infinity], which this model has not; no
    number of the parser or of the client comes near it. *)
Definition round64 (x : Q) : Q :=
  let x := Qred x in
  if Qeq_bool x 0 then 0%Q
  else
    let e := Z.max (ilog2 (Qabs x)) (-1022) in
    let ulp := pow2 (e - 52) in
    Qred (inject_Z (Z.sgn (Qnum x) * round_half_even (Qabs x / ulp)) * ulp).

(** [x + y], [x - y], [x * y] and [x / y] on numbers. *)
Definition fadd (x y : Q) : Q := round64 (x + y).
Definition fsub (x y : Q) : Q := round64 (x - y).
Definition fmul (x y : Q) : Q := round64 (x * y).
Definition fdiv (x y : Q) : Q := round64 (x / y).

(** ** Dates *)

(** A valid [Date], by its time value: milliseconds since the Unix epoch. *)
Definition Date : Type := Z.

Definition getTime (d : Date) : Z := d.

(** Truncation towards zero ([ToIntegerOrInfinity]). *)
Definition Qtrunc (v : Q) : Z := Z.quot (Qnum v) (Zpos (Qden v)).

(** [new Date(v)] : the time value is [TimeClip(v)], which is [v] truncated
    to an integer, and [NaN] (an Invalid Date, [None]) when [v] is beyond
    8.64e15 milliseconds from the epoch. *)
Definition new_Date (v : Q) : option Date :=
  if Qle_bool (Qabs v) (inject_Z 8640000000000000) then Some (Qtrunc v)
  else None.

(** ** The parser : [src/core/parser.ts] *)

Module Raw.
Record t : Type := mk { seconds : Z; fraction : Z }.
End Raw.

Module Unix.
Record t : Type := mk { seconds : Z; milliseconds : Q }.
End Unix.

Record ParsedNTPTimestamp : Type := {
  raw : Raw.t;
  unix : Unix.t;
  date : Date;
  iso : string;
  local : string;
  timestamp : Z
}.

Record NTPPacketHeader : Type := {
  leapIndicator : Z;
  versionNumber : Z;
  mode : Z;
  stratum : Z;
  pollInterval : Z;
  precision : Z;
  rootDelay : Z;
  rootDispersion : Z;
  referenceId : string
}.

Record NTPTimestamps : Type := {
  reference : ParsedNTPTimestamp;
  originate : ParsedNTPTimestamp;
  receive : ParsedNTPTimestamp;
  transmit : ParsedNTPTimestamp
}.

Record ParsedNTPPacket : Type := {
  header : NTPPacketHeader;
  timestamps : NTPTimestamps;
  roundTripDelay : option Q;
  clockOffset : option Q
}.

Module Metrics.
Record t : Type := mk {
  roundTripDelay : Q;
  clockOffset : Q;
  roundTripDelayMs : Q;
  clockOffsetMs : Q
}.
End Metrics.

(** The NTP epoch is 1900-01-01, the Unix epoch 1970-01-01. *)
Definition NTP_EPOCH_OFFSET : Z := 2208988800.

(** [formatReferenceId(id, stratum)]. *)
Definition formatReferenceId (id stratum : Z) : throws string :=
  if stratum =? 0 then ret "KISS"%string
  else if stratum =? 1 then
    bytes <- writeUInt32BE (alloc 4) id 0 ;;
    ret (replace_nul (toString_ascii bytes))
  else
    ret ("0x" ++ padStart (toUpperCase (toString16 id)) 8 "0")%string.

(** [calculateMetrics(parsed, clientOriginateTime, clientReceiveTime)]. *)
Definition calculateMetrics (parsed : ParsedNTPPacket)
    (clientOriginateTime clientReceiveTime : Date) : Metrics.t :=
  let t1 := fdiv (inject_Z (getTime clientOriginateTime)) 1000 in
  let t2 := fadd (inject_Z (Unix.seconds (unix (receive (timestamps parsed)))))
                 (fdiv (Unix.milliseconds (unix (receive (timestamps parsed))))
                       1000) in
  let t3 := fadd (inject_Z (Unix.seconds (unix (transmit (timestamps parsed)))))
                 (fdiv (Unix.milliseconds (unix (transmit (timestamps parsed))))
                       1000) in
  let t4 := fdiv (inject_Z (getTime clientReceiveTime)) 1000 in
  let roundTripDelay := fsub (fsub t4 t1) (fsub t3 t2) in
  let clockOffset := fdiv (fadd (fsub t2 t1) (fsub t3 t4)) 2 in
  {| Metrics.roundTripDelay := roundTripDelay;
     Metrics.clockOffset := clockOffset;
     Metrics.roundTripDelayMs := fmul roundTripDelay 1000;
     Metrics.clockOffsetMs := fmul clockOffset 1000 |}.

Section Parser.

(** The renderings of a valid date by the JavaScript runtime:
    [Date.prototype.toISOString] and [Date.prototype.toString] (the latter
    in the time zone of the host). *)
Variable toISOString : Date -> string.
Variable toLocalString : Date -> string.

(** [parseNTPTimestamp(buffer, offset)].  [toISOString] throws a
    [RangeError] on an Invalid Date. *)
Definition parseNTPTimestamp (buffer : Buffer) (offset : nat)
  : throws ParsedNTPTimestamp :=
  seconds <- readUInt32BE buffer offset ;;
  fraction <- readUInt32BE buffer (offset + 4) ;;
  let milliseconds := fmul (fdiv (inject_Z fraction) 4294967296) 1000 in
  let unixSeconds := seconds - NTP_EPOCH_OFFSET in
  match new_Date (fadd (fmul (inject_Z unixSeconds) 1000) milliseconds) with
  | None => throw (RangeError "Invalid time value")
  | Some date =>
      ret {| raw := Raw.mk seconds fraction;
             unix := Unix.mk unixSeconds milliseconds;
             date := date;
             iso := toISOString date;
             local := toLocalString date;
             timestamp := getTime date |}
  end.

(** [parsePacket(buffer)]. *)
Definition parsePacket (buffer : Buffer) : throws ParsedNTPPacket :=
  if (List.length buffer <? 48)%nat then
    throw (Error "Invalid NTP packet: minimum 48 bytes required")
  else
    let firstByte := index buffer 0 in
    let leapIndicator := Z.land (Z.shiftr firstByte 6) 3 in
    let versionNumber := Z.land (Z.shiftr firstByte 3) 7 in
    let mode := Z.land firstByte 7 in
    let stratum := index buffer 1 in
    let pollInterval := index buffer 2 in
    let precision := index buffer 3 in
    referenceTimestamp <- parseNTPTimestamp buffer 16 ;;
    originateTimestamp <- parseNTPTimestamp buffer 24 ;;
    receiveTimestamp <- parseNTPTimestamp buffer 32 ;;
    transmitTimestamp <- parseNTPTimestamp buffer 40 ;;
    rootDelay <- readUInt32BE buffer 4 ;;
    rootDispersion <- readUInt32BE buffer 8 ;;
    referenceId <- readUInt32BE buffer 12 ;;
    referenceIdString <- formatReferenceId referenceId stratum ;;
    ret {| header :=
             {| leapIndicator := leapIndicator;
                versionNumber := versionNumber;
                mode := mode;
                stratum := stratum;
                pollInterval := pollInterval;
                precision := precision;
                rootDelay := rootDelay;
                rootDispersion := rootDispersion;
                referenceId := referenceIdString |};
           timestamps :=
             {| reference := referenceTimestamp;
                originate := originateTimestamp;
                receive := receiveTimestamp;
                transmit := transmitTimestamp |};
           roundTripDelay := None;
           clockOffset := None |}.

End Parser.

(** ** The client : [src/core/client.ts] *)

Record NTPClientConfig : Type := {
  config_host : option string;
  config_port : option Z;
  config_timeout : option Z;
  config_fallbackServers : option (list string)
}.

Record NTPQueryResult : Type := {
  buffer : Buffer;
  hexDump : string;
  parsed : ParsedNTPPacket;
  serverAddress : string;
  clientReceiveTime : Date;
  (** [None] is an Invalid Date. *)
  clientOriginateTime : option Date;
  usedServer : option string
}.

Record NTPClient : Type := {
  host : string;
  port : Z;
  timeout : Z;
  fallbackServers : list string
}.

(** [a || b] where [a] is a string or [undefined] : the empty string is
    falsy. *)
Definition or_string (a : option string) (b : string) : string :=
  match a with
  | Some s => if (String.length s =? 0)%nat then b else s
  | None => b
  end.

(** [a || b] where [a] is an integer or [undefined] : zero is falsy. *)
Definition or_number (a : option Z) (b : Z) : Z :=
  match a with
  | Some n => if n =? 0 then b else n
  | None => b
  end.

(** [a || b] where [a] is an array or [undefined] : every array is
    truthy. *)
Definition or_array {A : Type} (a : option (list A)) (b : list A) : list A :=
  match a with
  | Some xs => xs
  | None => b
  end.

(** [new NTPClient(config)]. *)
Definition new_NTPClient (config : NTPClientConfig) : NTPClient :=
  {| host := or_string (config_host config) "time.hixbe.com";
     port := or_number (config_port config) 123;
     timeout := or_number (config_timeout config) 5000;
     fallbackServers :=
       or_array (config_fallbackServers config)
                ["time.google.com"; "pool.ntp.org"]%string |}.

(** [createRequestPacket()], given the reading [now] of the clock
    ([new Date().getTime()]) and the value [random] of [Math.random()]. *)
Definition createRequestPacket (now : Z) (random : Q) : throws Buffer :=
  let packet := byte_of_Z 35 :: skipn 1 (alloc 48) in
  let unixSeconds := Qfloor (fdiv (inject_Z now) 1000) in
  let ntpSeconds := unixSeconds + 2208988800 in
  let fraction := fmul random 4294967296 in
  packet <- writeUInt32BE packet ntpSeconds 40 ;;
  writeUInt32BE packet (Qfloor fraction) 44.

(** [buffer.toString('hex')]. *)
Definition toString_hex (buffer : Buffer) : list string :=
  map (fun b => String (hexDigit (Z_of_byte b / 16))
                  (String (hexDigit (Z_of_byte b mod 16)) EmptyString))
      buffer.

(** [s.replace(/[^\x20-\x7E]/g, '.')]. *)
Fixpoint replace_unprintable (s : string) : string :=
  match s with
  | EmptyString => EmptyString
  | String c rest =>
      String (if (32 <=? charCode c) && (charCode c <=? 126) then c else "."%char)
             (replace_unprintable rest)
  end.

Fixpoint hexDump_loop (fuel : nat) (buffer : Buffer) (i : nat) (dump : string)
  : string :=
  match fuel with
  | O => dump
  | S fuel' =>
      if (i <? List.length buffer)%nat then
        let hex := join " " (toString_hex (slice buffer i (i + 16))) in
        let ascii :=
          replace_unprintable (toString_ascii (slice buffer i (i + 16))) in
        hexDump_loop fuel' buffer (i + 16)
          (dump ++ padStart (String_of_Z (Z.of_nat i)) 4 "0" ++ ": "
                ++ padEnd hex 48 " " ++ " " ++ ascii
                ++ String (fromCharCode 10) EmptyString)%string
      else dump
  end.

(** [hexDump(buffer)] : one line for every 16 bytes.  The loop advances
    by 16, so it runs at most [length buffer] times. *)
Definition hexDump_of (buffer : Buffer) : string :=
  hexDump_loop (List.length buffer) buffer 0 EmptyString.

(** What the socket of one attempt reports first; the promise of
    [queryServer] is settled by it, and later events find it settled. *)
Inductive SocketEvent : Type :=
| OnMessage (buffer : Buffer) (address : string)
            (receiveClock originateClock : Z)
  (** the ['message'] event, with the readings of the clock taken by
      [new Date()] and by [Date.now()] in its handler *)
| OnTimeout
  (** the timer of [this.timeout] milliseconds fires *)
| OnError (error : JsError)
  (** the ['error'] event of the socket *)
| SendFailed (error : JsError).
  (** [client.send] throws, or calls back with an error *)

(** The environment of one attempt: the clock and the random number read
    when the request is built, and what the socket reports. *)
Record Attempt : Type := {
  sendClock : Z;
  random : Q;
  event : SocketEvent
}.

Section Client.

Variable toISOString : Date -> string.
Variable toLocalString : Date -> string.

(** The network: what happens to a request to a host, given the hosts
    that were tried before it. *)
Variable network : list string -> string -> Attempt.

(** [queryServer(host)], in the environment [attempt]. *)
Definition queryServer (client : NTPClient) (host : string)
    (attempt : Attempt) : throws NTPQueryResult :=
  ntpPacket <- createRequestPacket (sendClock attempt) (random attempt) ;;
  match event attempt with
  | OnTimeout =>
      throw (Error ("NTP request timeout after "
                    ++ String_of_Z (timeout client) ++ "ms to " ++ host))
  | OnMessage buffer address receiveClock originateClock =>
      parsed <- parsePacket toISOString toLocalString buffer ;;
      ret {| buffer := buffer;
             hexDump := hexDump_of buffer;
             parsed := parsed;
             serverAddress := address;
             clientReceiveTime := receiveClock;
             clientOriginateTime :=
               new_Date (fsub (inject_Z originateClock)
                              (fdiv (inject_Z (timeout client)) 2));
             usedServer := Some host |}
  | OnError error => throw error
  | SendFailed error => throw error
  end.

(** The loop of [query()] over the servers that remain: the result, and
    the hosts tried, in the order of the attempts. *)
Fixpoint query_loop (client : NTPClient) (servers : list string)
    (lastError : option JsError) (tried : list string)
  : (NTPQueryResult + option JsError) * list string :=
  match servers with
  | [] => (inr lastError, tried)
  | server :: rest =>
      match queryServer client server (network tried server) with
      | inr result => (inl result, tried ++ [server])
      | inl error => query_loop client rest (Some error) (tried ++ [server])
      end
  end.

(** [lastError?.message] in a template string. *)
Definition message_of (lastError : option JsError) : string :=
  match lastError with
  | Some e => message e
  | None => "undefined"
  end.

(** [query()] : the result or the exception, and the hosts tried. *)
Definition query (client : NTPClient) : throws NTPQueryResult * list string :=
  let servers := host client :: fallbackServers client in
  match query_loop client servers None [] with
  | (inl result, tried) => (ret result, tried)
  | (inr lastError, tried) =>
      (throw (Error ("NTP query failed for all servers ("
                     ++ join ", " servers ++ "): "
                     ++ message_of lastError)), tried)
  end.

(** [getTime()]. *)
Definition getTime_of (client : NTPClient) : throws Date :=
  result <- fst (query client) ;;
  ret (date (transmit (timestamps (parsed result)))).

(** [getOffset()]. *)
Definition getOffset (client : NTPClient) : throws Z :=
  result <- fst (query client) ;;
  let serverTime := getTime (date (transmit (timestamps (parsed result)))) in
  let localTime := getTime (clientReceiveTime result) in
  ret (serverTime - localTime).

End Client.

(** ** The default export : [src/core/index.ts] *)

Module Default.
Section Default.

Variable toISOString : Date -> string.
Variable toLocalString : Date -> string.
Variable network : list string -> string -> Attempt.

(** [new NTPClient({ host })] for a parameter [host = 'time.hixbe.com'] :
    the default stands for an argument that is missing or [undefined]. *)
Definition client (requested : option string) : NTPClient :=
  let host := match requested with
              | Some h => h
              | None => "time.hixbe.com"%string
              end in
  new_NTPClient {| config_host := Some host;
                   config_port := None;
                   config_timeout := None;
                   config_fallbackServers := None |}.

(** [getTime(host)]. *)
Definition getTime (requested : option string) : throws Date :=
  getTime_of toISOString toLocalString network (client requested).

(** [getOffset(host)]. *)
Definition getOffset (requested : option string) : throws Z :=
  getOffset toISOString toLocalString network (client requested).

(** [query(host)]. *)
Definition query (requested : option string)
  : throws NTPQueryResult * list string :=
  query toISOString toLocalString network (client requested).

End Default.
End Default.

(** * Terms of the statements *)

(** ** Words, timestamps and packets of a buffer *)

(** The error of [parsePacket] on a short buffer. *)
Definition MalformedPacket : JsError :=
  Error "Invalid NTP packet: minimum 48 bytes required".

(** The big-endian word of the four bytes at [offset], by [index]. *)
Definition word (buffer : Buffer) (offset : nat) : Z :=
  index buffer offset * 2 ^ 24 + index buffer (offset + 1) * 2 ^ 16
  + index buffer (offset + 2) * 2 ^ 8 + index buffer (offset + 3).

(** The four bytes [writeUInt32BE] stores for a word. *)
Definition bytes_of_word (value : Z) : Buffer :=
  [byte_of_Z (value / 2 ^ 24); byte_of_Z (value / 2 ^ 16);
   byte_of_Z (value / 2 ^ 8); byte_of_Z value].

(** The fractional milliseconds of a 32-bit fraction, as the parser
    computes them. *)
Definition milliseconds_of (fraction : Z) : Q :=
  fmul (fdiv (inject_Z fraction) 4294967296) 1000.

(** The value the parser hands to [new Date]. *)
Definition time_of (seconds fraction : Z) : Q :=
  fadd (fmul (inject_Z (seconds - NTP_EPOCH_OFFSET)) 1000)
       (milliseconds_of fraction).

Section Terms.

Variable toISOString : Date -> string.
Variable toLocalString : Date -> string.

(** The timestamp at [offset] of a buffer that holds it. *)
Definition timestamp_at (buffer : Buffer) (offset : nat) : ParsedNTPTimestamp :=
  let seconds := word buffer offset in
  let fraction := word buffer (offset + 4) in
  let date := Qtrunc (time_of seconds fraction) in
  {| raw := Raw.mk seconds fraction;
     unix := Unix.mk (seconds - NTP_EPOCH_OFFSET) (milliseconds_of fraction);
     date := date;
     iso := toISOString date;
     local := toLocalString date;
     timestamp := date |}.

(** The reference identifier of a buffer, as a string. *)
Definition referenceId_at (buffer : Buffer) : string :=
  match formatReferenceId (word buffer 12) (index buffer 1) with
  | inr s => s
  | inl _ => EmptyString
  end.

(** The packet of a buffer that holds 48 bytes. *)
Definition packet_at (buffer : Buffer) : ParsedNTPPacket :=
  {| header :=
       {| leapIndicator := Z.land (Z.shiftr (index buffer 0) 6) 3;
          versionNumber := Z.land (Z.shiftr (index buffer 0) 3) 7;
          mode := Z.land (index buffer 0) 7;
          stratum := index buffer 1;
          pollInterval := index buffer 2;
          precision := index buffer 3;
          rootDelay := word buffer 4;
          rootDispersion := word buffer 8;
          referenceId := referenceId_at buffer |};
     timestamps :=
       {| reference := timestamp_at buffer 16;
          originate := timestamp_at buffer 24;
          receive := timestamp_at buffer 32;
          transmit := timestamp_at buffer 40 |};
     roundTripDelay := None;
     clockOffset := None |}.

End Terms.

(** A raw timestamp written back as two big-endian 32-bit words. *)
Definition encodeTimestamp (r : Raw.t) : throws Buffer :=
  bytes <- writeUInt32BE (alloc 8) (Raw.seconds r) 0 ;;
  writeUInt32BE bytes (Raw.fraction r) 4.

(** ** Hexadecimal digits and reference clock codes *)

(** The upper-case hexadecimal digit of [d]. *)
Definition upperHexDigit (d : Z) : ascii :=
  if d <? 10 then fromCharCode (48 + d) else fromCharCode (55 + d).

(** [k] hexadecimal digits of [n], most significant first, before [acc]. *)
Fixpoint hexFixed (digit : Z -> ascii) (k : nat) (n : Z) (acc : string) : string :=
  match k with
  | O => acc
  | S k' => hexFixed digit k' (n / 16) (String (digit (n mod 16)) acc)
  end.

(** Is [c] one of [0123456789ABCDEF]? *)
Definition isUpperHex (c : ascii) : bool :=
  ((48 <=? charCode c) && (charCode c <=? 57))
  || ((65 <=? charCode c) && (charCode c <=? 70)).

Fixpoint forallb_string (p : ascii -> bool) (s : string) : bool :=
  match s with
  | EmptyString => true
  | String c rest => p c && forallb_string p rest
  end.

(** The value of an upper-case hexadecimal digit. *)
Definition digitValue (c : ascii) : Z :=
  if charCode c <=? 57 then charCode c - 48 else charCode c - 55.

(** The number a string of hexadecimal digits denotes, after [acc]. *)
Fixpoint hexValue (s : string) (acc : Z) : Z :=
  match s with
  | EmptyString => acc
  | String c rest => hexValue rest (acc * 16 + digitValue c)
  end.

(** The reference identifier whose bytes are the characters of [code],
    padded with NUL to four bytes. *)
Definition referenceId_of_code (code : string) : Z :=
  word (firstn 4 (map (fun c => byte_of_Z (charCode c))
                      (list_ascii_of_string code) ++ alloc 4)) 0.

(** A character of 7-bit ASCII other than NUL. *)
Definition isCodeChar (c : ascii) : bool :=
  (1 <=? charCode c) && (charCode c <=? 127).

(** ** Sample responses *)

(** A rendering of dates for the examples: the count of milliseconds in
    decimal.  The theorems hold for every rendering. *)
Definition decimalDate (d : Date) : string := String_of_Z d.

(** Bytes 0 to 15 of a server response (LI 0, VN 4, mode 4, poll 6,
    precision 0xe9) with the given stratum and reference identifier. *)
Definition sample_header (stratum : byte) (referenceId : Buffer) : Buffer :=
  [x24; stratum; x06; xe9; x00; x00; x01; x02; x00; x00; x03; x04]
  ++ referenceId.

(** Bytes 16 to 47: four timestamps with the fractions 0, 0, 0x80000000
    and 0xFFFFFFFF. *)
Definition sample_timestamps : Buffer :=
  [xea; xeb; x5e; x33; x00; x00; x00; x00;
   x00; x00; x00; x00; x00; x00; x00; x00;
   xea; xeb; x5e; x33; x80; x00; x00; x00;
   xea; xeb; x5e; x34; xff; xff; xff; xff].

(** A response of stratum 2 with reference identifier 0xD8EF230C. *)
Definition sample_response : Buffer :=
  sample_header x02 [xd8; xef; x23; x0c] ++ sample_timestamps.

(** A kiss-of-death response: stratum 0, reference identifier "DENY". *)
Definition deny_response : Buffer :=
  sample_header x00 [x44; x45; x4e; x59] ++ sample_timestamps.

(** A response of stratum 1 with reference identifier "GPS\0". *)
Definition gps_response : Buffer :=
  sample_header x01 [x47; x50; x53; x00] ++ sample_timestamps.

(** A timestamp object with the given Unix seconds and milliseconds. *)
Definition timestamp_of_unix (seconds : Z) (milliseconds : Q)
  : ParsedNTPTimestamp :=
  let date := Qtrunc (fadd (fmul (inject_Z seconds) 1000) milliseconds) in
  {| raw := Raw.mk (seconds + NTP_EPOCH_OFFSET)
                   (Qfloor (milliseconds / 1000 * 4294967296)%Q);
     unix := Unix.mk seconds milliseconds;
     date := date;
     iso := decimalDate date;
     local := decimalDate date;
     timestamp := date |}.

(** A packet object whose receive and transmit timestamps are both
    1000.100 s, as in the example of the specification. *)
Definition example_packet : ParsedNTPPacket :=
  {| header :=
       {| leapIndicator := 0; versionNumber := 4; mode := 4; stratum := 2;
          pollInterval := 6; precision := 233; rootDelay := 258;
          rootDispersion := 772; referenceId := "0xD8EF230C" |};
     timestamps :=
       {| reference := timestamp_of_unix 990 0;
          originate := timestamp_of_unix 1000 0;
          receive := timestamp_of_unix 1000 100;
          transmit := timestamp_of_unix 1000 100 |};
     roundTripDelay := None;
     clockOffset := None |}.

(** ** Runs of the client *)

Section Runs.

Variable toISOString : Date -> string.
Variable toLocalString : Date -> string.
Variable network : list string -> string -> Attempt.

(** Every host of [hosts], tried in order after [tried], fails. *)
Definition all_fail (client : NTPClient) (tried hosts : list string) : Prop :=
  forall before server after,
    hosts = (before ++ server :: after)%list ->
    exists error,
      queryServer toISOString toLocalString client server
        (network (tried ++ before) server) = inl error.

End Runs.

Definition sample_client : NTPClient :=
  new_NTPClient
    {| config_host := Some "a.example"%string;
       config_port := None;
       config_timeout := Some 2000;
       config_fallbackServers := Some ["b.example"; "c.example"]%string |}.

Definition sample_reply : Attempt :=
  {| sendClock := 1732304819000;
     random := 1 # 3;
     event := OnMessage sample_response "192.0.2.7" 1732304819990 1732304819991 |}.

Definition sample_timeout : Attempt :=
  {| sendClock := 1732304819000; random := 1 # 3; event := OnTimeout |}.

(** A network on which only [b.example] answers. *)
Definition only_b (tried : list string) (server : string) : Attempt :=
  if String.eqb server "b.example" then sample_reply else sample_timeout.

(** A network on which no host answers. *)
Definition silent (tried : list string) (server : string) : Attempt :=
  sample_timeout.

(** ** Requests, headers and dumps *)

(** The binary64 numbers: the multiples [m * 2^k] of a power of two not
    below [2^-1074] with [|m| < 2^53]. *)
Definition binary64 (y : Q) : Prop :=
  exists m k : Z, Z.abs m < 2 ^ 53 /\ -1074 <= k /\ (y == inject_Z m * pow2 k)%Q.

(** The seconds and the fraction [createRequestPacket] writes. *)
Definition requestSeconds (now : Z) : Z :=
  Qfloor (fdiv (inject_Z now) 1000) + 2208988800.

Definition requestFraction (random : Q) : Z :=
  Qfloor (fmul random 4294967296).

(** The request with the given words in its transmit timestamp. *)
Definition request_of (seconds fraction : Z) : Buffer :=
  ([x23] ++ alloc 39 ++ bytes_of_word seconds ++ bytes_of_word fraction)%list.

(** The first twelve bytes of the packet a header stands for. *)
Definition encodeHeader (h : NTPPacketHeader) : Buffer :=
  ([byte_of_Z (leapIndicator h * 64 + versionNumber h * 8 + mode h);
    byte_of_Z (stratum h); byte_of_Z (pollInterval h); byte_of_Z (precision h)]
   ++ bytes_of_word (rootDelay h) ++ bytes_of_word (rootDispersion h))%list.

(** A character of [\x20-\x7E]. *)
Definition isPrintable (c : ascii) : bool :=
  (32 <=? charCode c) && (charCode c <=? 126).

(** The lines, each closed by a line feed. *)
Fixpoint unlines (lines : list string) : string :=
  match lines with
  | [] => EmptyString
  | line :: rest =>
      (line ++ String (fromCharCode 10) (unlines rest))%string
  end.

(** The line of the dump for the 16 bytes at [i]. *)
Definition hexDump_line (buffer : Buffer) (i : nat) : string :=
  (padStart (String_of_Z (Z.of_nat i)) 4 "0" ++ ": "
   ++ padEnd (join " " (toString_hex (slice buffer i (i + 16)))) 48 " " ++ " "
   ++ replace_unprintable (toString_ascii (slice buffer i (i + 16))))%string.

(** The lines of the dump from the offset [i] on. *)
Definition hexDump_lines_from (buffer : Buffer) (i : nat) : list string :=
  map (fun j => hexDump_line buffer (i + 16 * j))
      (seq 0 ((List.length buffer - i + 15) / 16)).

(** The host the default export asks first. *)
Definition primary_host (requested : option string) : string :=
  match requested with
  | Some h => if (String.length h =? 0)%nat then "time.hixbe.com"%string else h
  | None => "time.hixbe.com"%string
  end.

(** The error of the default export when no host answers. *)
Definition default_failure (requested : option string) (error : JsError)
  : Prop :=
  exists last,
    error = Error ("NTP query failed for all servers ("
                   ++ primary_host requested
                   ++ ", time.google.com, pool.ntp.org): " ++ last).

(** A network that answers every request, on a host whose clock shows
    2036-02-07T06:28:16Z. *)
Definition clock_2036 (tried : list string) (server : string) : Attempt :=
  {| sendClock := 2085978496000;
     random := 1 # 2;
     event := OnMessage sample_response "192.0.2.7" 2085978496020 2085978496021 |}.

(** ** The floats of the kernel *)

(** The fractional expressions of the parser, written on the binary64
    floats of the kernel, operation by operation as in the source, and
    compared with the rationals of the model at the points named by the
    theorems above. *)
Module Binary64.

(** The rational a finite float stands for. *)
Definition Q_of_float (f : float) : Q :=
  match Prim2SF f with
  | S754_finite s m e =>
      Qred ((if s then -1 else 1) * inject_Z (Zpos m) * pow2 e)
  | _ => 0%Q
  end.

Local Open Scope float_scope.

(** An integer as a number; exact below [2^53] in absolute value. *)
Definition of_Z (z : Z) : float :=
  if (z <? 0)%Z then - PrimFloat.of_uint63 (Uint63.of_Z (- z))
  else PrimFloat.of_uint63 (Uint63.of_Z z).

(** [(fraction / 0x100000000) * 1000]. *)
Definition milliseconds (fraction : Z) : float :=
  (of_Z fraction / 0x100000000) * 1000.

(** [new Date((unixSeconds * 1000) + milliseconds)], before [TimeClip]. *)
Definition time (unixSeconds : Z) (milliseconds : float) : float :=
  (of_Z unixSeconds * 1000) + milliseconds.

(** The delay and the offset of [calculateMetrics]. *)
Definition calculateMetrics
    (rxSeconds : Z) (rxMilliseconds : float)
    (txSeconds : Z) (txMilliseconds : float) (T1 T4 : Z) : float * float :=
  let t1 := of_Z T1 / 1000 in
  let t2 := of_Z rxSeconds + rxMilliseconds / 1000 in
  let t3 := of_Z txSeconds + txMilliseconds / 1000 in
  let t4 := of_Z T4 / 1000 in
  let roundTripDelay := (t4 - t1) - (t3 - t2) in
  let clockOffset := ((t2 - t1) + (t3 - t4)) / 2 in
  (roundTripDelay, clockOffset).

End Binary64.

(** * Properties *)

(** ** Bytes and words *)

Lemma Z_of_byte_range (b : byte) : 0 <= Z_of_byte b < 256.
Proof.
  unfold Z_of_byte. pose proof (Byte.to_N_bounded b). lia.
Qed.

Lemma byte_of_Z_of_byte (b : byte) : byte_of_Z (Z_of_byte b) = b.
Proof.
  unfold byte_of_Z. pose proof (Z_of_byte_range b) as H.
  rewrite Z.mod_small by exact H.
  unfold Z_of_byte. rewrite N2Z.id, Byte.of_to_N. reflexivity.
Qed.

Lemma Z_of_byte_of_Z (z : Z) : Z_of_byte (byte_of_Z z) = z mod 256.
Proof.
  unfold byte_of_Z, Z_of_byte.
  pose proof (Z.mod_pos_bound z 256 ltac:(lia)) as H.
  destruct (Byte.of_N (Z.to_N (z mod 256))) as [b|] eqn:E.
  - apply Byte.to_of_N in E. rewrite E. lia.
  - exfalso. apply Byte.of_N_None_iff in E. lia.
Qed.

Lemma index_range (buffer : Buffer) (i : nat) : 0 <= index buffer i < 256.
Proof.
  unfold index. destruct (nth_error buffer i).
  - apply Z_of_byte_range.
  - lia.
Qed.

Lemma word_range (buffer : Buffer) (offset : nat) :
  0 <= word buffer offset < 2 ^ 32.
Proof.
  unfold word.
  pose proof (index_range buffer offset).
  pose proof (index_range buffer (offset + 1)).
  pose proof (index_range buffer (offset + 2)).
  pose proof (index_range buffer (offset + 3)).
  lia.
Qed.

Lemma index_skipn (buffer : Buffer) (offset i : nat) :
  index (skipn offset buffer) i = index buffer (offset + i).
Proof.
  unfold index. rewrite nth_error_skipn. reflexivity.
Qed.

Lemma index_firstn (buffer : Buffer) (n i : nat) :
  (i < n)%nat -> index (firstn n buffer) i = index buffer i.
Proof.
  intros H. unfold index. rewrite nth_error_firstn.
  destruct (Nat.ltb_spec i n); [reflexivity | lia].
Qed.

Lemma four_bytes (buffer : Buffer) (offset : nat) :
  (offset + 4 <= List.length buffer)%nat ->
  exists b0 b1 b2 b3,
    firstn 4 (skipn offset buffer) = [b0; b1; b2; b3]
    /\ nth_error buffer offset = Some b0
    /\ nth_error buffer (offset + 1) = Some b1
    /\ nth_error buffer (offset + 2) = Some b2
    /\ nth_error buffer (offset + 3) = Some b3.
Proof.
  intros H.
  assert (L : (4 <= List.length (skipn offset buffer))%nat)
    by (rewrite length_skipn; lia).
  assert (N : forall i, nth_error (skipn offset buffer) i
                        = nth_error buffer (offset + i))
    by (intros i; apply nth_error_skipn).
  destruct (skipn offset buffer) as [|b0 [|b1 [|b2 [|b3 rest]]]];
    simpl in L; try lia.
  exists b0, b1, b2, b3. repeat split.
  - specialize (N 0%nat). rewrite Nat.add_0_r in N. symmetry. exact N.
  - symmetry. exact (N 1%nat).
  - symmetry. exact (N 2%nat).
  - symmetry. exact (N 3%nat).
Qed.

(** Inside the buffer [readUInt32BE] returns, and returns [word]. *)
Lemma readUInt32BE_word (buffer : Buffer) (offset : nat) :
  (offset + 4 <= List.length buffer)%nat ->
  readUInt32BE buffer offset = inr (word buffer offset).
Proof.
  intros H. destruct (four_bytes buffer offset H)
    as (b0 & b1 & b2 & b3 & E & E0 & E1 & E2 & E3).
  unfold readUInt32BE, word, index. rewrite E, E0, E1, E2, E3. reflexivity.
Qed.

(** Beyond the buffer [readUInt32BE] throws. *)
Lemma readUInt32BE_throws (buffer : Buffer) (offset : nat) :
  (List.length buffer < offset + 4)%nat ->
  readUInt32BE buffer offset = inl out_of_range.
Proof.
  intros H. unfold readUInt32BE.
  assert (L : (List.length (firstn 4 (skipn offset buffer)) < 4)%nat)
    by (rewrite length_firstn, length_skipn; lia).
  destruct (firstn 4 (skipn offset buffer)) as [|b0 [|b1 [|b2 [|b3 [|b4 r]]]]];
    simpl in L; try reflexivity; lia.
Qed.

(** ** Rounding to binary64 *)

Lemma pow2_pos (k : Z) : (0 < pow2 k)%Q.
Proof. apply Qpower_0_lt. reflexivity. Qed.

Lemma pow2_add (a b : Z) : (pow2 (a + b) == pow2 a * pow2 b)%Q.
Proof. apply Qpower_plus. discriminate. Qed.

Lemma pow2_le (a b : Z) : a <= b -> (pow2 a <= pow2 b)%Q.
Proof. intros H. apply Qpower_le_compat_l; [exact H | discriminate]. Qed.

Lemma pow2_lt (a b : Z) : a < b -> (pow2 a < pow2 b)%Q.
Proof. intros H. apply Qpower_lt_compat_l; [exact H | reflexivity]. Qed.

Lemma pow2_lt_inv (a b : Z) : (pow2 a < pow2 b)%Q -> a < b.
Proof. intros H. apply (Qpower_lt_compat_l_inv 2); [exact H | reflexivity]. Qed.

Lemma pow2_inject (k : Z) : 0 <= k -> (pow2 k == inject_Z (2 ^ k))%Q.
Proof. intros H. symmetry. apply (Zpower_Qpower 2 k H). Qed.

Lemma pow2_log2 (n : Z) :
  0 < n ->
  (pow2 (Z.log2 n) <= inject_Z n)%Q /\ (inject_Z n < pow2 (Z.log2 n + 1))%Q.
Proof.
  intros H. destruct (Z.log2_spec n H) as [L U].
  pose proof (Z.log2_nonneg n) as N.
  rewrite !pow2_inject by lia. split.
  - rewrite <- Zle_Qle. exact L.
  - rewrite <- Zlt_Qlt. replace (Z.log2 n + 1) with (Z.succ (Z.log2 n)) by lia.
    exact U.
Qed.

Lemma ilog2_spec (a : Q) :
  (0 < a)%Q -> (pow2 (ilog2 a) <= a)%Q /\ (a < pow2 (ilog2 a + 1))%Q.
Proof.
  intros H. destruct a as [n d].
  assert (Hn : 0 < n) by (unfold Qlt in H; simpl in H; lia).
  destruct (pow2_log2 n Hn) as [Ln Un].
  destruct (pow2_log2 (Zpos d) ltac:(lia)) as [Ld Ud].
  set (ln := Z.log2 n) in *. set (ld := Z.log2 (Zpos d)) in *.
  assert (E : (n # d == inject_Z n / inject_Z (Zpos d))%Q) by apply Qmake_Qdiv.
  assert (Dpos : (0 < inject_Z (Zpos d))%Q) by reflexivity.
  assert (A : (pow2 (ln - ld - 1) <= n # d)%Q).
  { rewrite E. apply Qle_shift_div_l; [exact Dpos|].
    apply Qle_trans with (pow2 (ln - ld - 1) * pow2 (ld + 1))%Q.
    - apply Qmult_le_l; [apply pow2_pos | apply Qlt_le_weak; exact Ud].
    - rewrite <- pow2_add. replace (ln - ld - 1 + (ld + 1)) with ln by lia.
      exact Ln. }
  assert (B : (n # d < pow2 (ln - ld + 1))%Q).
  { rewrite E. apply Qlt_shift_div_r; [exact Dpos|].
    apply Qlt_le_trans with (pow2 (ln - ld + 1) * pow2 ld)%Q.
    - rewrite <- pow2_add. replace (ln - ld + 1 + ld) with (ln + 1) by lia.
      exact Un.
    - apply Qmult_le_l; [apply pow2_pos | exact Ld]. }
  unfold ilog2. cbn [Qnum Qden]. fold ln. fold ld.
  destruct (Qle_bool (pow2 (ln - ld)) (n # d)) eqn:C.
  - apply Qle_bool_iff in C. split; assumption.
  - split; [exact A|]. replace (ln - ld - 1 + 1) with (ln - ld) by lia.
    apply Qnot_le_lt. intros K. apply Qle_bool_iff in K. congruence.
Qed.

Lemma ilog2_unique (a : Q) (e : Z) :
  (pow2 e <= a)%Q -> (a < pow2 (e + 1))%Q -> ilog2 a = e.
Proof.
  intros L U.
  assert (P : (0 < a)%Q) by (apply Qlt_le_trans with (pow2 e); [apply pow2_pos | exact L]).
  destruct (ilog2_spec a P) as [L' U'].
  assert (X : ilog2 a < e + 1)
    by (apply pow2_lt_inv; apply Qle_lt_trans with a; assumption).
  assert (Y : e < ilog2 a + 1)
    by (apply pow2_lt_inv; apply Qle_lt_trans with a; assumption).
  lia.
Qed.

Lemma round_half_even_near (x : Q) :
  (Qabs (inject_Z (round_half_even x) - x) <= 1 # 2)%Q.
Proof.
  unfold round_half_even.
  pose proof (Qfloor_le x) as L. pose proof (Qlt_floor x) as U.
  set (f := Qfloor x) in *. rewrite inject_Z_plus in U.
  apply Qabs_Qle_condition.
  destruct (Qcompare_spec (x - inject_Z f) (1 # 2)) as [C | C | C];
    [destruct (Z.even f)| |];
    rewrite ?inject_Z_plus; change (inject_Z 1) with 1%Q in *;
    set (g := inject_Z f) in *; split; lra.
Qed.

Lemma round_half_even_inject (x : Q) (z : Z) :
  (x == inject_Z z)%Q -> round_half_even x = z.
Proof.
  intros E. unfold round_half_even.
  assert (F : Qfloor x = z) by (rewrite E; apply Qfloor_Z).
  rewrite F. set (g := inject_Z z) in *.
  destruct (Qcompare_spec (x - g) (1 # 2)) as [C | C | C].
  - exfalso. lra.
  - reflexivity.
  - exfalso. lra.
Qed.

Lemma round64_proper (x y : Q) : (x == y)%Q -> round64 x = round64 y.
Proof.
  intros E. unfold round64. rewrite (Qred_complete x y E). reflexivity.
Qed.

Lemma sgn_abs (q : Q) : (inject_Z (Z.sgn (Qnum q)) * Qabs q == q)%Q.
Proof.
  destruct q as [[|p|p] d]; unfold Qeq; cbn; lia.
Qed.

Lemma abs_sgn_le (q : Q) : (Qabs (inject_Z (Z.sgn (Qnum q))) <= 1)%Q.
Proof.
  destruct q as [[|p|p] d]; cbn; discriminate.
Qed.

(** The value of [round64] on a number other than zero. *)
Lemma round64_eq (x : Q) :
  ~ (x == 0)%Q ->
  let a := Qabs (Qred x) in
  let ulp := pow2 (Z.max (ilog2 a) (-1022) - 52) in
  (round64 x
   == inject_Z (Z.sgn (Qnum (Qred x)))
      * (inject_Z (round_half_even (a / ulp)) * ulp))%Q.
Proof.
  intros N. cbv zeta. unfold round64.
  destruct (Qeq_bool (Qred x) 0) eqn:Z0.
  - exfalso. apply N. apply Qeq_bool_iff in Z0.
    rewrite <- Z0. symmetry. apply Qred_correct.
  - rewrite Qred_correct, inject_Z_mult. ring.
Qed.

(** The error of one rounding: half a unit in the last place. *)
Lemma round64_error (x : Q) (k : Z) :
  -1021 <= k -> (Qabs x < pow2 k)%Q ->
  (Qabs (round64 x - x) <= pow2 (k - 54))%Q.
Proof.
  intros K B.
  destruct (Qeq_dec x 0) as [Z0 | N].
  - rewrite (round64_proper x 0 Z0), Z0.
    apply Qlt_le_weak. apply pow2_pos.
  - pose proof (round64_eq x N) as R. cbv zeta in R.
    set (x' := Qred x) in *.
    assert (X : (x' == x)%Q) by apply Qred_correct.
    set (a := Qabs x') in *.
    assert (A : (0 < a)%Q).
    { destruct (Qle_lt_or_eq 0 a (Qabs_nonneg x')) as [P | P]; [exact P|].
      exfalso. apply N. rewrite <- X.
      destruct (Qabs_Qle_condition x' 0) as [F _].
      destruct F as [F1 F2]; [rewrite P; apply Qle_refl|].
      apply Qle_antisym; assumption. }
    destruct (ilog2_spec a A) as [L U].
    assert (E : ilog2 a < k).
    { apply pow2_lt_inv. apply Qle_lt_trans with a; [exact L|].
      unfold a. rewrite X. exact B. }
    set (e := Z.max (ilog2 a) (-1022)) in *.
    set (ulp := pow2 (e - 52)) in *.
    assert (Upos : (0 < ulp)%Q) by apply pow2_pos.
    assert (Ule : (ulp <= pow2 (k - 53))%Q) by (apply pow2_le; lia).
    pose proof (round_half_even_near (a / ulp)) as H.
    set (n := inject_Z (round_half_even (a / ulp))) in *.
    set (s := inject_Z (Z.sgn (Qnum x'))) in *.
    assert (S1 : (Qabs s <= 1)%Q) by apply abs_sgn_le.
    assert (SA : (s * a == x)%Q) by (rewrite <- X; apply sgn_abs).
    assert (D : (round64 x - x == s * (ulp * (n - a / ulp)))%Q).
    { rewrite R, <- SA. field. intros F. rewrite F in Upos. discriminate. }
    rewrite D, !Qabs_Qmult, (Qabs_pos ulp) by (apply Qlt_le_weak; exact Upos).
    assert (P2 : (pow2 (k - 54) == pow2 (k - 53) * (1 # 2))%Q).
    { replace (k - 54) with (k - 53 + -1) by lia. rewrite pow2_add.
      reflexivity. }
    rewrite P2.
    setoid_replace (pow2 (k - 53) * (1 # 2))%Q
      with (1 * (pow2 (k - 53) * (1 # 2)))%Q by ring.
    apply Qmult_le_compat_nonneg; [split; [apply Qabs_nonneg | exact S1]|].
    split; [apply Qmult_le_0_compat; [lra | apply Qabs_nonneg]|].
    apply Qmult_le_compat_nonneg; split;
      [lra | exact Ule | apply Qabs_nonneg | exact H].
Qed.

Lemma round64_near (x : Q) :
  (Qabs x < pow2 53)%Q -> (Qabs (round64 x - x) <= 1 # 2)%Q.
Proof.
  intros B. exact (round64_error x 53 ltac:(lia) B).
Qed.

(** One operation: the rounded result of [x], itself within [e] of the
    exact value [x0], is within [e + 2^(k-54)] of [x0] when [x] is below
    [2^k]. *)
Lemma round64_close (x x0 e b : Q) (k : Z) :
  -1021 <= k ->
  (Qabs (x - x0) <= e)%Q -> (Qabs x0 <= b)%Q -> (b + e < pow2 k)%Q ->
  (Qabs (round64 x - x0) <= e + pow2 (k - 54))%Q.
Proof.
  intros K C B P.
  assert (A : (Qabs x < pow2 k)%Q).
  { apply Qle_lt_trans with (b + e)%Q; [|exact P].
    setoid_replace x with (x0 + (x - x0))%Q by ring.
    apply Qle_trans with (Qabs x0 + Qabs (x - x0))%Q;
      [apply Qabs_triangle | apply Qplus_le_compat; assumption]. }
  pose proof (round64_error x k K A) as E.
  setoid_replace (round64 x - x0)%Q with ((x - x0) + (round64 x - x))%Q by ring.
  apply Qle_trans with (Qabs (x - x0) + Qabs (round64 x - x))%Q;
    [apply Qabs_triangle | apply Qplus_le_compat; assumption].
Qed.

Lemma Qabs_sub_le (a a0 b b0 ea eb : Q) :
  (Qabs (a - a0) <= ea)%Q -> (Qabs (b - b0) <= eb)%Q ->
  (Qabs ((a - b) - (a0 - b0)) <= ea + eb)%Q.
Proof.
  intros A B. apply Qabs_Qle_condition in A. apply Qabs_Qle_condition in B.
  apply Qabs_Qle_condition. destruct A, B. split; lra.
Qed.

Lemma Qabs_add_le (a a0 b b0 ea eb : Q) :
  (Qabs (a - a0) <= ea)%Q -> (Qabs (b - b0) <= eb)%Q ->
  (Qabs ((a + b) - (a0 + b0)) <= ea + eb)%Q.
Proof.
  intros A B. apply Qabs_Qle_condition in A. apply Qabs_Qle_condition in B.
  apply Qabs_Qle_condition. destruct A, B. split; lra.
Qed.

Lemma Qabs_half_le (a a0 e : Q) :
  (Qabs (a - a0) <= e)%Q -> (Qabs (a / 2 - a0 / 2) <= e * (1 # 2))%Q.
Proof.
  intros A. apply Qabs_Qle_condition in A. destruct A.
  setoid_replace (a / 2 - a0 / 2)%Q with ((a - a0) * (1 # 2))%Q by field.
  apply Qabs_Qle_condition. split; lra.
Qed.

Lemma Qabs_bound_sub (a b A B : Q) :
  (Qabs a <= A)%Q -> (Qabs b <= B)%Q -> (Qabs (a - b) <= A + B)%Q.
Proof.
  intros HA HB. apply Qabs_Qle_condition in HA. apply Qabs_Qle_condition in HB.
  apply Qabs_Qle_condition. destruct HA, HB. split; lra.
Qed.

Lemma Qabs_bound_add (a b A B : Q) :
  (Qabs a <= A)%Q -> (Qabs b <= B)%Q -> (Qabs (a + b) <= A + B)%Q.
Proof.
  intros HA HB. apply Qabs_Qle_condition in HA. apply Qabs_Qle_condition in HB.
  apply Qabs_Qle_condition. destruct HA, HB. split; lra.
Qed.

Lemma Qabs_bound_half (a A : Q) :
  (Qabs a <= A)%Q -> (Qabs (a / 2) <= A * (1 # 2))%Q.
Proof.
  intros HA. apply Qabs_Qle_condition in HA. destruct HA.
  setoid_replace (a / 2)%Q with (a * (1 # 2))%Q by field.
  apply Qabs_Qle_condition. split; lra.
Qed.

(** A multiple of a power of two with a numerator below [2^53] is a
    binary64 number: [round64] leaves it as it is. *)
Lemma round64_dyadic (x : Q) (m k : Z) :
  (x == inject_Z m * pow2 k)%Q -> Z.abs m < 2 ^ 53 -> -1074 <= k ->
  round64 x = Qred x.
Proof.
  intros X M K.
  destruct (Z.eq_dec m 0) as [-> | N0].
  - assert (Z0 : (x == 0)%Q) by (rewrite X; ring).
    rewrite (round64_proper x 0 Z0), (Qred_complete x 0 Z0). reflexivity.
  - assert (N : ~ (x == 0)%Q).
    { intros Z0. rewrite X in Z0. apply Qmult_integral in Z0.
      destruct Z0 as [Z0 | Z0].
      - apply N0. unfold Qeq in Z0. simpl in Z0. lia.
      - pose proof (pow2_pos k) as P. rewrite Z0 in P. discriminate. }
    unfold round64.
    destruct (Qeq_bool (Qred x) 0) eqn:Z0.
    { exfalso. apply N. apply Qeq_bool_iff in Z0.
      rewrite <- Z0. symmetry. apply Qred_correct. }
    apply Qred_complete.
    set (x' := Qred x) in *.
    assert (X' : (x' == inject_Z m * pow2 k)%Q)
      by (unfold x'; rewrite Qred_correct; exact X).
    set (a := Qabs x') in *.
    assert (A : (a == inject_Z (Z.abs m) * pow2 k)%Q).
    { unfold a. rewrite X', Qabs_Qmult.
      rewrite (Qabs_pos (pow2 k)) by (apply Qlt_le_weak, pow2_pos).
      apply Qmult_comp; [|reflexivity].
      unfold Qabs, inject_Z. reflexivity. }
    assert (Mpos : 0 < Z.abs m) by lia.
    destruct (pow2_log2 (Z.abs m) Mpos) as [Lm Um].
    set (lm := Z.log2 (Z.abs m)) in *.
    assert (Lm53 : lm < 53).
    { apply pow2_lt_inv. apply Qle_lt_trans with (inject_Z (Z.abs m));
        [exact Lm|]. rewrite pow2_inject by lia. rewrite <- Zlt_Qlt. exact M. }
    assert (E0 : ilog2 a = lm + k).
    { apply ilog2_unique; rewrite A.
      - rewrite pow2_add. apply Qmult_le_r; [apply pow2_pos | exact Lm].
      - replace (lm + k + 1) with (lm + 1 + k) by lia. rewrite pow2_add.
        apply Qmult_lt_r; [apply pow2_pos | exact Um]. }
    rewrite E0.
    set (e := Z.max (lm + k) (-1022)) in *.
    set (j := k - (e - 52)).
    assert (J : 0 <= j) by (unfold j, e; lia).
    assert (Q1 : (a / pow2 (e - 52) == inject_Z (Z.abs m * 2 ^ j))%Q).
    { rewrite A, inject_Z_mult, <- pow2_inject by exact J.
      replace k with (j + (e - 52)) at 1 by (unfold j; lia).
      rewrite pow2_add. field.
      intros Z1. pose proof (pow2_pos (e - 52)) as P. rewrite Z1 in P.
      discriminate. }
    rewrite (round_half_even_inject _ _ Q1).
    rewrite !inject_Z_mult, <- pow2_inject by exact J.
    rewrite X.
    assert (S : Z.sgn (Qnum x') = Z.sgn m).
    { assert (P : (0 < pow2 k)%Q) by apply pow2_pos.
      destruct (Z.lt_total m 0) as [Hm | [Hm | Hm]]; [|lia|].
      - assert (Xn : (x' < 0)%Q).
        { rewrite X'. setoid_replace 0%Q with (0 * pow2 k)%Q by ring.
          apply Qmult_lt_compat_r; [exact P|]. unfold Qlt; simpl; lia. }
        unfold Qlt in Xn. simpl in Xn. lia.
      - assert (Xp : (0 < x')%Q).
        { rewrite X'. apply Qmult_lt_0_compat; [|exact P].
          unfold Qlt; simpl; lia. }
        unfold Qlt in Xp. simpl in Xp. lia. }
    rewrite S.
    replace k with (j + (e - 52)) at 1 by (unfold j; lia).
    rewrite pow2_add.
    assert (SM : (inject_Z (Z.sgn m) * inject_Z (Z.abs m) == inject_Z m)%Q).
    { rewrite <- inject_Z_mult.
      replace (Z.sgn m * Z.abs m) with m by lia. reflexivity. }
    rewrite <- SM. ring.
Qed.

(** From here on [round64] is unfolded by computation only. *)
Opaque round64.

(** ** Timestamps *)

(** [round64] leaves a binary64 number as it is. *)
Lemma round64_exact (x : Q) (m k : Z) :
  (x == inject_Z m * pow2 k)%Q -> Z.abs m < 2 ^ 53 -> -1074 <= k ->
  (round64 x == x)%Q.
Proof.
  intros X M K. rewrite (round64_dyadic x m k X M K). apply Qred_correct.
Qed.

(** The two operations that make the milliseconds do not round: the
    quotient [fraction / 2^32] and its product with 1000 are multiples of
    [2^-32] with numerators below [2^53]. *)
Lemma milliseconds_of_exact (fraction : Z) :
  0 <= fraction < 2 ^ 32 ->
  (milliseconds_of fraction == inject_Z fraction / 4294967296 * 1000)%Q.
Proof.
  intros H. unfold milliseconds_of, fmul, fdiv.
  assert (P : (pow2 (-32) == 1 # 4294967296)%Q) by reflexivity.
  assert (D : (round64 (inject_Z fraction / 4294967296)
               == inject_Z fraction / 4294967296)%Q).
  { apply (round64_exact _ fraction (-32)); [|lia|lia].
    rewrite P. field. }
  rewrite (round64_proper _ (inject_Z fraction / 4294967296 * 1000))
    by (rewrite D; reflexivity).
  apply (round64_exact _ (fraction * 1000) (-32)); [|lia|lia].
  rewrite P, inject_Z_mult. field.
Qed.

Lemma milliseconds_of_range (fraction : Z) :
  0 <= fraction < 2 ^ 32 ->
  (0 <= milliseconds_of fraction)%Q /\ (milliseconds_of fraction < 1000)%Q.
Proof.
  intros H. rewrite (milliseconds_of_exact fraction H). destruct H as [H0 H1].
  assert (A : (0 <= inject_Z fraction)%Q)
    by (unfold Qle; simpl; lia).
  assert (B : (inject_Z fraction < 4294967296)%Q)
    by (unfold Qlt; simpl; lia).
  set (f := inject_Z fraction) in *. split.
  - apply Qmult_le_0_compat; [|discriminate].
    apply Qle_shift_div_l; [reflexivity|]. rewrite Qmult_0_l. exact A.
  - setoid_replace 1000%Q with (1 * 1000)%Q at 2 by ring.
    apply Qmult_lt_compat_r; [reflexivity|].
    apply Qlt_shift_div_r; [reflexivity|]. rewrite Qmult_1_l. exact B.
Qed.

(** The time value of a timestamp is within half a millisecond of the
    exact sum of its seconds and milliseconds. *)
Lemma time_of_near (seconds fraction : Z) :
  0 <= seconds < 2 ^ 32 -> 0 <= fraction < 2 ^ 32 ->
  (Qabs (time_of seconds fraction
         - (inject_Z ((seconds - NTP_EPOCH_OFFSET) * 1000)
            + milliseconds_of fraction)) <= 1 # 2)%Q.
Proof.
  intros Hs Hf. unfold time_of, fadd, fmul.
  destruct (milliseconds_of_range fraction Hf) as [M0 M1].
  set (ms := milliseconds_of fraction) in *.
  set (u := seconds - NTP_EPOCH_OFFSET).
  assert (U : - 2208988800 <= u < 2085978496)
    by (unfold u, NTP_EPOCH_OFFSET; lia).
  assert (A : (round64 (inject_Z u * 1000) == inject_Z (u * 1000))%Q).
  { rewrite inject_Z_mult. apply (round64_exact _ (u * 1000) 0); [|lia|lia].
    rewrite inject_Z_mult. change (pow2 0) with 1%Q. ring. }
  rewrite (round64_proper _ (inject_Z (u * 1000) + ms))
    by (rewrite A; reflexivity).
  apply round64_near.
  assert (L : (inject_Z (-2208988800000) <= inject_Z (u * 1000))%Q)
    by (rewrite <- Zle_Qle; lia).
  assert (R : (inject_Z (u * 1000) <= inject_Z 2085978496000)%Q)
    by (rewrite <- Zle_Qle; lia).
  set (a := inject_Z (u * 1000)) in *.
  apply Qabs_Qlt_condition.
  change (pow2 53) with 9007199254740992%Q.
  change (inject_Z (-2208988800000)) with (-2208988800000)%Q in L.
  change (inject_Z 2085978496000) with 2085978496000%Q in R.
  split; lra.
Qed.

(** The parser never builds an Invalid Date. *)
Lemma new_Date_time_of (seconds fraction : Z) :
  0 <= seconds < 2 ^ 32 -> 0 <= fraction < 2 ^ 32 ->
  new_Date (time_of seconds fraction)
  = Some (Qtrunc (time_of seconds fraction)).
Proof.
  intros Hs Hf. unfold new_Date.
  pose proof (time_of_near seconds fraction Hs Hf) as N.
  destruct (milliseconds_of_range fraction Hf) as [M0 M1].
  set (ms := milliseconds_of fraction) in *.
  set (t := time_of seconds fraction) in *.
  assert (L : (inject_Z (-2208988800000)
               <= inject_Z ((seconds - NTP_EPOCH_OFFSET) * 1000))%Q)
    by (rewrite <- Zle_Qle; unfold NTP_EPOCH_OFFSET; lia).
  assert (R : (inject_Z ((seconds - NTP_EPOCH_OFFSET) * 1000)
               <= inject_Z 2085978496000)%Q)
    by (rewrite <- Zle_Qle; unfold NTP_EPOCH_OFFSET; lia).
  set (a := inject_Z ((seconds - NTP_EPOCH_OFFSET) * 1000)) in *.
  change (inject_Z (-2208988800000)) with (-2208988800000)%Q in L.
  change (inject_Z 2085978496000) with 2085978496000%Q in R.
  apply Qabs_Qle_condition in N. destruct N as [N1 N2].
  assert (B : (Qabs t <= inject_Z 8640000000000000)%Q).
  { apply Qabs_Qle_condition.
    change (inject_Z 8640000000000000) with 8640000000000000%Q.
    split; lra. }
  apply Qle_bool_iff in B. rewrite B. reflexivity.
Qed.

Section ParserFacts.

Variable toISOString : Date -> string.
Variable toLocalString : Date -> string.

(** [parseNTPTimestamp] returns whenever the eight bytes are inside the
    buffer. *)
Lemma parseNTPTimestamp_returns (buffer : Buffer) (offset : nat) :
  (offset + 8 <= List.length buffer)%nat ->
  parseNTPTimestamp toISOString toLocalString buffer offset
  = inr (timestamp_at toISOString toLocalString buffer offset).
Proof.
  intros H. unfold parseNTPTimestamp.
  rewrite (readUInt32BE_word buffer offset) by lia.
  rewrite (readUInt32BE_word buffer (offset + 4)) by lia.
  cbn [bind].
  fold (milliseconds_of (word buffer (offset + 4))).
  fold (time_of (word buffer offset) (word buffer (offset + 4))).
  rewrite new_Date_time_of by apply word_range.
  reflexivity.
Qed.

End ParserFacts.

(** ** Round trip of a 32-bit word *)

Lemma byte_of_Z_mod (z : Z) (b : byte) :
  z mod 256 = Z_of_byte b -> byte_of_Z z = b.
Proof.
  intros H. rewrite <- (byte_of_Z_of_byte b). unfold byte_of_Z.
  rewrite <- H, Z.mod_mod by lia. reflexivity.
Qed.

Lemma bytes_of_word_of_bytes (b0 b1 b2 b3 : byte) :
  bytes_of_word (Z_of_byte b0 * 2 ^ 24 + Z_of_byte b1 * 2 ^ 16
                 + Z_of_byte b2 * 2 ^ 8 + Z_of_byte b3)
  = [b0; b1; b2; b3].
Proof.
  pose proof (Z_of_byte_range b0). pose proof (Z_of_byte_range b1).
  pose proof (Z_of_byte_range b2). pose proof (Z_of_byte_range b3).
  unfold bytes_of_word.
  repeat f_equal; apply byte_of_Z_mod;
    change (2 ^ 24) with 16777216; change (2 ^ 16) with 65536;
    change (2 ^ 8) with 256; Z.div_mod_to_equations; lia.
Qed.

(** Writing a word into a fresh buffer of four bytes. *)
Lemma writeUInt32BE_alloc4 (value : Z) :
  0 <= value < 2 ^ 32 ->
  writeUInt32BE (alloc 4) value 0 = inr (bytes_of_word value).
Proof.
  intros [H0 H1]. unfold writeUInt32BE.
  destruct (Z.leb_spec 0 value); [|lia].
  destruct (Z.ltb_spec value (2 ^ 32)); [|lia].
  reflexivity.
Qed.

(** The bytes of the word read at [offset] are the bytes at [offset]. *)
Lemma bytes_of_word_slice (buffer : Buffer) (offset : nat) :
  (offset + 4 <= List.length buffer)%nat ->
  bytes_of_word (word buffer offset) = slice buffer offset (offset + 4).
Proof.
  intros H. destruct (four_bytes buffer offset H)
    as (b0 & b1 & b2 & b3 & E & E0 & E1 & E2 & E3).
  unfold slice. replace (offset + 4 - offset)%nat with 4%nat by lia.
  rewrite E. unfold word, index. rewrite E0, E1, E2, E3.
  apply bytes_of_word_of_bytes.
Qed.

(** ** Reference identifiers *)

Lemma formatReferenceId_stratum0 (id : Z) :
  formatReferenceId id 0 = inr "KISS"%string.
Proof. reflexivity. Qed.

Lemma formatReferenceId_stratum1 (id : Z) :
  0 <= id < 2 ^ 32 ->
  formatReferenceId id 1
  = inr (replace_nul (toString_ascii (bytes_of_word id))).
Proof.
  intros H. unfold formatReferenceId. cbn [Z.eqb Pos.eqb bind].
  rewrite writeUInt32BE_alloc4 by exact H. reflexivity.
Qed.

Lemma formatReferenceId_stratum2 (id stratum : Z) :
  2 <= stratum ->
  formatReferenceId id stratum
  = inr ("0x" ++ padStart (toUpperCase (toString16 id)) 8 "0")%string.
Proof.
  intros H. unfold formatReferenceId.
  destruct (Z.eqb_spec stratum 0); [lia|].
  destruct (Z.eqb_spec stratum 1); [lia|]. reflexivity.
Qed.

(** [formatReferenceId] returns on every 32-bit word. *)
Lemma formatReferenceId_returns (id stratum : Z) :
  0 <= id < 2 ^ 32 ->
  exists s, formatReferenceId id stratum = inr s.
Proof.
  intros H. unfold formatReferenceId.
  destruct (stratum =? 0); [eexists; reflexivity|].
  destruct (stratum =? 1); [|eexists; reflexivity].
  rewrite writeUInt32BE_alloc4 by exact H. eexists. reflexivity.
Qed.

(** ** Packets *)

Section PacketFacts.

Variable toISOString : Date -> string.
Variable toLocalString : Date -> string.

Lemma parsePacket_short (buffer : Buffer) :
  (List.length buffer < 48)%nat ->
  parsePacket toISOString toLocalString buffer = inl MalformedPacket.
Proof.
  intros H. unfold parsePacket.
  destruct (Nat.ltb_spec (List.length buffer) 48); [reflexivity | lia].
Qed.

Lemma parsePacket_returns (buffer : Buffer) :
  (48 <= List.length buffer)%nat ->
  parsePacket toISOString toLocalString buffer = inr (packet_at toISOString toLocalString buffer).
Proof.
  intros H. unfold parsePacket.
  destruct (Nat.ltb_spec (List.length buffer) 48); [lia|].
  rewrite !parseNTPTimestamp_returns by lia.
  rewrite !readUInt32BE_word by lia.
  cbn [bind]. unfold packet_at, referenceId_at.
  destruct (formatReferenceId_returns (word buffer 12) (index buffer 1)
              (word_range _ _)) as [s E].
  rewrite E. reflexivity.
Qed.

(** The packet depends on the first 48 bytes only. *)
Lemma packet_at_firstn (buffer : Buffer) :
  packet_at toISOString toLocalString (firstn 48 buffer) = packet_at toISOString toLocalString buffer.
Proof.
  unfold packet_at, referenceId_at, timestamp_at, word.
  cbn [Nat.add].
  rewrite !index_firstn by lia. reflexivity.
Qed.

End PacketFacts.

(** Whenever [parsePacket] returns, it returns [packet_at]. *)
Lemma parsePacket_inr
    (toISOString toLocalString : Date -> string)
    (buffer : Buffer) (packet : ParsedNTPPacket) :
  parsePacket toISOString toLocalString buffer = inr packet ->
  (48 <= List.length buffer)%nat
  /\ packet = packet_at toISOString toLocalString buffer.
Proof.
  intros H.
  destruct (Nat.le_gt_cases 48 (List.length buffer)) as [L | L].
  - rewrite parsePacket_returns in H by exact L.
    split; [exact L | congruence].
  - rewrite parsePacket_short in H by exact L. discriminate.
Qed.

(** ** Hexadecimal rendering *)

Lemma sixteen_cases (d : Z) :
  0 <= d < 16 ->
  d = 0 \/ d = 1 \/ d = 2 \/ d = 3 \/ d = 4 \/ d = 5 \/ d = 6 \/ d = 7 \/
  d = 8 \/ d = 9 \/ d = 10 \/ d = 11 \/ d = 12 \/ d = 13 \/ d = 14 \/ d = 15.
Proof. lia. Qed.

Ltac by_sixteen_cases d H :=
  let C := fresh "C" in
  pose proof (sixteen_cases d H) as C;
  repeat (destruct C as [C | C]; [subst d; reflexivity |]);
  subst d; reflexivity.

Lemma toUpperCase_hexDigit (d : Z) :
  0 <= d < 16 -> toUpperCase_char (hexDigit d) = upperHexDigit d.
Proof. intros H. by_sixteen_cases d H. Qed.

Lemma isUpperHex_upperHexDigit (d : Z) :
  0 <= d < 16 -> isUpperHex (upperHexDigit d) = true.
Proof. intros H. by_sixteen_cases d H. Qed.

Lemma digitValue_upperHexDigit (d : Z) :
  0 <= d < 16 -> digitValue (upperHexDigit d) = d.
Proof.
  intros H. pose proof (sixteen_cases d H) as C.
  repeat (destruct C as [C | C]; [rewrite C; reflexivity |]).
  rewrite C; reflexivity.
Qed.

Lemma mod16_range (n : Z) : 0 <= n mod 16 < 16.
Proof. apply Z.mod_pos_bound. lia. Qed.

(** The digits [toString16_digits] produces: as many as the number needs,
    and one at least. *)
Lemma toString16_digits_hexFixed (fuel : nat) :
  forall n acc,
    0 <= n < 16 ^ Z.of_nat fuel -> (1 <= fuel)%nat ->
    exists j, (1 <= j <= fuel)%nat
              /\ n < 16 ^ Z.of_nat j
              /\ (j = 1%nat \/ 16 ^ (Z.of_nat j - 1) <= n)
              /\ toString16_digits fuel n acc = hexFixed hexDigit j n acc.
Proof.
  induction fuel as [|fuel IH]; intros n acc Hn Hf; [lia|].
  cbn [toString16_digits].
  destruct (Z.eqb_spec (n / 16) 0) as [E | E].
  - exists 1%nat.
    split; [lia|]. split; [|split; [left; reflexivity | reflexivity]].
    change (16 ^ Z.of_nat 1) with 16. Z.div_mod_to_equations. lia.
  - assert (P : 16 ^ Z.of_nat (S fuel) = 16 * 16 ^ Z.of_nat fuel)
      by (rewrite Nat2Z.inj_succ, Z.pow_succ_r by lia; reflexivity).
    assert (Q16 : 0 <= n / 16 < 16 ^ Z.of_nat fuel)
      by (split; [apply Z.div_pos; lia | apply Z.div_lt_upper_bound; lia]).
    assert (F : (1 <= fuel)%nat).
    { destruct fuel; [|lia]. change (16 ^ Z.of_nat 0) with 1 in Q16. lia. }
    destruct (IH (n / 16) (String (hexDigit (n mod 16)) acc) Q16 F)
      as (j & Hj & Hlt & Hge & Heq).
    exists (S j).
    split; [lia|]. split; [|split; [right | exact Heq]].
    + rewrite Nat2Z.inj_succ, Z.pow_succ_r by lia.
      Z.div_mod_to_equations. lia.
    + replace (Z.of_nat (S j) - 1) with (Z.of_nat j) by lia.
      destruct Hge as [-> | Hge].
      * change (16 ^ Z.of_nat 1) with 16. Z.div_mod_to_equations. lia.
      * replace (Z.of_nat j) with (Z.succ (Z.of_nat j - 1)) by lia.
        rewrite Z.pow_succ_r by lia. Z.div_mod_to_equations. lia.
Qed.

Lemma toUpperCase_hexFixed (k : nat) :
  forall n acc,
    toUpperCase (hexFixed hexDigit k n acc)
    = hexFixed upperHexDigit k n (toUpperCase acc).
Proof.
  induction k as [|k IH]; intros n acc; cbn [hexFixed]; [reflexivity|].
  rewrite IH. cbn [toUpperCase].
  rewrite toUpperCase_hexDigit by apply mod16_range. reflexivity.
Qed.

Lemma length_hexFixed (digit : Z -> ascii) (k : nat) :
  forall n acc,
    String.length (hexFixed digit k n acc) = (k + String.length acc)%nat.
Proof.
  induction k as [|k IH]; intros n acc; cbn [hexFixed]; [reflexivity|].
  rewrite IH. cbn [String.length]. lia.
Qed.

Lemma repeat_char_snoc (c : ascii) (k : nat) (acc : string) :
  (repeat_char c (S k) ++ acc)%string = (repeat_char c k ++ String c acc)%string.
Proof.
  induction k as [|k IH]; [reflexivity|].
  cbn [repeat_char String.append] in *. rewrite <- IH. reflexivity.
Qed.

Lemma hexFixed_zero (k : nat) :
  forall acc,
    hexFixed upperHexDigit k 0 acc = (repeat_char "0" k ++ acc)%string.
Proof.
  induction k as [|k IH]; intros acc; [reflexivity|].
  cbn [hexFixed]. change (0 / 16) with 0. change (0 mod 16) with 0.
  rewrite IH. symmetry. apply repeat_char_snoc.
Qed.

(** Leading zeros: the digits beyond those the number needs. *)
Lemma hexFixed_pad (j : nat) :
  forall k n acc,
    0 <= n < 16 ^ Z.of_nat j -> (j <= k)%nat ->
    hexFixed upperHexDigit k n acc
    = (repeat_char "0" (k - j) ++ hexFixed upperHexDigit j n acc)%string.
Proof.
  induction j as [|j IH]; intros k n acc Hn Hk.
  - change (16 ^ Z.of_nat 0) with 1 in Hn. replace n with 0 by lia.
    rewrite Nat.sub_0_r. apply hexFixed_zero.
  - destruct k as [|k]; [lia|]. cbn [hexFixed Nat.sub].
    apply IH; [|lia].
    rewrite Nat2Z.inj_succ, Z.pow_succ_r in Hn by lia.
    split; [apply Z.div_pos; lia | apply Z.div_lt_upper_bound; lia].
Qed.

Lemma toString16_fuel (n : Z) :
  0 <= n -> n < 16 ^ Z.of_nat (S (Z.to_nat (Z.log2 n))).
Proof.
  intros H. pose proof (Z.log2_nonneg n) as L.
  rewrite Nat2Z.inj_succ, Z2Nat.id by exact L.
  destruct (Z.eq_dec n 0) as [-> | N]; [reflexivity|].
  destruct (Z.log2_spec n ltac:(lia)) as [_ U].
  apply Z.lt_le_trans with (1 := U).
  apply Z.pow_le_mono_l. lia.
Qed.

(** A 32-bit word renders as eight upper-case digits. *)
Lemma padStart_toString16 (id : Z) :
  0 <= id < 2 ^ 32 ->
  padStart (toUpperCase (toString16 id)) 8 "0"
  = hexFixed upperHexDigit 8 id EmptyString.
Proof.
  intros [H0 H1]. unfold toString16.
  destruct (Z.ltb_spec id 0); [lia|].
  destruct (toString16_digits_hexFixed (S (Z.to_nat (Z.log2 id))) id EmptyString
              (conj H0 (toString16_fuel id H0)) ltac:(lia))
    as (j & Hj & Hlt & Hge & Heq).
  rewrite Heq, toUpperCase_hexFixed. cbn [toUpperCase].
  assert (J : (j <= 8)%nat).
  { destruct Hge as [-> | Hge]; [lia|].
    assert (P : 16 ^ (Z.of_nat j - 1) < 16 ^ 8)
      by (change (16 ^ 8) with (2 ^ 32); lia).
    apply Z.pow_lt_mono_r_iff in P; lia. }
  unfold padStart. rewrite length_hexFixed. cbn [String.length].
  rewrite Nat.add_0_r. symmetry. apply hexFixed_pad; [lia | exact J].
Qed.

(** The digits of [hexFixed] are upper-case hexadecimal digits, and they
    denote the number. *)
Lemma hexFixed8_digits (id : Z) :
  0 <= id < 2 ^ 32 ->
  String.length (hexFixed upperHexDigit 8 id EmptyString) = 8%nat
  /\ forallb_string isUpperHex (hexFixed upperHexDigit 8 id EmptyString) = true
  /\ hexValue (hexFixed upperHexDigit 8 id EmptyString) 0 = id.
Proof.
  intros H. split; [apply length_hexFixed|].
  cbn [hexFixed forallb_string hexValue].
  rewrite !isUpperHex_upperHexDigit by apply mod16_range.
  rewrite !digitValue_upperHexDigit by apply mod16_range.
  split; [reflexivity|].
  change (2 ^ 32) with 4294967296 in H.
  Z.div_mod_to_equations. lia.
Qed.

(** ** Reference clock codes *)

Lemma charCode_range (c : ascii) : 0 <= charCode c < 256.
Proof.
  unfold charCode. pose proof (N_ascii_bounded c). lia.
Qed.

Lemma fromCharCode_charCode (c : ascii) : fromCharCode (charCode c) = c.
Proof.
  unfold fromCharCode, charCode. rewrite N2Z.id. apply ascii_N_embedding.
Qed.

Lemma decode_code_char (c : ascii) :
  isCodeChar c = true ->
  fromCharCode (Z.land (Z_of_byte (byte_of_Z (charCode c))) 127) = c
  /\ (charCode c =? 0) = false.
Proof.
  unfold isCodeChar. intros H. apply andb_true_iff in H. destruct H as [L U].
  apply Z.leb_le in L. apply Z.leb_le in U.
  rewrite Z_of_byte_of_Z, Z.mod_small by (pose proof (charCode_range c); lia).
  change 127 with (Z.ones 7). rewrite Z.land_ones by lia.
  rewrite Z.mod_small by (change (2 ^ 7) with 128; lia).
  split; [apply fromCharCode_charCode | apply Z.eqb_neq; lia].
Qed.

Ltac decode_code_chars :=
  repeat match goal with
    | H : isCodeChar ?c = true |- _ =>
        let D := fresh "D" in let N := fresh "N" in
        destruct (decode_code_char c H) as [D N]; rewrite ?D, ?N; clear H
    end.

(** Stratum 1: a code of up to four characters, stored with NUL padding,
    is rendered as the code. *)
Lemma formatReferenceId_code (code : string) :
  (String.length code <= 4)%nat ->
  forallb_string isCodeChar code = true ->
  formatReferenceId (referenceId_of_code code) 1 = inr code.
Proof.
  intros L A. unfold referenceId_of_code.
  rewrite formatReferenceId_stratum1 by apply word_range.
  destruct code as [|c1 [|c2 [|c3 [|c4 [|c5 rest]]]]];
    cbn [String.length] in L; try lia;
    cbn [forallb_string] in A;
    repeat (apply andb_true_iff in A; let H := fresh "H" in destruct A as [H A]);
    cbn [list_ascii_of_string map app alloc repeat firstn];
    match goal with
    | |- context [word ?bs 0] =>
        rewrite (bytes_of_word_slice bs 0) by (cbn [List.length]; lia)
    end;
    cbn [slice Nat.sub Nat.add skipn firstn toString_ascii map
           string_of_list_ascii];
    change (fromCharCode (Z.land (Z_of_byte x00) 127)) with Ascii.zero;
    cbn [replace_nul];
    change (charCode Ascii.zero =? 0) with true; cbv iota;
    decode_code_chars; reflexivity.
Qed.

(** ** The length check of [parsePacket] *)

(** C2: a buffer of 47 bytes or less makes [parsePacket] throw the error
    of a malformed packet, and nothing else; a buffer of 48 bytes or more
    passes the check, and [parsePacket] returns a packet: no exception at
    all is raised. *)
Theorem parsePacket_length_check
    (toISOString toLocalString : Date -> string) (buffer : Buffer) :
  ((List.length buffer <= 47)%nat ->
   parsePacket toISOString toLocalString buffer = inl MalformedPacket)
  /\ ((48 <= List.length buffer)%nat ->
      exists packet,
        parsePacket toISOString toLocalString buffer = inr packet).
Proof.
  split; intros H.
  - apply parsePacket_short. lia.
  - exists (packet_at toISOString toLocalString buffer).
    apply parsePacket_returns. exact H.
Qed.

Lemma parsePacket_length_check_witness :
  (List.length (firstn 47 sample_response) <= 47)%nat
  /\ parsePacket decimalDate decimalDate (firstn 47 sample_response)
     = inl MalformedPacket
  /\ (48 <= List.length sample_response)%nat
  /\ exists packet,
      parsePacket decimalDate decimalDate sample_response = inr packet.
Proof.
  split; [cbn; lia|].
  split;
    [apply (parsePacket_length_check decimalDate decimalDate
              (firstn 47 sample_response)); cbn; lia|].
  split; [cbn; lia|].
  apply (parsePacket_length_check decimalDate decimalDate sample_response).
  cbn; lia.
Defined.

Example parsePacket_47_bytes :
  parsePacket decimalDate decimalDate (firstn 47 sample_response)
  = inl (Error "Invalid NTP packet: minimum 48 bytes required").
Proof. reflexivity. Qed.

Example parsePacket_empty :
  parsePacket decimalDate decimalDate [] = inl MalformedPacket.
Proof. reflexivity. Qed.

(** ** The conversion of the seconds *)

Lemma readUInt32BE_inr (buffer : Buffer) (offset : nat) (value : Z) :
  readUInt32BE buffer offset = inr value ->
  (offset + 4 <= List.length buffer)%nat /\ value = word buffer offset.
Proof.
  intros H.
  destruct (Nat.le_gt_cases (offset + 4) (List.length buffer)) as [L | L].
  - rewrite readUInt32BE_word in H by exact L. split; [exact L | congruence].
  - rewrite readUInt32BE_throws in H by exact L. discriminate.
Qed.

(** Whenever [parseNTPTimestamp] returns, it returns [timestamp_at]. *)
Lemma parseNTPTimestamp_inr
    (toISOString toLocalString : Date -> string)
    (buffer : Buffer) (offset : nat) (ts : ParsedNTPTimestamp) :
  parseNTPTimestamp toISOString toLocalString buffer offset = inr ts ->
  (offset + 8 <= List.length buffer)%nat
  /\ ts = timestamp_at toISOString toLocalString buffer offset.
Proof.
  intros H.
  destruct (Nat.le_gt_cases (offset + 8) (List.length buffer)) as [L | L].
  - rewrite parseNTPTimestamp_returns in H by exact L.
    split; [exact L | congruence].
  - exfalso. unfold parseNTPTimestamp in H.
    destruct (readUInt32BE buffer offset) as [e | s] eqn:E; [discriminate|].
    rewrite readUInt32BE_throws in H by lia. discriminate.
Qed.

(** The Unix seconds of every timestamp are an integer that binary64
    holds exactly. *)
Lemma unixSeconds_safe (seconds : Z) :
  0 <= seconds < 2 ^ 32 ->
  - 2 ^ 53 < seconds - NTP_EPOCH_OFFSET < 2 ^ 53.
Proof. unfold NTP_EPOCH_OFFSET. lia. Qed.

(** The subtraction [seconds - NTP_EPOCH_OFFSET] of binary64 does not
    round: it gives the difference of the integers. *)
Lemma fsub_seconds_exact (seconds : Z) :
  0 <= seconds < 2 ^ 32 ->
  (fsub (inject_Z seconds) (inject_Z NTP_EPOCH_OFFSET)
   == inject_Z (seconds - NTP_EPOCH_OFFSET))%Q.
Proof.
  intros H. unfold fsub.
  assert (E : (inject_Z seconds - inject_Z NTP_EPOCH_OFFSET
               == inject_Z (seconds - NTP_EPOCH_OFFSET))%Q)
    by (unfold Z.sub; rewrite inject_Z_plus, inject_Z_opp; reflexivity).
  apply Qeq_trans with (2 := E).
  apply (round64_exact _ (seconds - NTP_EPOCH_OFFSET) 0).
  - rewrite E. change (pow2 0) with 1%Q. ring.
  - pose proof (unixSeconds_safe seconds H). lia.
  - lia.
Qed.

(** C4: the raw seconds of a parsed timestamp are the unsigned 32-bit word
    read at its offset, and its Unix seconds are the raw seconds minus
    2208988800: an integer of magnitude below 2^53, which the subtraction of
    binary64 gives without rounding. *)
Theorem unix_seconds_exact
    (toISOString toLocalString : Date -> string)
    (buffer : Buffer) (offset : nat) (ts : ParsedNTPTimestamp) :
  parseNTPTimestamp toISOString toLocalString buffer offset = inr ts ->
  readUInt32BE buffer offset = inr (Raw.seconds (raw ts))
  /\ 0 <= Raw.seconds (raw ts) < 2 ^ 32
  /\ Unix.seconds (unix ts) = Raw.seconds (raw ts) - 2208988800
  /\ - 2 ^ 53 < Unix.seconds (unix ts) < 2 ^ 53
  /\ (fsub (inject_Z (Raw.seconds (raw ts))) (inject_Z 2208988800)
      == inject_Z (Unix.seconds (unix ts)))%Q.
Proof.
  intros H. apply parseNTPTimestamp_inr in H. destruct H as [L ->].
  cbn [timestamp_at raw unix Raw.seconds Unix.seconds].
  split; [apply readUInt32BE_word; lia|].
  split; [apply word_range|].
  split; [reflexivity|].
  split; [apply unixSeconds_safe, word_range|].
  apply fsub_seconds_exact, word_range.
Qed.

(** Every unsigned 32-bit value is the raw seconds of some timestamp. *)
Lemma raw_seconds_onto (toISOString toLocalString : Date -> string) (seconds : Z) :
  0 <= seconds < 2 ^ 32 ->
  exists buffer ts,
    parseNTPTimestamp toISOString toLocalString buffer 0 = inr ts
    /\ Raw.seconds (raw ts) = seconds.
Proof.
  intros H. exists (bytes_of_word seconds ++ alloc 4).
  eexists. split.
  - apply parseNTPTimestamp_returns. cbn. lia.
  - cbn [timestamp_at raw Raw.seconds].
    unfold word, index, bytes_of_word.
    cbn [nth_error app Nat.add]. rewrite !Z_of_byte_of_Z.
    change (2 ^ 32) with 4294967296 in H.
    change (2 ^ 24) with 16777216; change (2 ^ 16) with 65536;
      change (2 ^ 8) with 256.
    Z.div_mod_to_equations. lia.
Qed.

Lemma unix_seconds_exact_witness :
  parseNTPTimestamp decimalDate decimalDate sample_response 40
  = inr (timestamp_at decimalDate decimalDate sample_response 40)
  /\ readUInt32BE sample_response 40 = inr 3941293620
  /\ 0 <= 3941293620 < 2 ^ 32
  /\ 1732304820 = 3941293620 - 2208988800
  /\ - 2 ^ 53 < 1732304820 < 2 ^ 53
  /\ (fsub (inject_Z 3941293620) (inject_Z 2208988800)
      == inject_Z 1732304820)%Q.
Proof.
  assert (H : parseNTPTimestamp decimalDate decimalDate sample_response 40
              = inr (timestamp_at decimalDate decimalDate sample_response 40))
    by (vm_compute; reflexivity).
  split; [exact H|].
  exact (unix_seconds_exact decimalDate decimalDate sample_response 40
           (timestamp_at decimalDate decimalDate sample_response 40) H).
Defined.

(** ** Round trip of the timestamp fields *)

Lemma encodeTimestamp_words (seconds fraction : Z) :
  0 <= seconds < 2 ^ 32 -> 0 <= fraction < 2 ^ 32 ->
  encodeTimestamp (Raw.mk seconds fraction)
  = inr (bytes_of_word seconds ++ bytes_of_word fraction).
Proof.
  intros [S0 S1] [F0 F1]. unfold encodeTimestamp, writeUInt32BE.
  cbn [Raw.seconds Raw.fraction].
  destruct (Z.leb_spec 0 seconds); [|lia].
  destruct (Z.ltb_spec seconds (2 ^ 32)); [|lia].
  destruct (Z.leb_spec 0 fraction); [|lia].
  destruct (Z.ltb_spec fraction (2 ^ 32)); [|lia].
  reflexivity.
Qed.

Lemma firstn_plus {A : Type} (m n : nat) :
  forall l : list A,
    firstn (m + n) l = (firstn m l ++ firstn n (skipn m l))%list.
Proof.
  induction m as [|m IH]; intros l; [reflexivity|].
  destruct l as [|x l]; cbn [Nat.add firstn skipn app].
  - rewrite firstn_nil. reflexivity.
  - rewrite IH. reflexivity.
Qed.

Lemma slice_app (buffer : Buffer) (a b c : nat) :
  (a <= b)%nat -> (b <= c)%nat ->
  (slice buffer a b ++ slice buffer b c = slice buffer a c)%list.
Proof.
  intros Hab Hbc. unfold slice.
  replace (c - a)%nat with ((b - a) + (c - b))%nat by lia.
  rewrite firstn_plus, skipn_skipn.
  replace (b - a + a)%nat with b by lia. reflexivity.
Qed.

(** Encoding the raw words of the timestamp at [offset] gives back the
    eight bytes at [offset]. *)
Lemma encodeTimestamp_timestamp_at
    (toISOString toLocalString : Date -> string)
    (buffer : Buffer) (offset : nat) :
  (offset + 8 <= List.length buffer)%nat ->
  encodeTimestamp (raw (timestamp_at toISOString toLocalString buffer offset))
  = inr (slice buffer offset (offset + 8)).
Proof.
  intros H. cbn [timestamp_at raw].
  rewrite encodeTimestamp_words by apply word_range.
  rewrite !bytes_of_word_slice by lia.
  replace (offset + 4 + 4)%nat with (offset + 8)%nat by lia.
  rewrite slice_app by lia. reflexivity.
Qed.

(** C8: a buffer of 48 bytes or more parses to a packet, and encoding the
    raw seconds and fraction of each of its four timestamps as two
    big-endian 32-bit words gives the bytes 16-23, 24-31, 32-39 and 40-47
    of the buffer. *)
Theorem timestamps_roundtrip
    (toISOString toLocalString : Date -> string) (buffer : Buffer) :
  (48 <= List.length buffer)%nat ->
  exists packet,
    parsePacket toISOString toLocalString buffer = inr packet
    /\ encodeTimestamp (raw (reference (timestamps packet)))
       = inr (slice buffer 16 24)
    /\ encodeTimestamp (raw (originate (timestamps packet)))
       = inr (slice buffer 24 32)
    /\ encodeTimestamp (raw (receive (timestamps packet)))
       = inr (slice buffer 32 40)
    /\ encodeTimestamp (raw (transmit (timestamps packet)))
       = inr (slice buffer 40 48).
Proof.
  intros H. exists (packet_at toISOString toLocalString buffer).
  split; [apply parsePacket_returns; exact H|].
  cbn [packet_at timestamps reference originate receive transmit].
  repeat split;
    apply (encodeTimestamp_timestamp_at toISOString toLocalString buffer);
    lia.
Qed.

Lemma timestamps_roundtrip_witness :
  (48 <= List.length sample_response)%nat
  /\ exists packet,
      parsePacket decimalDate decimalDate sample_response = inr packet
      /\ encodeTimestamp (raw (reference (timestamps packet)))
         = inr [xea; xeb; x5e; x33; x00; x00; x00; x00]
      /\ encodeTimestamp (raw (originate (timestamps packet)))
         = inr [x00; x00; x00; x00; x00; x00; x00; x00]
      /\ encodeTimestamp (raw (receive (timestamps packet)))
         = inr [xea; xeb; x5e; x33; x80; x00; x00; x00]
      /\ encodeTimestamp (raw (transmit (timestamps packet)))
         = inr [xea; xeb; x5e; x34; xff; xff; xff; xff].
Proof.
  split; [cbn; lia|].
  apply (timestamps_roundtrip decimalDate decimalDate sample_response).
  cbn; lia.
Defined.

(** ** Independence of the trailing bytes *)

(** C10: two buffers of 48 bytes or more that agree on their first 48
    bytes parse to the same packet; bytes beyond the 48th are ignored. *)
Theorem parsePacket_first_48_bytes
    (toISOString toLocalString : Date -> string) (buffer1 buffer2 : Buffer) :
  (48 <= List.length buffer1)%nat ->
  (48 <= List.length buffer2)%nat ->
  firstn 48 buffer1 = firstn 48 buffer2 ->
  parsePacket toISOString toLocalString buffer1
  = parsePacket toISOString toLocalString buffer2
  /\ exists packet,
      parsePacket toISOString toLocalString buffer1 = inr packet.
Proof.
  intros H1 H2 E.
  rewrite !parsePacket_returns by assumption.
  rewrite <- (packet_at_firstn _ _ buffer1), <- (packet_at_firstn _ _ buffer2), E.
  split; [reflexivity | eexists; reflexivity].
Qed.

Lemma parsePacket_first_48_bytes_witness :
  parsePacket decimalDate decimalDate (sample_response ++ [x01; x02; x03])
  = parsePacket decimalDate decimalDate (sample_response ++ [xff])
  /\ exists packet,
      parsePacket decimalDate decimalDate (sample_response ++ [x01; x02; x03])
      = inr packet.
Proof.
  apply parsePacket_first_48_bytes; [cbn; lia | cbn; lia | reflexivity].
Defined.

(** ** Fractional milliseconds *)

(** C9, as amended: the fraction of a parsed timestamp is the unsigned
    32-bit word read after its seconds, and its fractional milliseconds are
    fraction / 2^32 * 1000 exactly (neither operation rounds), at least 0
    and below 1000; fraction 0 gives 0 ms, fraction 0x80000000 gives 500 ms,
    and fraction 0xFFFFFFFF gives 1000 - 1000/2^32 ms, which lies between
    999.9999997 and 999.9999998. *)
Theorem fractional_milliseconds
    (toISOString toLocalString : Date -> string)
    (buffer : Buffer) (offset : nat) (ts : ParsedNTPTimestamp) :
  parseNTPTimestamp toISOString toLocalString buffer offset = inr ts ->
  let fraction := Raw.fraction (raw ts) in
  let ms := Unix.milliseconds (unix ts) in
  readUInt32BE buffer (offset + 4) = inr fraction
  /\ 0 <= fraction < 2 ^ 32
  /\ (ms == inject_Z fraction / inject_Z (2 ^ 32) * 1000)%Q
  /\ (0 <= ms)%Q /\ (ms < 1000)%Q
  /\ (fraction = 0 -> (ms == 0)%Q)
  /\ (fraction = 2147483648 -> (ms == 500)%Q)
  /\ (fraction = 4294967295 ->
      (ms == 1000 - 1000 / inject_Z (2 ^ 32))%Q
      /\ (9999999997 # 10000000 < ms)%Q /\ (ms < 9999999998 # 10000000)%Q).
Proof.
  intros H. apply parseNTPTimestamp_inr in H. destruct H as [L ->].
  cbn [timestamp_at raw unix Raw.fraction Unix.milliseconds].
  pose proof (word_range buffer (offset + 4)) as R.
  pose proof (milliseconds_of_exact _ R) as E.
  change (inject_Z (2 ^ 32)) with 4294967296%Q.
  split; [apply readUInt32BE_word; lia|].
  split; [exact R|].
  split; [exact E|].
  split; [apply milliseconds_of_range; exact R|].
  split; [apply milliseconds_of_range; exact R|].
  split; [intros F; rewrite E, F; reflexivity|].
  split; [intros F; rewrite E, F; reflexivity|].
  intros F. rewrite E, F. repeat split.
Qed.

Lemma fractional_milliseconds_witness :
  parseNTPTimestamp decimalDate decimalDate sample_response 32
  = inr (timestamp_at decimalDate decimalDate sample_response 32)
  /\ (Unix.milliseconds
        (unix (timestamp_at decimalDate decimalDate sample_response 32))
      == 500)%Q.
Proof.
  split; [vm_compute; reflexivity|].
  apply (fractional_milliseconds decimalDate decimalDate sample_response 32
           (timestamp_at decimalDate decimalDate sample_response 32));
    vm_compute; reflexivity.
Defined.

(** C9, as stated, at fraction 0xFFFFFFFF: the transmit timestamp of
    [sample_response] has that fraction, and its milliseconds are farther
    than 0.0001 from 999.9998. *)
Lemma milliseconds_ffffffff_not_9999998 :
  exists packet,
    parsePacket decimalDate decimalDate sample_response = inr packet
    /\ Raw.fraction (raw (transmit (timestamps packet))) = 4294967295
    /\ ~ (Qabs (Unix.milliseconds (unix (transmit (timestamps packet)))
                - (9999998 # 10000))
          <= 1 # 10000)%Q.
Proof.
  eexists. split; [vm_compute; reflexivity|]. split; [reflexivity|].
  intros H. apply Qle_bool_iff in H. vm_compute in H. discriminate.
Qed.

(** ** Round-trip delay and clock offset *)

(** A clock reading below [2^41] ms, in seconds. *)
Lemma clock_seconds_bound (T : Z) :
  Z.abs T < 2 ^ 41 -> (Qabs (inject_Z T / 1000) <= 2199023256)%Q.
Proof.
  intros H.
  assert (L : (-2199023255552 <= inject_Z T)%Q)
    by (change (-2199023255552)%Q with (inject_Z (-2199023255552));
        rewrite <- Zle_Qle; lia).
  assert (U : (inject_Z T <= 2199023255552)%Q)
    by (change (2199023255552)%Q with (inject_Z (2199023255552));
        rewrite <- Zle_Qle; lia).
  set (c := inject_Z T) in *. clearbody c.
  setoid_replace (c / 1000)%Q with (c * (1 # 1000))%Q by field.
  apply Qabs_Qle_condition. split; lra.
Qed.

(** A timestamp of the parser, in seconds. *)
Lemma timestamp_seconds_bound (seconds fraction : Z) :
  0 <= seconds < 2 ^ 32 -> 0 <= fraction < 2 ^ 32 ->
  (Qabs (milliseconds_of fraction / 1000) <= 1)%Q
  /\ (Qabs (inject_Z (seconds - NTP_EPOCH_OFFSET)
            + milliseconds_of fraction / 1000) <= 2208988800)%Q.
Proof.
  intros Hs Hf. destruct (milliseconds_of_range fraction Hf) as [M0 M1].
  set (ms := milliseconds_of fraction) in *. clearbody ms.
  assert (L : (-2208988800 <= inject_Z (seconds - NTP_EPOCH_OFFSET))%Q)
    by (change (-2208988800)%Q with (inject_Z (-2208988800));
        rewrite <- Zle_Qle; unfold NTP_EPOCH_OFFSET; lia).
  assert (U : (inject_Z (seconds - NTP_EPOCH_OFFSET) <= 2085978495)%Q)
    by (change (2085978495)%Q with (inject_Z (2085978495));
        rewrite <- Zle_Qle; unfold NTP_EPOCH_OFFSET; lia).
  set (s := inject_Z (seconds - NTP_EPOCH_OFFSET)) in *. clearbody s.
  setoid_replace (ms / 1000)%Q with (ms * (1 # 1000))%Q by field.
  split; apply Qabs_Qle_condition; split; lra.
Qed.

Lemma Qabs_self (x : Q) : (Qabs (x - x) <= 0)%Q.
Proof.
  setoid_replace (x - x)%Q with 0%Q by ring. discriminate.
Qed.

(** For a packet of the parser and clock readings of magnitude below
    [2^41] ms, the delay and the offset of [calculateMetrics] are within
    [2^-18] s, less than four microseconds, of the exact values of the
    formulas. *)
Lemma calculateMetrics_accuracy
    (toISOString toLocalString : Date -> string)
    (buffer : Buffer) (parsed : ParsedNTPPacket) (T1 T4 : Date) :
  parsePacket toISOString toLocalString buffer = inr parsed ->
  Z.abs T1 < 2 ^ 41 -> Z.abs T4 < 2 ^ 41 ->
  let rx := unix (receive (timestamps parsed)) in
  let tx := unix (transmit (timestamps parsed)) in
  let t1 := (inject_Z T1 / 1000)%Q in
  let t2 := (inject_Z (Unix.seconds rx) + Unix.milliseconds rx / 1000)%Q in
  let t3 := (inject_Z (Unix.seconds tx) + Unix.milliseconds tx / 1000)%Q in
  let t4 := (inject_Z T4 / 1000)%Q in
  let m := calculateMetrics parsed T1 T4 in
  (Qabs (Metrics.roundTripDelay m - ((t4 - t1) - (t3 - t2))) <= 1 # 262144)%Q
  /\ (Qabs (Metrics.clockOffset m - ((t2 - t1) + (t3 - t4)) / 2)
      <= 1 # 262144)%Q.
Proof.
  intros P H1 H4. apply parsePacket_inr in P. destruct P as [_ ->].
  cbv zeta. unfold calculateMetrics, getTime.
  cbn [packet_at timestamps receive transmit timestamp_at unix
       Unix.seconds Unix.milliseconds Metrics.roundTripDelay
       Metrics.clockOffset].
  destruct (timestamp_seconds_bound _ _ (word_range buffer 32)
              (word_range buffer (32 + 4))) as [Bm2 Bt2].
  destruct (timestamp_seconds_bound _ _ (word_range buffer 40)
              (word_range buffer (40 + 4))) as [Bm3 Bt3].
  pose proof (clock_seconds_bound T1 H1) as Bt1.
  pose proof (clock_seconds_bound T4 H4) as Bt4.
  set (ms2 := milliseconds_of (word buffer (32 + 4))) in *.
  set (ms3 := milliseconds_of (word buffer (40 + 4))) in *.
  set (s2 := inject_Z (word buffer 32 - NTP_EPOCH_OFFSET)) in *.
  set (s3 := inject_Z (word buffer 40 - NTP_EPOCH_OFFSET)) in *.
  set (c1 := inject_Z T1) in *. set (c4 := inject_Z T4) in *.
  clearbody ms2 ms3 s2 s3 c1 c4.
  unfold fadd, fsub, fdiv.
  (* the four times, in seconds *)
  pose proof (round64_close _ _ _ _ 32 ltac:(lia) (Qabs_self (c1 / 1000)) Bt1
                ltac:(reflexivity)) as E1.
  pose proof (round64_close _ _ _ _ 32 ltac:(lia) (Qabs_self (c4 / 1000)) Bt4
                ltac:(reflexivity)) as E4.
  pose proof (round64_close _ _ _ _ 1 ltac:(lia) (Qabs_self (ms2 / 1000)) Bm2
                ltac:(reflexivity)) as F2.
  pose proof (round64_close _ _ _ _ 1 ltac:(lia) (Qabs_self (ms3 / 1000)) Bm3
                ltac:(reflexivity)) as F3.
  pose proof (round64_close _ _ _ _ 32 ltac:(lia)
                (Qabs_add_le _ _ _ _ _ _ (Qabs_self s2) F2) Bt2
                ltac:(reflexivity)) as E2.
  pose proof (round64_close _ _ _ _ 32 ltac:(lia)
                (Qabs_add_le _ _ _ _ _ _ (Qabs_self s3) F3) Bt3
                ltac:(reflexivity)) as E3.
  set (r1 := round64 (c1 / 1000)) in *.
  set (r4 := round64 (c4 / 1000)) in *.
  set (r2 := round64 (s2 + round64 (ms2 / 1000))) in *.
  set (r3 := round64 (s3 + round64 (ms3 / 1000))) in *.
  clearbody r1 r2 r3 r4. clear F2 F3 Bm2 Bm3.
  split.
  - pose proof (round64_close _ _ _ _ 33 ltac:(lia)
                  (Qabs_sub_le _ _ _ _ _ _ E4 E1) (Qabs_bound_sub _ _ _ _ Bt4 Bt1)
                  ltac:(reflexivity)) as D41.
    pose proof (round64_close _ _ _ _ 33 ltac:(lia)
                  (Qabs_sub_le _ _ _ _ _ _ E3 E2) (Qabs_bound_sub _ _ _ _ Bt3 Bt2)
                  ltac:(reflexivity)) as D32.
    pose proof (round64_close _ _ _ _ 34 ltac:(lia)
                  (Qabs_sub_le _ _ _ _ _ _ D41 D32)
                  (Qabs_bound_sub _ _ _ _ (Qabs_bound_sub _ _ _ _ Bt4 Bt1)
                     (Qabs_bound_sub _ _ _ _ Bt3 Bt2))
                  ltac:(reflexivity)) as D.
    eapply Qle_trans; [exact D | discriminate].
  - pose proof (round64_close _ _ _ _ 33 ltac:(lia)
                  (Qabs_sub_le _ _ _ _ _ _ E2 E1) (Qabs_bound_sub _ _ _ _ Bt2 Bt1)
                  ltac:(reflexivity)) as D21.
    pose proof (round64_close _ _ _ _ 33 ltac:(lia)
                  (Qabs_sub_le _ _ _ _ _ _ E3 E4) (Qabs_bound_sub _ _ _ _ Bt3 Bt4)
                  ltac:(reflexivity)) as D34.
    pose proof (round64_close _ _ _ _ 34 ltac:(lia)
                  (Qabs_add_le _ _ _ _ _ _ D21 D34)
                  (Qabs_bound_add _ _ _ _ (Qabs_bound_sub _ _ _ _ Bt2 Bt1)
                     (Qabs_bound_sub _ _ _ _ Bt3 Bt4))
                  ltac:(reflexivity)) as S.
    pose proof (round64_close _ _ _ _ 33 ltac:(lia)
                  (Qabs_half_le _ _ _ S)
                  (Qabs_bound_half _ _
                     (Qabs_bound_add _ _ _ _ (Qabs_bound_sub _ _ _ _ Bt2 Bt1)
                        (Qabs_bound_sub _ _ _ _ Bt3 Bt4)))
                  ltac:(reflexivity)) as O.
    eapply Qle_trans; [exact O | discriminate].
Qed.

(** C1, as amended: for every packet and every pair of clock readings T1
    and T4, [calculateMetrics] returns the delay (T4 - T1) - (T3 - T2) and
    the offset ((T2 - T1) + (T3 - T4)) / 2, every operation being that of
    binary64, with T2 and T3 the receive and transmit timestamps as
    fractional seconds (Unix seconds plus milliseconds / 1000) and T1, T4
    the readings in seconds.  For a packet of the parser and readings of
    magnitude below 2^41 ms these are within 2^-18 s of the exact values of
    the formulas.  For T1 = 1000.000 s, T2 = T3 = 1000.100 s and
    T4 = 1000.250 s the delay is 0.250 s and the offset is -0.025 s, to
    within 10^-12 s. *)
Theorem calculateMetrics_delay_offset :
  (forall (parsed : ParsedNTPPacket) (T1 T4 : Date),
      let t1 := fdiv (inject_Z T1) 1000 in
      let t2 :=
        fadd (inject_Z (Unix.seconds (unix (receive (timestamps parsed)))))
             (fdiv (Unix.milliseconds (unix (receive (timestamps parsed))))
                   1000) in
      let t3 :=
        fadd (inject_Z (Unix.seconds (unix (transmit (timestamps parsed)))))
             (fdiv (Unix.milliseconds (unix (transmit (timestamps parsed))))
                   1000) in
      let t4 := fdiv (inject_Z T4) 1000 in
      let m := calculateMetrics parsed T1 T4 in
      Metrics.roundTripDelay m = fsub (fsub t4 t1) (fsub t3 t2)
      /\ Metrics.clockOffset m = fdiv (fadd (fsub t2 t1) (fsub t3 t4)) 2
      /\ Metrics.roundTripDelayMs m = fmul (Metrics.roundTripDelay m) 1000
      /\ Metrics.clockOffsetMs m = fmul (Metrics.clockOffset m) 1000)
  /\ (forall toISOString toLocalString buffer parsed (T1 T4 : Date),
         parsePacket toISOString toLocalString buffer = inr parsed ->
         Z.abs T1 < 2 ^ 41 -> Z.abs T4 < 2 ^ 41 ->
         let rx := unix (receive (timestamps parsed)) in
         let tx := unix (transmit (timestamps parsed)) in
         let t1 := (inject_Z T1 / 1000)%Q in
         let t2 := (inject_Z (Unix.seconds rx) + Unix.milliseconds rx / 1000)%Q in
         let t3 := (inject_Z (Unix.seconds tx) + Unix.milliseconds tx / 1000)%Q in
         let t4 := (inject_Z T4 / 1000)%Q in
         let m := calculateMetrics parsed T1 T4 in
         (Qabs (Metrics.roundTripDelay m - ((t4 - t1) - (t3 - t2)))
          <= 1 # 262144)%Q
         /\ (Qabs (Metrics.clockOffset m - ((t2 - t1) + (t3 - t4)) / 2)
             <= 1 # 262144)%Q)
  /\ (let m := calculateMetrics example_packet 1000000 1000250 in
      fdiv (inject_Z 1000000) 1000 = 1000%Q
      /\ fadd (inject_Z 1000) (fdiv 100 1000) = round64 (10001 # 10)
      /\ fdiv (inject_Z 1000250) 1000 = (4001 # 4)%Q
      /\ Metrics.roundTripDelay m = (1 # 4)%Q
      /\ (Qabs (Metrics.clockOffset m - - (1 # 40)) < 1 # 1000000000000)%Q).
Proof.
  split; [|split].
  - intros parsed T1 T4. cbv zeta. repeat split.
  - exact calculateMetrics_accuracy.
  - cbv zeta. repeat split; vm_compute; reflexivity.
Qed.

Lemma calculateMetrics_delay_offset_witness :
  let parsed := packet_at decimalDate decimalDate sample_response in
  let T1 := 1732304819000 in
  let T4 := 1732304819990 in
  let rx := unix (receive (timestamps parsed)) in
  let tx := unix (transmit (timestamps parsed)) in
  let t1 := (inject_Z T1 / 1000)%Q in
  let t2 := (inject_Z (Unix.seconds rx) + Unix.milliseconds rx / 1000)%Q in
  let t3 := (inject_Z (Unix.seconds tx) + Unix.milliseconds tx / 1000)%Q in
  let t4 := (inject_Z T4 / 1000)%Q in
  let m := calculateMetrics parsed T1 T4 in
  parsePacket decimalDate decimalDate sample_response = inr parsed
  /\ Z.abs T1 < 2 ^ 41 /\ Z.abs T4 < 2 ^ 41
  /\ (Qabs (Metrics.roundTripDelay m - ((t4 - t1) - (t3 - t2)))
      <= 1 # 262144)%Q
  /\ (Qabs (Metrics.clockOffset m - ((t2 - t1) + (t3 - t4)) / 2)
      <= 1 # 262144)%Q.
Proof.
  cbv zeta.
  assert (P : parsePacket decimalDate decimalDate sample_response
              = inr (packet_at decimalDate decimalDate sample_response))
    by (vm_compute; reflexivity).
  split; [exact P|]. split; [reflexivity|]. split; [reflexivity|].
  exact (proj1 (proj2 calculateMetrics_delay_offset)
           decimalDate decimalDate sample_response _
           1732304819000 1732304819990 P eq_refl eq_refl).
Defined.

(** C1, as stated, at its example: with T1 = 1000.000 s, T2 = T3 the
    binary64 number nearest 1000.100 s and T4 = 1000.250 s, the delay is
    not 0.150 s and the offset is not 0.075 s, by far. *)
Lemma calculateMetrics_example_not_150_75 :
  let rx := unix (receive (timestamps example_packet)) in
  let tx := unix (transmit (timestamps example_packet)) in
  let m := calculateMetrics example_packet 1000000 1000250 in
  fdiv (inject_Z 1000000) 1000 = 1000%Q
  /\ fadd (inject_Z (Unix.seconds rx)) (fdiv (Unix.milliseconds rx) 1000)
     = round64 (10001 # 10)
  /\ fadd (inject_Z (Unix.seconds tx)) (fdiv (Unix.milliseconds tx) 1000)
     = round64 (10001 # 10)
  /\ fdiv (inject_Z 1000250) 1000 = (4001 # 4)%Q
  /\ ~ (Qabs (Metrics.roundTripDelay m - (150 # 1000)) <= 1 # 100)%Q
  /\ ~ (Qabs (Metrics.clockOffset m - (75 # 1000)) <= 1 # 100)%Q.
Proof.
  cbv zeta. repeat split; try (vm_compute; reflexivity);
    intros H; apply Qle_bool_iff in H; vm_compute in H; discriminate.
Qed.

(** ** The model of binary64 against the floats of the kernel *)


(** [round64] against the operations of the kernel: 0.1 + 0.2, 1 / 3,
    -2 / 3, two ties at [2^53], and two ties among the subnormal numbers. *)
Example round64_kernel_floats :
  Binary64.Q_of_float (0x1.999999999999ap-4 + 0x1.999999999999ap-3)%float
  = fadd (Binary64.Q_of_float 0x1.999999999999ap-4%float)
         (Binary64.Q_of_float 0x1.999999999999ap-3%float)
  /\ Binary64.Q_of_float (1 / 3)%float = fdiv 1 3
  /\ Binary64.Q_of_float (-2 / 3)%float = fdiv (-2) 3
  /\ Binary64.Q_of_float (0x1p+53 + 1)%float = fadd (pow2 53) 1
  /\ Binary64.Q_of_float (0x1p+53 + 3)%float = fadd (pow2 53) 3
  /\ Binary64.Q_of_float (0x1p-1074 / 2)%float = fdiv (pow2 (-1074)) 2
  /\ Binary64.Q_of_float (0x3p-1074 / 2)%float = fdiv (3 * pow2 (-1074)) 2.
Proof. repeat split; vm_compute; reflexivity. Qed.

Example milliseconds_00000000 :
  Binary64.Q_of_float (Binary64.milliseconds 0) = milliseconds_of 0.
Proof. vm_compute. reflexivity. Qed.

Example milliseconds_80000000 :
  Binary64.milliseconds 0x80000000 = 500%float
  /\ Binary64.Q_of_float (Binary64.milliseconds 0x80000000)
     = milliseconds_of 0x80000000.
Proof. split; vm_compute; reflexivity. Qed.

(** [0x1.f3fffffe0cp+9] is printed 999.99999976716936. *)
Example milliseconds_ffffffff :
  Binary64.milliseconds 0xFFFFFFFF = 0x1.f3fffffe0cp+9%float
  /\ Binary64.Q_of_float (Binary64.milliseconds 0xFFFFFFFF)
     = milliseconds_of 0xFFFFFFFF.
Proof. split; vm_compute; reflexivity. Qed.

(** The sum handed to [new Date] rounds: with the fraction 0xFFFFFFFF it
    is the next whole second. *)
Example time_ffffffff :
  Binary64.time 1732304820 (Binary64.milliseconds 0xFFFFFFFF)
  = 1732304821000%float
  /\ Binary64.Q_of_float
       (Binary64.time 1732304820 (Binary64.milliseconds 0xFFFFFFFF))
     = time_of (1732304820 + NTP_EPOCH_OFFSET) 0xFFFFFFFF.
Proof. split; vm_compute; reflexivity. Qed.

(** The example of the specification: the delay is 0.25, the offset is
    [-0x1.9999999998p-6], printed -0.024999999999977263. *)
Example calculateMetrics_example :
  Binary64.calculateMetrics 1000 100 1000 100 1000000 1000250
  = (0.25, -0x1.9999999998p-6)%float
  /\ Binary64.Q_of_float
       (fst (Binary64.calculateMetrics 1000 100 1000 100 1000000 1000250))
     = Metrics.roundTripDelay (calculateMetrics example_packet 1000000 1000250)
  /\ Binary64.Q_of_float
       (snd (Binary64.calculateMetrics 1000 100 1000 100 1000000 1000250))
     = Metrics.clockOffset (calculateMetrics example_packet 1000000 1000250).
Proof. repeat split; vm_compute; reflexivity. Qed.


(** ** The reference identifier of the header *)

(** The header of a parsed packet holds the stratum byte, and the string
    [formatReferenceId] gives for the word at bytes 12-15 and that
    stratum. *)
Lemma parsePacket_referenceId
    (toISOString toLocalString : Date -> string)
    (buffer : Buffer) (packet : ParsedNTPPacket) :
  parsePacket toISOString toLocalString buffer = inr packet ->
  stratum (header packet) = index buffer 1
  /\ formatReferenceId (word buffer 12) (stratum (header packet))
     = inr (referenceId (header packet)).
Proof.
  intros H.
  destruct (Nat.le_gt_cases 48 (List.length buffer)) as [L | L].
  - rewrite parsePacket_returns in H by exact L.
    injection H as <-. cbn [packet_at header stratum referenceId].
    split; [reflexivity|]. unfold referenceId_at.
    destruct (formatReferenceId_returns (word buffer 12) (index buffer 1)
                (word_range _ _)) as [s E].
    rewrite E. reflexivity.
  - rewrite parsePacket_short in H by exact L. discriminate.
Qed.

(** C5, as amended: a packet of stratum 0 decodes [header.referenceId] to
    the literal string "KISS", whatever its referenceId bytes spell; the
    kiss code ("DENY", "RSTR", "RATE") is not decoded. *)
Theorem stratum0_referenceId_is_KISS
    (toISOString toLocalString : Date -> string) (buffer : Buffer) :
  (48 <= List.length buffer)%nat ->
  index buffer 1 = 0 ->
  exists packet,
    parsePacket toISOString toLocalString buffer = inr packet
    /\ stratum (header packet) = 0
    /\ referenceId (header packet) = "KISS"%string.
Proof.
  intros L S. exists (packet_at toISOString toLocalString buffer).
  split; [apply parsePacket_returns; exact L|].
  cbn [packet_at header stratum referenceId]. split; [exact S|].
  unfold referenceId_at. rewrite S. reflexivity.
Qed.

Lemma stratum0_referenceId_is_KISS_witness :
  slice deny_response 12 16 = [x44; x45; x4e; x59]
  /\ exists packet,
      parsePacket decimalDate decimalDate deny_response = inr packet
      /\ stratum (header packet) = 0
      /\ referenceId (header packet) = "KISS"%string.
Proof.
  split; [reflexivity|].
  apply (stratum0_referenceId_is_KISS decimalDate decimalDate deny_response);
    [cbn; lia | reflexivity].
Defined.

(** C5, as stated: [deny_response] has stratum 0 and the referenceId bytes
    of "DENY", and its [header.referenceId] is not "DENY". *)
Lemma deny_referenceId_not_DENY :
  exists packet,
    parsePacket decimalDate decimalDate deny_response = inr packet
    /\ stratum (header packet) = 0
    /\ toString_ascii (slice deny_response 12 16) = "DENY"%string
    /\ referenceId (header packet) <> "DENY"%string.
Proof.
  eexists. split; [vm_compute; reflexivity|]. split; [reflexivity|].
  split; [reflexivity|]. cbn. discriminate.
Qed.

(** C6: the string of the reference identifier is chosen by the stratum.
    In the header of a parsed packet it is [formatReferenceId] of the word
    at bytes 12-15 and of the stratum byte.  For stratum 1 it is the four
    bytes of the identifier read as ASCII with the NUL characters deleted,
    so a code of up to four ASCII characters padded with NUL gives the code
    (0x47 0x50 0x53 0x00 gives "GPS").  For every stratum of 2 or more it is
    "0x" followed by exactly eight upper-case hexadecimal digits that
    denote the identifier (0xD8EF230C gives "0xD8EF230C"). *)
Theorem referenceId_by_stratum :
  (forall toISOString toLocalString buffer packet,
      parsePacket toISOString toLocalString buffer = inr packet ->
      stratum (header packet) = index buffer 1
      /\ formatReferenceId (word buffer 12) (stratum (header packet))
         = inr (referenceId (header packet)))
  /\ (forall id,
         0 <= id < 2 ^ 32 ->
         formatReferenceId id 1
         = inr (replace_nul (toString_ascii (bytes_of_word id))))
  /\ (forall code,
         (String.length code <= 4)%nat ->
         forallb_string isCodeChar code = true ->
         formatReferenceId (referenceId_of_code code) 1 = inr code)
  /\ formatReferenceId 0x47505300 1 = inr "GPS"%string
  /\ (forall id stratum,
         0 <= id < 2 ^ 32 -> 2 <= stratum ->
         exists digits,
           formatReferenceId id stratum = inr ("0x" ++ digits)%string
           /\ String.length digits = 8%nat
           /\ forallb_string isUpperHex digits = true
           /\ hexValue digits 0 = id)
  /\ formatReferenceId 0xD8EF230C 2 = inr "0xD8EF230C"%string.
Proof.
  split; [exact parsePacket_referenceId|].
  split; [exact formatReferenceId_stratum1|].
  split; [exact formatReferenceId_code|].
  split; [reflexivity|].
  split; [|reflexivity].
  intros id stratum Hid Hs.
  exists (hexFixed upperHexDigit 8 id EmptyString).
  rewrite formatReferenceId_stratum2 by exact Hs.
  rewrite padStart_toString16 by exact Hid.
  split; [reflexivity|]. apply hexFixed8_digits. exact Hid.
Qed.

Lemma referenceId_by_stratum_witness :
  formatReferenceId (referenceId_of_code "LOCL") 1 = inr "LOCL"%string
  /\ (exists digits,
         formatReferenceId 0x0000230C 15 = inr ("0x" ++ digits)%string
         /\ String.length digits = 8%nat
         /\ forallb_string isUpperHex digits = true
         /\ hexValue digits 0 = 0x0000230C).
Proof.
  destruct referenceId_by_stratum as (_ & _ & C & _ & H & _).
  split.
  - apply C; reflexivity.
  - apply H; lia.
Defined.

Example gps_response_referenceId :
  exists packet,
    parsePacket decimalDate decimalDate gps_response = inr packet
    /\ stratum (header packet) = 1
    /\ referenceId (header packet) = "GPS"%string.
Proof. eexists. split; [vm_compute; reflexivity|]. split; reflexivity. Qed.

Example sample_response_referenceId :
  exists packet,
    parsePacket decimalDate decimalDate sample_response = inr packet
    /\ stratum (header packet) = 2
    /\ referenceId (header packet) = "0xD8EF230C"%string.
Proof. eexists. split; [vm_compute; reflexivity|]. split; reflexivity. Qed.

(** ** The fallback loop of [query] *)

Section ClientFacts.

Variable toISOString : Date -> string.
Variable toLocalString : Date -> string.
Variable network : list string -> string -> Attempt.

(** An attempt that returns names the host it was sent to. *)
Lemma queryServer_usedServer
    (client : NTPClient) (server : string) (attempt : Attempt)
    (result : NTPQueryResult) :
  queryServer toISOString toLocalString client server attempt = inr result ->
  usedServer result = Some server.
Proof.
  unfold queryServer. intros H.
  destruct (createRequestPacket (sendClock attempt) (random attempt));
    [discriminate|]. cbn [bind] in H.
  destruct (event attempt); try discriminate.
  destruct (parsePacket toISOString toLocalString buffer0); [discriminate|].
  cbn [bind] in H. injection H as <-. reflexivity.
Qed.

Lemma all_fail_nil (client : NTPClient) (tried : list string) :
  all_fail toISOString toLocalString network client tried [].
Proof.
  intros before server after H. destruct before; discriminate.
Qed.

Lemma all_fail_cons (client : NTPClient) (tried : list string)
    (server : string) (rest : list string) (error : JsError) :
  queryServer toISOString toLocalString client server (network tried server)
  = inl error ->
  all_fail toISOString toLocalString network client (tried ++ [server]) rest ->
  all_fail toISOString toLocalString network client tried (server :: rest).
Proof.
  intros E A before s after H. destruct before as [|b before].
  - cbn in H. injection H as <- _. rewrite app_nil_r. exists error. exact E.
  - cbn in H. injection H as <- H.
    destruct (A before s after H) as [e He].
    rewrite <- app_assoc in He. exists e. exact He.
Qed.

(** The loop either stops at the first host that answers, after the
    failure of every host before it, or fails on every host and keeps the
    error of the last one. *)
Lemma query_loop_spec (client : NTPClient) :
  forall servers lastError tried,
    match query_loop toISOString toLocalString network client servers
            lastError tried with
    | (inl result, tried') =>
        exists before server after,
          servers = (before ++ server :: after)%list
          /\ tried' = (tried ++ before ++ [server])%list
          /\ all_fail toISOString toLocalString network client tried before
          /\ queryServer toISOString toLocalString client server
               (network (tried ++ before) server) = inr result
    | (inr last, tried') =>
        tried' = (tried ++ servers)%list
        /\ all_fail toISOString toLocalString network client tried servers
        /\ ((servers = [] /\ last = lastError)
            \/ exists before server error,
                servers = (before ++ [server])%list
                /\ queryServer toISOString toLocalString client server
                     (network (tried ++ before) server) = inl error
                /\ last = Some error)
    end.
Proof.
  induction servers as [|server rest IH]; intros lastError tried.
  - cbn [query_loop]. rewrite app_nil_r.
    split; [reflexivity|]. split; [apply all_fail_nil|]. left. split; reflexivity.
  - cbn [query_loop].
    destruct (queryServer toISOString toLocalString client server
                (network tried server)) as [error | result] eqn:E.
    + specialize (IH (Some error) (tried ++ [server])%list).
      destruct (query_loop toISOString toLocalString network client rest
                  (Some error) (tried ++ [server])) as [[result | last] tried'].
      * destruct IH as (before & s & after & -> & -> & A & Q).
        exists (server :: before), s, after.
        rewrite <- !app_assoc in *. cbn [app] in *.
        split; [reflexivity|]. split; [reflexivity|].
        split; [|exact Q].
        apply all_fail_cons with (error := error); assumption.
      * destruct IH as (-> & A & L).
        rewrite <- app_assoc. cbn [app].
        split; [reflexivity|].
        split; [apply all_fail_cons with (error := error); assumption|].
        right. destruct L as [[-> ->] | (before & s & e & -> & Q & ->)].
        -- exists [], server, error. rewrite app_nil_r.
           split; [reflexivity|]. split; [exact E | reflexivity].
        -- exists (server :: before), s, e.
           rewrite <- app_assoc in Q. cbn [app] in Q.
           split; [reflexivity|]. split; [exact Q | reflexivity].
    + exists [], server, rest. rewrite app_nil_r.
      split; [reflexivity|]. split; [reflexivity|].
      split; [apply all_fail_nil | exact E].
Qed.

End ClientFacts.

(** C3: [query] tries the hosts in order, the primary host first and
    then the fallback hosts in the order of their list.  When it returns,
    the hosts tried are the hosts up to the first one whose attempt
    succeeded, every host before that one failed, the result is the result
    of that attempt, and its [usedServer] is that host, a member of the
    server list.  When it throws, every host of the list was tried and
    failed, and the error is an [Error] whose message holds the list of the
    hosts and the message of the error of the last host. *)
Theorem query_fallback_order
    (toISOString toLocalString : Date -> string)
    (network : list string -> string -> Attempt) (client : NTPClient) :
  let servers := host client :: fallbackServers client in
  match query toISOString toLocalString network client with
  | (inr result, tried) =>
      exists before server after,
        servers = (before ++ server :: after)%list
        /\ tried = (before ++ [server])%list
        /\ all_fail toISOString toLocalString network client [] before
        /\ queryServer toISOString toLocalString client server
             (network before server) = inr result
        /\ usedServer result = Some server
        /\ In server servers
  | (inl error, tried) =>
      tried = servers
      /\ all_fail toISOString toLocalString network client [] servers
      /\ exists before server lastError,
          servers = (before ++ [server])%list
          /\ queryServer toISOString toLocalString client server
               (network before server) = inl lastError
          /\ error = Error ("NTP query failed for all servers ("
                            ++ join ", " servers ++ "): "
                            ++ message lastError)
  end.
Proof.
  cbv zeta. unfold query.
  pose proof (query_loop_spec toISOString toLocalString network client
                (host client :: fallbackServers client) None []) as S.
  destruct (query_loop toISOString toLocalString network client
              (host client :: fallbackServers client) None [])
    as [[result | last] tried].
  - destruct S as (before & server & after & E & -> & A & Q).
    cbn [app] in *. exists before, server, after.
    split; [exact E|]. split; [reflexivity|]. split; [exact A|].
    split; [exact Q|].
    split; [apply queryServer_usedServer in Q; exact Q|].
    rewrite E. apply in_or_app. right. left. reflexivity.
  - destruct S as (-> & A & L). cbn [app] in *.
    split; [reflexivity|]. split; [exact A|].
    destruct L as [[E _] | (before & server & e & E & Q & ->)];
      [discriminate|].
    exists before, server, e.
    split; [exact E|]. split; [exact Q | reflexivity].
Qed.

(** Two runs of the loop. *)

(** The primary host times out and the first fallback host answers:
    [query] returns, [usedServer] is the fallback host, and the third host
    is not tried. *)
Example query_uses_fallback :
  exists result,
    query decimalDate decimalDate only_b sample_client
    = (inr result, ["a.example"; "b.example"]%string)
    /\ usedServer result = Some "b.example"%string
    /\ serverAddress result = "192.0.2.7"%string.
Proof. eexists. split; [vm_compute; reflexivity|]. split; reflexivity. Qed.

(** Every host times out: [query] throws, after it tried the three
    hosts. *)
Example query_all_time_out :
  query decimalDate decimalDate silent sample_client
  = (inl (Error ("NTP query failed for all servers "
                 ++ "(a.example, b.example, c.example): "
                 ++ "NTP request timeout after 2000ms to c.example")),
     ["a.example"; "b.example"; "c.example"]%string).
Proof. vm_compute. reflexivity. Qed.

(** ** [getOffset] *)

(** C7: [getOffset] runs [query]; when [query] throws, [getOffset] throws
    the same error; when [query] returns, [getOffset] returns the time value
    of the date of the transmit timestamp, in milliseconds, minus the time
    value of the client-receive time.  That is not the offset of
    [calculateMetrics]: on [only_b] the two differ. *)
Theorem getOffset_two_point :
  (forall toISOString toLocalString network client,
      match fst (query toISOString toLocalString network client) with
      | inr result =>
          getOffset toISOString toLocalString network client
          = inr (getTime (date (transmit (timestamps (parsed result))))
                 - getTime (clientReceiveTime result))
      | inl error =>
          getOffset toISOString toLocalString network client = inl error
      end)
  /\ (exists result originate offset,
         fst (query decimalDate decimalDate only_b sample_client) = inr result
         /\ clientOriginateTime result = Some originate
         /\ getOffset decimalDate decimalDate only_b sample_client = inr offset
         /\ offset = 1010
         /\ ~ (inject_Z offset
               == Metrics.clockOffsetMs
                    (calculateMetrics (parsed result) originate
                       (clientReceiveTime result)))%Q).
Proof.
  split.
  - intros toISOString toLocalString network client. unfold getOffset.
    destruct (fst (query toISOString toLocalString network client));
      reflexivity.
  - eexists. eexists. eexists.
    split; [vm_compute; reflexivity|].
    split; [vm_compute; reflexivity|].
    split; [vm_compute; reflexivity|].
    split; [vm_compute; reflexivity|].
    intros H. vm_compute in H. discriminate.
Qed.

(** * Further properties *)

(** ** Rounding against the binary64 numbers *)

Lemma round_half_even_proper (x y : Q) :
  (x == y)%Q -> round_half_even x = round_half_even y.
Proof.
  intros E. unfold round_half_even.
  rewrite (Qfloor_comp x y E).
  assert (C : (x - inject_Z (Qfloor y) ?= 1 # 2)%Q
              = (y - inject_Z (Qfloor y) ?= 1 # 2)%Q).
  { apply Qcompare_comp; [rewrite E|]; reflexivity. }
  rewrite C. reflexivity.
Qed.

Lemma round_half_even_ge (t : Q) (q : Z) :
  (inject_Z q <= t)%Q -> q <= round_half_even t.
Proof.
  intros H. unfold round_half_even.
  assert (F : q <= Qfloor t).
  { rewrite <- (Qfloor_Z q). apply Qfloor_resp_le. exact H. }
  destruct (_ ?= _)%Q; [destruct (Z.even _)| |]; lia.
Qed.

Lemma round_half_even_le (t : Q) (q : Z) :
  (t <= inject_Z q)%Q -> round_half_even t <= q.
Proof.
  intros H. destruct (Qeq_dec t (inject_Z q)) as [E | N].
  - rewrite (round_half_even_inject t q E). lia.
  - assert (L : (t < inject_Z q)%Q).
    { apply Qle_lteq in H. destruct H as [H | H]; [exact H | contradiction]. }
    assert (F : Qfloor t < q).
    { rewrite Zlt_Qlt. apply Qle_lt_trans with t; [apply Qfloor_le | exact L]. }
    unfold round_half_even.
    destruct (_ ?= _)%Q; [destruct (Z.even _)| |]; lia.
Qed.

Lemma pow2_nonzero (k : Z) : ~ (pow2 k == 0)%Q.
Proof.
  intros Z0. pose proof (pow2_pos k) as P. rewrite Z0 in P. discriminate.
Qed.

(** The value of [round64] on a positive number: a multiple [n] of the unit
    in the last place of its exponent [e]. *)
Lemma round64_pos (x : Q) :
  (0 < x)%Q ->
  exists e : Z,
    -1022 <= e /\ (x < pow2 (e + 1))%Q /\ (-1022 < e -> (pow2 e <= x)%Q) /\
    (round64 x
     == inject_Z (round_half_even (x / pow2 (e - 52))) * pow2 (e - 52))%Q.
Proof.
  intros P.
  assert (N : ~ (x == 0)%Q) by (intros Z0; rewrite Z0 in P; discriminate).
  pose proof (round64_eq x N) as R. cbv zeta in R.
  assert (P' : (0 < Qred x)%Q) by (rewrite Qred_correct; exact P).
  assert (X : (Qred x == x)%Q) by apply Qred_correct.
  destruct (Qred x) as [[|p|p] d] eqn:E; try discriminate P'.
  change (Qabs (Zpos p # d)) with (Zpos p # d) in R.
  change (Z.sgn (Qnum (Zpos p # d))) with 1 in R.
  set (a := Zpos p # d) in *.
  destruct (ilog2_spec a P') as [Lo Hi].
  exists (Z.max (ilog2 a) (-1022)). split; [lia|]. split; [|split].
  - apply Qle_lt_trans with a; [apply Qle_lteq; right; symmetry; exact X|].
    apply Qlt_le_trans with (1 := Hi). apply pow2_le. lia.
  - intros G. replace (Z.max (ilog2 a) (-1022)) with (ilog2 a) by lia.
    apply Qle_trans with a; [exact Lo | apply Qle_lteq; right; exact X].
  - rewrite R.
    rewrite (round_half_even_proper (a / pow2 (Z.max (ilog2 a) (-1022) - 52))
               (x / pow2 (Z.max (ilog2 a) (-1022) - 52)))
      by (apply Qmult_comp; [exact X | reflexivity]).
    change (inject_Z 1) with 1%Q. ring.
Qed.

Lemma round64_zero : round64 0 = 0%Q.
Proof. vm_compute. reflexivity. Qed.

Lemma round64_nonneg (x : Q) : (0 <= x)%Q -> (0 <= round64 x)%Q.
Proof.
  intros H. apply Qle_lteq in H. destruct H as [P | Z0].
  - destruct (round64_pos x P) as (e & _ & _ & _ & R). rewrite R.
    apply Qmult_le_0_compat; [|apply Qlt_le_weak, pow2_pos].
    change 0%Q with (inject_Z 0). rewrite <- Zle_Qle.
    apply round_half_even_ge.
    apply Qle_shift_div_l; [apply pow2_pos|].
    change (inject_Z 0) with 0%Q. lra.
  - rewrite (round64_proper x 0) by (symmetry; exact Z0).
    rewrite round64_zero. apply Qle_refl.
Qed.

(** A positive binary64 number below [x] is below the rounding of [x]. *)
Lemma round64_ge_dyadic_pos (x : Q) (m k : Z) :
  0 < m < 2 ^ 53 -> -1074 <= k ->
  (inject_Z m * pow2 k <= x)%Q -> (inject_Z m * pow2 k <= round64 x)%Q.
Proof.
  intros M K H.
  assert (Y : (0 < inject_Z m * pow2 k)%Q).
  { apply Qmult_lt_0_compat; [|apply pow2_pos]. unfold Qlt; simpl; lia. }
  assert (P : (0 < x)%Q) by (apply Qlt_le_trans with (1 := Y); exact H).
  destruct (round64_pos x P) as (e & E & Hi & Lo & R). rewrite R.
  set (ulp := pow2 (e - 52)) in *.
  assert (U : (0 < ulp)%Q) by apply pow2_pos.
  destruct (Z_le_gt_dec (e - 52) k) as [C | C].
  - set (j := k - (e - 52)).
    assert (J : 0 <= j) by (unfold j; lia).
    assert (Yj : (inject_Z m * pow2 k == inject_Z (m * 2 ^ j) * ulp)%Q).
    { rewrite inject_Z_mult, <- pow2_inject by exact J.
      replace k with (j + (e - 52)) at 1 by (unfold j; lia).
      rewrite pow2_add. fold ulp. ring. }
    rewrite Yj. apply Qmult_le_compat_r; [|apply Qlt_le_weak; exact U].
    rewrite <- Zle_Qle. apply round_half_even_ge.
    apply Qle_shift_div_l; [exact U|]. rewrite <- Yj. exact H.
  - assert (Lo' : (pow2 e <= x)%Q) by (apply Lo; lia).
    assert (N52 : 2 ^ 52 <= round_half_even (x / ulp)).
    { apply round_half_even_ge. apply Qle_shift_div_l; [exact U|].
      rewrite <- pow2_inject by lia. unfold ulp. rewrite <- pow2_add.
      replace (52 + (e - 52)) with e by lia. exact Lo'. }
    apply Qle_trans with (pow2 e).
    + apply Qle_trans with (pow2 53 * pow2 k)%Q.
      * apply Qmult_le_compat_r; [|apply Qlt_le_weak, pow2_pos].
        rewrite pow2_inject by lia. rewrite <- Zle_Qle. lia.
      * rewrite <- pow2_add. apply pow2_le. lia.
    + replace e with (52 + (e - 52)) at 1 by lia. rewrite pow2_add. fold ulp.
      apply Qmult_le_compat_r; [|apply Qlt_le_weak; exact U].
      rewrite pow2_inject by lia. rewrite <- Zle_Qle. exact N52.
Qed.

(** A binary64 number above a positive [x] is above the rounding of [x]. *)
Lemma round64_le_dyadic_pos (x : Q) (m k : Z) :
  0 < m < 2 ^ 53 -> -1074 <= k -> (0 < x)%Q ->
  (x <= inject_Z m * pow2 k)%Q -> (round64 x <= inject_Z m * pow2 k)%Q.
Proof.
  intros M K P H.
  destruct (round64_pos x P) as (e & E & Hi & Lo & R). rewrite R.
  set (ulp := pow2 (e - 52)) in *.
  assert (U : (0 < ulp)%Q) by apply pow2_pos.
  destruct (Z_le_gt_dec (e - 52) k) as [C | C].
  - set (j := k - (e - 52)).
    assert (J : 0 <= j) by (unfold j; lia).
    assert (Yj : (inject_Z m * pow2 k == inject_Z (m * 2 ^ j) * ulp)%Q).
    { rewrite inject_Z_mult, <- pow2_inject by exact J.
      replace k with (j + (e - 52)) at 1 by (unfold j; lia).
      rewrite pow2_add. fold ulp. ring. }
    rewrite Yj. apply Qmult_le_compat_r; [|apply Qlt_le_weak; exact U].
    rewrite <- Zle_Qle. apply round_half_even_le.
    apply Qle_shift_div_r; [exact U|]. rewrite <- Yj. exact H.
  - exfalso.
    assert (Lo' : (pow2 e <= x)%Q) by (apply Lo; lia).
    assert (Y : (inject_Z m * pow2 k < pow2 e)%Q).
    { apply Qlt_le_trans with (pow2 53 * pow2 k)%Q.
      - apply Qmult_lt_compat_r; [apply pow2_pos|].
        rewrite pow2_inject by lia. rewrite <- Zlt_Qlt. lia.
      - rewrite <- pow2_add. apply pow2_le. lia. }
    lra.
Qed.

Lemma round64_opp (x : Q) : (round64 (- x) == - round64 x)%Q.
Proof.
  destruct (Qeq_dec x 0) as [Z0 | N].
  - rewrite (round64_proper (- x) 0) by (rewrite Z0; reflexivity).
    rewrite (round64_proper x 0 Z0), round64_zero. reflexivity.
  - assert (N' : ~ (- x == 0)%Q) by (intros Z0; apply N; lra).
    rewrite (round64_eq x N), (round64_eq (- x) N'). cbv zeta.
    rewrite Qred_opp.
    destruct (Qred x) as [[|p|p] d]; cbn [Qopp Qabs Qnum Qden Z.opp Z.abs Z.sgn].
    all: change (inject_Z (-1)) with (- (1))%Q; change (inject_Z 1) with 1%Q;
      change (inject_Z 0) with 0%Q; ring.
Qed.

Lemma binary64_opp (y : Q) : binary64 y -> binary64 (- y).
Proof.
  intros (m & k & M & K & Y). exists (- m), k. split; [lia|]. split; [exact K|].
  rewrite Y, inject_Z_opp. ring.
Qed.

Lemma binary64_inject (z : Z) : Z.abs z < 2 ^ 53 -> binary64 (inject_Z z).
Proof.
  intros H. exists z, 0. split; [exact H|]. split; [lia|].
  change (pow2 0) with 1%Q. ring.
Qed.

Lemma round64_ge_binary64 (x y : Q) :
  binary64 y -> (y <= x)%Q -> (y <= round64 x)%Q.
Proof.
  intros (m & k & M & K & Y) H.
  assert (P2 : (0 < pow2 k)%Q) by apply pow2_pos.
  destruct (Z_lt_le_dec 0 m) as [Mp | Mn].
  - rewrite Y in *. apply round64_ge_dyadic_pos; [lia | exact K | exact H].
  - assert (Y0 : (y <= 0)%Q).
    { rewrite Y. setoid_replace 0%Q with (0 * pow2 k)%Q by ring.
      apply Qmult_le_compat_r; [|apply Qlt_le_weak; exact P2].
      change 0%Q with (inject_Z 0). rewrite <- Zle_Qle. exact Mn. }
    destruct (Qlt_le_dec x 0) as [Xn | Xp].
    + assert (Mneg : m < 0).
      { destruct (Z.eq_dec m 0) as [-> | ]; [|lia]. exfalso.
        rewrite Y in H. change (inject_Z 0) with 0%Q in H. lra. }
      assert (R : (round64 (- x) <= inject_Z (- m) * pow2 k)%Q).
      { apply round64_le_dyadic_pos; [lia | exact K | lra |].
        rewrite inject_Z_opp. rewrite Y in H. lra. }
      rewrite round64_opp, inject_Z_opp in R. rewrite Y. lra.
    + apply Qle_trans with 0%Q; [exact Y0 | apply round64_nonneg; exact Xp].
Qed.

Lemma round64_le_binary64 (x y : Q) :
  binary64 y -> (x <= y)%Q -> (round64 x <= y)%Q.
Proof.
  intros B H.
  assert (R : (- y <= round64 (- x))%Q).
  { apply round64_ge_binary64; [apply binary64_opp; exact B | lra]. }
  rewrite round64_opp in R. lra.
Qed.



(** ** Floors and truncations *)

Lemma Qfloor_unique (v : Q) (q : Z) :
  (inject_Z q <= v)%Q -> (v < inject_Z (q + 1))%Q -> Qfloor v = q.
Proof.
  intros L U. apply Z.le_antisymm.
  - assert (F : Qfloor v < q + 1).
    { rewrite Zlt_Qlt. apply Qle_lt_trans with v; [apply Qfloor_le | exact U]. }
    lia.
  - rewrite <- (Qfloor_Z q). apply Qfloor_resp_le. exact L.
Qed.

(** Truncation keeps a number between the integers around it. *)
Lemma Qtrunc_between (v : Q) (a b : Z) :
  (inject_Z a <= v)%Q -> (v <= inject_Z b)%Q -> a <= Qtrunc v <= b.
Proof.
  destruct v as [n d]. unfold Qle, Qtrunc. cbn [Qnum Qden inject_Z].
  intros L U. rewrite Z.mul_1_r in L, U.
  pose proof (Z.quot_rem' n (Zpos d)) as E.
  destruct (Z_lt_le_dec n 0) as [Neg | Pos].
  - assert (B : - Zpos d < Z.rem n (Zpos d) <= 0)
      by (apply Z.rem_bound_pos_neg; lia).
    split; nia.
  - assert (B : 0 <= Z.rem n (Zpos d) < Zpos d)
      by (apply Z.rem_bound_pos; lia).
    split; nia.
Qed.

(** [Math.floor(now / 1000)] is the floor of the exact quotient for every
    time value of a [Date]: the quotient of binary64 is not rounded across
    an integer. *)
Lemma floor_seconds (now : Z) :
  Z.abs now <= 8640000000000000 ->
  Qfloor (fdiv (inject_Z now) 1000) = now / 1000.
Proof.
  intros H. unfold fdiv.
  set (q := now / 1000).
  assert (D : now = 1000 * q + now mod 1000) by (apply Z.div_mod; lia).
  assert (R : 0 <= now mod 1000 < 1000) by (apply Z.mod_pos_bound; lia).
  set (r := now mod 1000) in *.
  assert (X : (inject_Z now / 1000 == inject_Z q + inject_Z r * (1 # 1000))%Q).
  { rewrite D at 1. rewrite inject_Z_plus, inject_Z_mult. field. }
  assert (R0 : (0 <= inject_Z r)%Q)
    by (change 0%Q with (inject_Z 0); rewrite <- Zle_Qle; lia).
  assert (R1 : (inject_Z r <= 999)%Q)
    by (change 999%Q with (inject_Z 999); rewrite <- Zle_Qle; lia).
  assert (Q0 : (inject_Z (-8640000000000) <= inject_Z q)%Q)
    by (rewrite <- Zle_Qle; lia).
  assert (Q1 : (inject_Z q <= inject_Z 8640000000000)%Q)
    by (rewrite <- Zle_Qle; lia).
  change (inject_Z (-8640000000000)) with (-8640000000000)%Q in Q0.
  change (inject_Z 8640000000000) with 8640000000000%Q in Q1.
  assert (B : binary64 (inject_Z q)) by (apply binary64_inject; lia).
  rewrite (round64_proper _ _ X).
  apply Qfloor_unique.
  - apply round64_ge_binary64; [exact B|].
    set (iq := inject_Z q) in *. set (ir := inject_Z r) in *. lra.
  - assert (E : (Qabs (round64 (inject_Z q + inject_Z r * (1 # 1000))
                       - (inject_Z q + inject_Z r * (1 # 1000)))
                 <= pow2 (44 - 54))%Q).
    { apply round64_error; [lia|].
      change (pow2 44) with 17592186044416%Q.
      set (iq := inject_Z q) in *. set (ir := inject_Z r) in *.
      apply Qabs_Qlt_condition. split; lra. }
    change (pow2 (44 - 54)) with (1 # 1024)%Q in E.
    apply Qabs_Qle_condition in E. destruct E as [_ E].
    rewrite inject_Z_plus. change (inject_Z 1) with 1%Q.
    set (iq := inject_Z q) in *. set (ir := inject_Z r) in *.
    set (v := round64 (iq + ir * (1 # 1000))) in *. lra.
Qed.

(** ** The request packet *)

Lemma writeUInt32BE_inr (buffer : Buffer) (value : Z) (offset : nat) :
  0 <= value < 2 ^ 32 -> (offset + 4 <= List.length buffer)%nat ->
  writeUInt32BE buffer value offset
  = inr (firstn offset buffer ++ bytes_of_word value
         ++ skipn (offset + 4) buffer)%list.
Proof.
  intros [V0 V1] L. unfold writeUInt32BE.
  destruct (Z.leb_spec 0 value); [|lia].
  destruct (Z.ltb_spec value (2 ^ 32)); [|lia].
  destruct (Nat.leb_spec (offset + 4) (List.length buffer)); [|lia].
  reflexivity.
Qed.

Lemma writeUInt32BE_value (buffer : Buffer) (value : Z) (offset : nat) :
  ~ 0 <= value < 2 ^ 32 ->
  writeUInt32BE buffer value offset
  = inl (RangeError "The value of 'value' is out of range.").
Proof.
  intros V. unfold writeUInt32BE.
  destruct (Z.leb_spec 0 value); [|reflexivity].
  destruct (Z.ltb_spec value (2 ^ 32)); [lia | reflexivity].
Qed.

Lemma createRequestPacket_cases (now : Z) (random : Q) :
  createRequestPacket now random
  = if (0 <=? requestSeconds now) && (requestSeconds now <? 2 ^ 32)
       && (0 <=? requestFraction random) && (requestFraction random <? 2 ^ 32)
    then inr (request_of (requestSeconds now) (requestFraction random))
    else inl (RangeError "The value of 'value' is out of range.").
Proof.
  unfold createRequestPacket. cbv zeta.
  fold (requestSeconds now). fold (requestFraction random).
  set (s := requestSeconds now). set (f := requestFraction random).
  destruct (Z.leb_spec 0 s) as [S0 | S0];
    [destruct (Z.ltb_spec s (2 ^ 32)) as [S1 | S1]|].
  - rewrite writeUInt32BE_inr by (cbn; lia). cbn [bind andb].
    destruct (Z.leb_spec 0 f) as [F0 | F0];
      [destruct (Z.ltb_spec f (2 ^ 32)) as [F1 | F1]|].
    + rewrite writeUInt32BE_inr; [reflexivity | lia | cbn; lia].
    + rewrite writeUInt32BE_value by lia. reflexivity.
    + rewrite writeUInt32BE_value by lia. reflexivity.
  - rewrite writeUInt32BE_value by lia. reflexivity.
  - rewrite writeUInt32BE_value by lia. reflexivity.
Qed.

(** [Math.random() * 0x100000000] is not rounded, and its floor is a
    32-bit word. *)
Lemma requestFraction_range (random : Q) :
  binary64 random -> (0 <= random)%Q -> (random < 1)%Q ->
  requestFraction random = Qfloor (random * 4294967296)
  /\ 0 <= requestFraction random < 2 ^ 32.
Proof.
  intros (m & k & M & K & Y) R0 R1. unfold requestFraction, fmul.
  assert (E : (round64 (random * 4294967296) == random * 4294967296)%Q).
  { apply (round64_exact _ m (k + 32)); [|exact M|lia].
    rewrite Y, pow2_add. change (pow2 32) with 4294967296%Q. ring. }
  rewrite (Qfloor_comp _ _ E). split; [reflexivity|]. split.
  - rewrite <- (Qfloor_Z 0). apply Qfloor_resp_le.
    change (inject_Z 0) with 0%Q. lra.
  - rewrite Zlt_Qlt.
    apply Qle_lt_trans with (1 := Qfloor_le _).
    change (inject_Z (2 ^ 32)) with 4294967296%Q. lra.
Qed.

(** The seconds of the request are an unsigned 32-bit integer exactly
    when the clock is in the first era of NTP. *)
Lemma requestSeconds_era (now : Z) :
  Z.abs now <= 8640000000000000 ->
  requestSeconds now = now / 1000 + 2208988800
  /\ (0 <= requestSeconds now < 2 ^ 32
      <-> - 2208988800000 <= now < 2085978496000).
Proof.
  intros D. unfold requestSeconds. rewrite floor_seconds by exact D.
  split; [reflexivity|].
  pose proof (Z.div_mod now 1000 ltac:(lia)).
  pose proof (Z.mod_pos_bound now 1000 ltac:(lia)). lia.
Qed.

(** Outside it [writeUInt32BE] refuses the seconds. *)
Lemma createRequestPacket_throws (now : Z) (random : Q) :
  Z.abs now <= 8640000000000000 ->
  ~ (- 2208988800000 <= now < 2085978496000) ->
  exists msg, createRequestPacket now random = inl (RangeError msg).
Proof.
  intros D N. rewrite createRequestPacket_cases.
  destruct (requestSeconds_era now D) as [_ S].
  eexists.
  destruct (Z.leb_spec 0 (requestSeconds now));
    [destruct (Z.ltb_spec (requestSeconds now) (2 ^ 32)); [tauto|]|];
    reflexivity.
Qed.

(** X1: for a clock between 1900-01-01T00:00:00Z and 2036-02-07T06:28:16Z
    and a value of [Math.random()] (a binary64 number of [0, 1)),
    [createRequestPacket] returns 48 bytes: the byte 0x23, 39 zero bytes,
    the seconds [floor(now / 1000) + 2208988800] as a big-endian 32-bit
    word at bytes 40-43 and [floor(random * 2^32)] at bytes 44-47. *)
Theorem createRequestPacket_layout (now : Z) (random : Q) :
  - 2208988800000 <= now < 2085978496000 ->
  binary64 random -> (0 <= random)%Q -> (random < 1)%Q ->
  createRequestPacket now random
  = inr ([x23] ++ alloc 39 ++ bytes_of_word (now / 1000 + 2208988800)
         ++ bytes_of_word (Qfloor (random * 4294967296)))%list.
Proof.
  intros N B R0 R1. rewrite createRequestPacket_cases.
  destruct (requestFraction_range random B R0 R1) as [F [F0 F1]].
  destruct (requestSeconds_era now ltac:(lia)) as [E S].
  apply S in N. destruct N as [S0 S1].
  destruct (Z.leb_spec 0 (requestSeconds now)); [|lia].
  destruct (Z.ltb_spec (requestSeconds now) (2 ^ 32)); [|lia].
  destruct (Z.leb_spec 0 (requestFraction random)); [|lia].
  destruct (Z.ltb_spec (requestFraction random) (2 ^ 32)); [|lia].
  cbn [andb]. rewrite E, F. reflexivity.
Qed.

Lemma createRequestPacket_layout_witness :
  createRequestPacket 1732304819000 (1 # 2)
  = inr ([x23] ++ alloc 39 ++ bytes_of_word (1732304819000 / 1000 + 2208988800)
         ++ bytes_of_word (Qfloor ((1 # 2) * 4294967296)))%list.
Proof.
  apply createRequestPacket_layout.
  - lia.
  - exists 1, (-1). split; [reflexivity|]. split; [lia | reflexivity].
  - discriminate.
  - reflexivity.
Defined.

(** X2: [createRequestPacket] returns exactly when the clock is in the
    first era of NTP.  For a time value of a [Date] before
    1900-01-01T00:00:00Z, or from 2036-02-07T06:28:16Z on, the seconds are
    no unsigned 32-bit integer and the call throws a [RangeError]. *)
Theorem createRequestPacket_era (now : Z) (random : Q) :
  Z.abs now <= 8640000000000000 ->
  binary64 random -> (0 <= random)%Q -> (random < 1)%Q ->
  match createRequestPacket now random with
  | inr packet => - 2208988800000 <= now < 2085978496000
  | inl error =>
      (exists msg, error = RangeError msg)
      /\ ~ (- 2208988800000 <= now < 2085978496000)
  end.
Proof.
  intros D B R0 R1. rewrite createRequestPacket_cases.
  destruct (requestFraction_range random B R0 R1) as [_ [F0 F1]].
  destruct (requestSeconds_era now D) as [_ S].
  destruct (Z.leb_spec 0 (requestFraction random)); [|lia].
  destruct (Z.ltb_spec (requestFraction random) (2 ^ 32)); [|lia].
  destruct (Z.leb_spec 0 (requestSeconds now));
    [destruct (Z.ltb_spec (requestSeconds now) (2 ^ 32))|]; cbn [andb].
  - apply S. split; assumption.
  - split; [eexists; reflexivity|]. intros N. apply S in N. lia.
  - split; [eexists; reflexivity|]. intros N. apply S in N. lia.
Qed.

Lemma createRequestPacket_era_witness :
  match createRequestPacket 2085978496000 (1 # 2) with
  | inr packet => - 2208988800000 <= 2085978496000 < 2085978496000
  | inl error =>
      (exists msg, error = RangeError msg)
      /\ ~ (- 2208988800000 <= 2085978496000 < 2085978496000)
  end.
Proof.
  apply createRequestPacket_era.
  - cbn. lia.
  - exists 1, (-1). split; [reflexivity|]. split; [lia | reflexivity].
  - discriminate.
  - reflexivity.
Defined.

Lemma word_bytes_of_word (value : Z) (b0 b1 b2 b3 : byte) :
  0 <= value < 2 ^ 32 ->
  bytes_of_word value = [b0; b1; b2; b3] ->
  Z_of_byte b0 * 2 ^ 24 + Z_of_byte b1 * 2 ^ 16 + Z_of_byte b2 * 2 ^ 8
  + Z_of_byte b3 = value.
Proof.
  intros V E. unfold bytes_of_word in E.
  injection E as <- <- <- <-. rewrite !Z_of_byte_of_Z.
  change (2 ^ 24) with 16777216 in *. change (2 ^ 16) with 65536 in *.
  change (2 ^ 8) with 256 in *. change (2 ^ 32) with 4294967296 in *.
  Z.div_mod_to_equations. lia.
Qed.

Lemma word_request_of (seconds fraction : Z) :
  0 <= seconds < 2 ^ 32 -> 0 <= fraction < 2 ^ 32 ->
  word (request_of seconds fraction) 40 = seconds
  /\ word (request_of seconds fraction) 44 = fraction.
Proof.
  intros S F. unfold request_of.
  destruct (bytes_of_word seconds) as [|s0 [|s1 [|s2 [|s3 [|]]]]] eqn:Es;
    try discriminate Es.
  destruct (bytes_of_word fraction) as [|f0 [|f1 [|f2 [|f3 [|]]]]] eqn:Ef;
    try discriminate Ef.
  split.
  - exact (word_bytes_of_word seconds s0 s1 s2 s3 S Es).
  - exact (word_bytes_of_word fraction f0 f1 f2 f3 F Ef).
Qed.

Lemma createRequestPacket_inr (now : Z) (random : Q) (packet : Buffer) :
  createRequestPacket now random = inr packet ->
  0 <= requestSeconds now < 2 ^ 32 /\ 0 <= requestFraction random < 2 ^ 32
  /\ packet = request_of (requestSeconds now) (requestFraction random).
Proof.
  rewrite createRequestPacket_cases.
  destruct (Z.leb_spec 0 (requestSeconds now)); [|discriminate].
  destruct (Z.ltb_spec (requestSeconds now) (2 ^ 32)); [|discriminate].
  destruct (Z.leb_spec 0 (requestFraction random)); [|discriminate].
  destruct (Z.ltb_spec (requestFraction random) (2 ^ 32)); [|discriminate].
  cbn [andb]. intros E. injection E as <-. repeat split; assumption.
Qed.

(** X3: [parsePacket] reads every request [createRequestPacket] builds:
    leap indicator 0, version 4 (the byte 0x23; the comment of the source
    names version 3), mode 3, stratum 0, the Unix seconds of the transmit
    timestamp are [floor(now / 1000)], its fraction is the random word, and
    the three other timestamps are zero. *)
Theorem request_parses
    (toISOString toLocalString : Date -> string)
    (now : Z) (random : Q) (packet : Buffer) :
  Z.abs now <= 8640000000000000 ->
  createRequestPacket now random = inr packet ->
  exists parsed,
    parsePacket toISOString toLocalString packet = inr parsed
    /\ leapIndicator (header parsed) = 0
    /\ versionNumber (header parsed) = 4
    /\ mode (header parsed) = 3
    /\ stratum (header parsed) = 0
    /\ Unix.seconds (unix (transmit (timestamps parsed))) = now / 1000
    /\ Raw.fraction (raw (transmit (timestamps parsed)))
       = Qfloor (fmul random 4294967296)
    /\ raw (reference (timestamps parsed)) = Raw.mk 0 0
    /\ raw (originate (timestamps parsed)) = Raw.mk 0 0
    /\ raw (receive (timestamps parsed)) = Raw.mk 0 0.
Proof.
  intros D H. apply createRequestPacket_inr in H. destruct H as (S & F & ->).
  destruct (word_request_of _ _ S F) as [Ws Wf].
  exists (packet_at toISOString toLocalString
            (request_of (requestSeconds now) (requestFraction random))).
  split.
  { apply parsePacket_returns.
    cbv [request_of bytes_of_word alloc repeat app List.length].
    apply le_n. }
  cbn [packet_at header timestamps leapIndicator versionNumber mode stratum
       transmit reference originate receive timestamp_at raw unix
       Unix.seconds Raw.fraction Nat.add].
  rewrite Ws, Wf.
  repeat split; try reflexivity.
  unfold requestSeconds, NTP_EPOCH_OFFSET.
  rewrite floor_seconds by exact D. lia.
Qed.

Lemma request_parses_witness :
  exists parsed,
    parsePacket decimalDate decimalDate
      (request_of (requestSeconds 1732304819000) (requestFraction (1 # 2)))
    = inr parsed
    /\ leapIndicator (header parsed) = 0
    /\ versionNumber (header parsed) = 4
    /\ mode (header parsed) = 3
    /\ stratum (header parsed) = 0
    /\ Unix.seconds (unix (transmit (timestamps parsed)))
       = 1732304819000 / 1000
    /\ Raw.fraction (raw (transmit (timestamps parsed)))
       = Qfloor (fmul (1 # 2) 4294967296)
    /\ raw (reference (timestamps parsed)) = Raw.mk 0 0
    /\ raw (originate (timestamps parsed)) = Raw.mk 0 0
    /\ raw (receive (timestamps parsed)) = Raw.mk 0 0.
Proof.
  apply (request_parses decimalDate decimalDate 1732304819000 (1 # 2)).
  - lia.
  - vm_compute. reflexivity.
Defined.

(** ** The client outside the first era of NTP *)

Lemma queryServer_request_fails
    (toISOString toLocalString : Date -> string)
    (client : NTPClient) (host : string) (attempt : Attempt) (e : JsError) :
  createRequestPacket (sendClock attempt) (random attempt) = inl e ->
  queryServer toISOString toLocalString client host attempt = inl e.
Proof. intros H. unfold queryServer. rewrite H. reflexivity. Qed.

(** X4: when the clock of every attempt is outside the first era of NTP
    (from 2036-02-07T06:28:16Z on, or before 1900), [query] fails whatever
    the network answers: no request can be built, every host of the list is
    tried, and the error is the [Error] of [query]. *)
Theorem query_fails_outside_era
    (toISOString toLocalString : Date -> string)
    (network : list string -> string -> Attempt) (client : NTPClient) :
  (forall tried server,
      Z.abs (sendClock (network tried server)) <= 8640000000000000
      /\ ~ (- 2208988800000 <= sendClock (network tried server)
            < 2085978496000)) ->
  exists msg,
    query toISOString toLocalString network client
    = (inl (Error msg), host client :: fallbackServers client).
Proof.
  intros H. unfold query.
  pose proof (query_loop_spec toISOString toLocalString network client
                (host client :: fallbackServers client) None []) as S.
  destruct (query_loop toISOString toLocalString network client
              (host client :: fallbackServers client) None [])
    as [[result | last] tried].
  - exfalso. destruct S as (before & server & after & _ & _ & _ & Q).
    destruct (H ([] ++ before)%list server) as [D N].
    destruct (createRequestPacket_throws _
                (random (network ([] ++ before)%list server)) D N) as [msg E].
    rewrite (queryServer_request_fails _ _ _ _ _ _ E) in Q. discriminate.
  - destruct S as (-> & _). eexists. reflexivity.
Qed.

Lemma query_fails_outside_era_witness :
  exists msg,
    query decimalDate decimalDate clock_2036 sample_client
    = (inl (Error msg), host sample_client :: fallbackServers sample_client).
Proof.
  apply query_fails_outside_era. intros tried server. cbn. lia.
Defined.

(** ** The date of a timestamp *)

(** The time value of a timestamp lies between the floor of the exact sum
    of its seconds and milliseconds and the next integer. *)
Lemma time_of_between (seconds fraction : Z) :
  0 <= seconds < 2 ^ 32 -> 0 <= fraction < 2 ^ 32 ->
  let exact := (seconds - NTP_EPOCH_OFFSET) * 1000 + fraction * 1000 / 2 ^ 32 in
  (inject_Z exact <= time_of seconds fraction)%Q
  /\ (time_of seconds fraction <= inject_Z (exact + 1))%Q.
Proof.
  intros Hs Hf. cbv zeta. unfold time_of, fadd, fmul.
  fold (fmul (fdiv (inject_Z fraction) 4294967296) 1000).
  pose proof (milliseconds_of_exact fraction Hf) as M.
  set (u := seconds - NTP_EPOCH_OFFSET).
  assert (U : - 2208988800 <= u < 2085978496)
    by (unfold u, NTP_EPOCH_OFFSET; lia).
  assert (A : (round64 (inject_Z u * 1000) == inject_Z (u * 1000))%Q).
  { rewrite inject_Z_mult. apply (round64_exact _ (u * 1000) 0); [|lia|lia].
    rewrite inject_Z_mult. change (pow2 0) with 1%Q. ring. }
  set (w := fraction * 1000 / 2 ^ 32).
  assert (D : fraction * 1000 = 2 ^ 32 * w + (fraction * 1000) mod 2 ^ 32)
    by (apply Z.div_mod; lia).
  assert (R : 0 <= (fraction * 1000) mod 2 ^ 32 < 2 ^ 32)
    by (apply Z.mod_pos_bound; lia).
  set (r := (fraction * 1000) mod 2 ^ 32) in *.
  assert (W : 0 <= w < 1000) by (change (2 ^ 32) with 4294967296 in *; lia).
  assert (X : (inject_Z (u * 1000) + inject_Z fraction / 4294967296 * 1000
               == inject_Z (u * 1000 + w) + inject_Z r * (1 # 4294967296))%Q).
  { setoid_replace (inject_Z fraction / 4294967296 * 1000)%Q
      with (inject_Z (fraction * 1000) * (1 # 4294967296))%Q
      by (rewrite inject_Z_mult; field).
    rewrite D. change (2 ^ 32) with 4294967296.
    rewrite !inject_Z_plus, !inject_Z_mult. field. }
  rewrite (round64_proper _ (inject_Z (u * 1000 + w)
                             + inject_Z r * (1 # 4294967296)))
    by (unfold milliseconds_of in M; rewrite A, M; exact X).
  assert (R0 : (0 <= inject_Z r)%Q)
    by (change 0%Q with (inject_Z 0); rewrite <- Zle_Qle; lia).
  assert (R1 : (inject_Z r <= 4294967295)%Q)
    by (change 4294967295%Q with (inject_Z 4294967295); rewrite <- Zle_Qle;
        change (2 ^ 32) with 4294967296 in R; lia).
  split.
  - apply round64_ge_binary64; [apply binary64_inject; lia|].
    set (a := inject_Z (u * 1000 + w)) in *. set (ir := inject_Z r) in *. lra.
  - apply round64_le_binary64; [apply binary64_inject; lia|].
    rewrite (inject_Z_plus (u * 1000 + w) 1). change (inject_Z 1) with 1%Q.
    set (a := inject_Z (u * 1000 + w)) in *. set (ir := inject_Z r) in *. lra.
Qed.

(** X5: the date of a parsed timestamp.  Its time value is the integer
    part of the exact sum [unixSeconds * 1000 + fraction * 1000 / 2^32], or
    that integer plus one; [timestamp] is that time value; it lies between
    1900-01-01T00:00:00Z and 2036-02-07T06:28:16Z; and [iso] and [local]
    are the renderings of that date. *)
Theorem timestamp_date_value
    (toISOString toLocalString : Date -> string)
    (buffer : Buffer) (offset : nat) (ts : ParsedNTPTimestamp) :
  parseNTPTimestamp toISOString toLocalString buffer offset = inr ts ->
  let exact := Unix.seconds (unix ts) * 1000
               + Raw.fraction (raw ts) * 1000 / 2 ^ 32 in
  timestamp ts = getTime (date ts)
  /\ exact <= getTime (date ts) <= exact + 1
  /\ - 2208988800000 <= getTime (date ts) <= 2085978496000
  /\ iso ts = toISOString (date ts)
  /\ local ts = toLocalString (date ts).
Proof.
  intros H. apply parseNTPTimestamp_inr in H. destruct H as [L ->].
  cbn [timestamp_at timestamp date unix raw Unix.seconds Raw.fraction iso local
       getTime].
  unfold getTime.
  pose proof (word_range buffer offset) as Hs.
  pose proof (word_range buffer (offset + 4)) as Hf.
  destruct (time_of_between _ _ Hs Hf) as [Lo Hi].
  pose proof (Qtrunc_between _ _ _ Lo Hi) as T.
  split; [reflexivity|]. split; [exact T|]. split; [|split; reflexivity].
  assert (W : 0 <= word buffer (offset + 4) * 1000 / 2 ^ 32 < 1000).
  { change (2 ^ 32) with 4294967296 in *. split.
    - apply Z.div_pos; lia.
    - apply Z.div_lt_upper_bound; lia. }
  unfold NTP_EPOCH_OFFSET in *. lia.
Qed.

Lemma timestamp_date_value_witness :
  let ts := timestamp_at decimalDate decimalDate sample_response 40 in
  let exact := Unix.seconds (unix ts) * 1000
               + Raw.fraction (raw ts) * 1000 / 2 ^ 32 in
  timestamp ts = getTime (date ts)
  /\ exact <= getTime (date ts) <= exact + 1
  /\ - 2208988800000 <= getTime (date ts) <= 2085978496000
  /\ iso ts = decimalDate (date ts)
  /\ local ts = decimalDate (date ts).
Proof.
  apply (timestamp_date_value decimalDate decimalDate sample_response 40).
  vm_compute. reflexivity.
Defined.

(** ** The fields of the header *)

Lemma byte_fields (b : byte) :
  let x := Z_of_byte b in
  0 <= Z.land (Z.shiftr x 6) 3 <= 3
  /\ 0 <= Z.land (Z.shiftr x 3) 7 <= 7
  /\ 0 <= Z.land x 7 <= 7
  /\ x = Z.land (Z.shiftr x 6) 3 * 64 + Z.land (Z.shiftr x 3) 7 * 8 + Z.land x 7.
Proof.
  destruct b; vm_compute; repeat split;
    solve [reflexivity | intros C; discriminate C].
Qed.

Lemma index_fields (buffer : Buffer) (i : nat) :
  let x := index buffer i in
  0 <= Z.land (Z.shiftr x 6) 3 <= 3
  /\ 0 <= Z.land (Z.shiftr x 3) 7 <= 7
  /\ 0 <= Z.land x 7 <= 7
  /\ x = Z.land (Z.shiftr x 6) 3 * 64 + Z.land (Z.shiftr x 3) 7 * 8 + Z.land x 7.
Proof.
  unfold index. destruct (nth_error buffer i) as [b|].
  - apply byte_fields.
  - vm_compute. repeat split; solve [reflexivity | intros C; discriminate C].
Qed.

(** X6: the fields of the header of a parsed packet.  The leap indicator
    is in 0..3, the version and the mode in 0..7, and the three together
    are the first byte; stratum, poll interval and precision are bytes,
    0..255 (the precision is not read as a signed number); root delay and
    root dispersion are unsigned 32-bit words; [roundTripDelay] and
    [clockOffset] are left undefined. *)
Theorem header_fields
    (toISOString toLocalString : Date -> string)
    (buffer : Buffer) (packet : ParsedNTPPacket) :
  parsePacket toISOString toLocalString buffer = inr packet ->
  let h := header packet in
  0 <= leapIndicator h <= 3 /\ 0 <= versionNumber h <= 7 /\ 0 <= mode h <= 7
  /\ index buffer 0 = leapIndicator h * 64 + versionNumber h * 8 + mode h
  /\ 0 <= stratum h <= 255 /\ 0 <= pollInterval h <= 255
  /\ 0 <= precision h <= 255
  /\ 0 <= rootDelay h < 2 ^ 32 /\ 0 <= rootDispersion h < 2 ^ 32
  /\ roundTripDelay packet = None /\ clockOffset packet = None.
Proof.
  intros H. apply parsePacket_inr in H. destruct H as [L ->].
  cbn [packet_at header leapIndicator versionNumber mode stratum pollInterval
       precision rootDelay rootDispersion roundTripDelay clockOffset].
  destruct (index_fields buffer 0) as (F1 & F2 & F3 & F4).
  pose proof (index_range buffer 1). pose proof (index_range buffer 2).
  pose proof (index_range buffer 3).
  pose proof (word_range buffer 4). pose proof (word_range buffer 8).
  repeat split; try assumption; try reflexivity; lia.
Qed.

Lemma header_fields_witness :
  let h := header (packet_at decimalDate decimalDate sample_response) in
  0 <= leapIndicator h <= 3 /\ 0 <= versionNumber h <= 7 /\ 0 <= mode h <= 7
  /\ index sample_response 0
     = leapIndicator h * 64 + versionNumber h * 8 + mode h
  /\ 0 <= stratum h <= 255 /\ 0 <= pollInterval h <= 255
  /\ 0 <= precision h <= 255
  /\ 0 <= rootDelay h < 2 ^ 32 /\ 0 <= rootDispersion h < 2 ^ 32
  /\ roundTripDelay (packet_at decimalDate decimalDate sample_response) = None
  /\ clockOffset (packet_at decimalDate decimalDate sample_response) = None.
Proof.
  apply (header_fields decimalDate decimalDate sample_response).
  vm_compute. reflexivity.
Defined.

(** X7: the numeric fields of the header, written back as one byte of
    bit fields, three bytes and two big-endian 32-bit words, are the first
    twelve bytes of the buffer. *)
Theorem header_roundtrip
    (toISOString toLocalString : Date -> string)
    (buffer : Buffer) (packet : ParsedNTPPacket) :
  parsePacket toISOString toLocalString buffer = inr packet ->
  encodeHeader (header packet) = slice buffer 0 12.
Proof.
  intros H. apply parsePacket_inr in H. destruct H as [L ->].
  unfold encodeHeader.
  cbn [packet_at header leapIndicator versionNumber mode stratum pollInterval
       precision rootDelay rootDispersion].
  destruct (index_fields buffer 0) as (_ & _ & _ & <-).
  rewrite (bytes_of_word_slice buffer 4), (bytes_of_word_slice buffer 8) by lia.
  cbn [Nat.add].
  rewrite (slice_app buffer 4 8 12) by lia.
  rewrite <- (slice_app buffer 0 4 12) by lia. f_equal.
  destruct (four_bytes buffer 0 ltac:(lia))
    as (b0 & b1 & b2 & b3 & E & E0 & E1 & E2 & E3).
  unfold slice. cbn [Nat.sub]. rewrite E. unfold index.
  cbn [Nat.add] in *. rewrite E0, E1, E2, E3, !byte_of_Z_of_byte. reflexivity.
Qed.

Lemma header_roundtrip_witness :
  encodeHeader (header (packet_at decimalDate decimalDate sample_response))
  = slice sample_response 0 12.
Proof.
  apply (header_roundtrip decimalDate decimalDate sample_response).
  vm_compute. reflexivity.
Defined.

(** ** The hexadecimal dump *)

Lemma string_app_nil_r (s : string) : (s ++ EmptyString)%string = s.
Proof. induction s as [|c s IH]; cbn; [|rewrite IH]; reflexivity. Qed.

Lemma string_app_assoc (a b c : string) :
  ((a ++ b) ++ c)%string = (a ++ (b ++ c))%string.
Proof. induction a as [|x a IH]; cbn; [|rewrite IH]; reflexivity. Qed.

Lemma forallb_string_app (p : ascii -> bool) (a b : string) :
  forallb_string p (a ++ b) = forallb_string p a && forallb_string p b.
Proof.
  induction a as [|x a IH]; cbn; [reflexivity|].
  rewrite IH, andb_assoc. reflexivity.
Qed.

Lemma printable_string_of_uint (d : Decimal.uint) :
  forallb_string isPrintable (NilEmpty.string_of_uint d) = true.
Proof. induction d; cbn [NilEmpty.string_of_uint forallb_string]; try rewrite IHd; reflexivity. Qed.

Lemma printable_String_of_Z (n : Z) :
  forallb_string isPrintable (String_of_Z n) = true.
Proof.
  unfold String_of_Z. destruct n; cbn [Z.to_int NilEmpty.string_of_int].
  - reflexivity.
  - apply printable_string_of_uint.
  - cbn [forallb_string]. rewrite printable_string_of_uint. reflexivity.
Qed.

Lemma printable_repeat_char (c : ascii) (n : nat) :
  isPrintable c = true -> forallb_string isPrintable (repeat_char c n) = true.
Proof.
  intros H. induction n as [|n IH]; cbn; [reflexivity|].
  rewrite H, IH. reflexivity.
Qed.

Lemma printable_join (xs : list string) :
  Forall (fun x => forallb_string isPrintable x = true) xs ->
  forallb_string isPrintable (join " " xs) = true.
Proof.
  induction 1 as [|x xs Hx Hxs IH]; [reflexivity|].
  destruct xs as [|y ys]; [exact Hx|].
  change (join " " (x :: y :: ys))
    with (x ++ " " ++ join " " (y :: ys))%string.
  rewrite !forallb_string_app, Hx, IH. reflexivity.
Qed.

Lemma printable_toString_hex (buffer : Buffer) :
  forallb_string isPrintable (join " " (toString_hex buffer)) = true.
Proof.
  apply printable_join. unfold toString_hex. apply Forall_map.
  apply Forall_forall. intros b _. destruct b; vm_compute; reflexivity.
Qed.

Lemma printable_replace_unprintable (s : string) :
  forallb_string isPrintable (replace_unprintable s) = true.
Proof.
  induction s as [|c s IH]; [reflexivity|].
  cbn [replace_unprintable forallb_string]. rewrite IH, andb_true_r.
  unfold isPrintable at 1.
  destruct ((32 <=? charCode c) && (charCode c <=? 126)) eqn:E;
    [exact E | reflexivity].
Qed.

Lemma printable_hexDump_line (buffer : Buffer) (i : nat) :
  forallb_string isPrintable (hexDump_line buffer i) = true.
Proof.
  unfold hexDump_line, padStart, padEnd.
  rewrite !forallb_string_app.
  rewrite printable_repeat_char by reflexivity.
  rewrite printable_repeat_char by reflexivity.
  rewrite printable_String_of_Z, printable_toString_hex,
    printable_replace_unprintable.
  reflexivity.
Qed.

Lemma hexDump_lines_from_end (buffer : Buffer) (i : nat) :
  (List.length buffer <= i)%nat -> hexDump_lines_from buffer i = [].
Proof.
  intros H. unfold hexDump_lines_from.
  replace (List.length buffer - i + 15)%nat with 15%nat by lia. reflexivity.
Qed.

Lemma hexDump_lines_from_step (buffer : Buffer) (i : nat) :
  (i < List.length buffer)%nat ->
  hexDump_lines_from buffer i
  = hexDump_line buffer i :: hexDump_lines_from buffer (i + 16).
Proof.
  intros H. unfold hexDump_lines_from.
  assert (N : ((List.length buffer - i + 15) / 16
               = S ((List.length buffer - (i + 16) + 15) / 16))%nat).
  { destruct (Nat.le_gt_cases 16 (List.length buffer - i)) as [G | G].
    - replace (List.length buffer - i + 15)%nat
        with (List.length buffer - (i + 16) + 15 + 1 * 16)%nat by lia.
      rewrite Nat.div_add by lia. lia.
    - replace (List.length buffer - (i + 16) + 15)%nat with 15%nat by lia.
      change (15 / 16)%nat with 0%nat. symmetry.
      apply Nat.div_unique with (r := (List.length buffer - i - 1)%nat); lia. }
  rewrite N. cbn [seq map]. rewrite Nat.mul_0_r, Nat.add_0_r. f_equal.
  rewrite <- seq_shift, map_map. apply map_ext. intros j. f_equal. lia.
Qed.

Lemma hexDump_loop_unlines (buffer : Buffer) :
  forall fuel i dump,
    (List.length buffer <= i + 16 * fuel)%nat ->
    hexDump_loop fuel buffer i dump
    = (dump ++ unlines (hexDump_lines_from buffer i))%string.
Proof.
  induction fuel as [|fuel IH]; intros i dump H.
  - rewrite hexDump_lines_from_end by lia. cbn [hexDump_loop unlines].
    rewrite string_app_nil_r. reflexivity.
  - cbn [hexDump_loop].
    destruct (Nat.ltb_spec i (List.length buffer)) as [L | L].
    + rewrite IH by lia. rewrite (hexDump_lines_from_step buffer i L).
      cbn [unlines]. unfold hexDump_line.
      rewrite !string_app_assoc. reflexivity.
    + rewrite hexDump_lines_from_end by lia. cbn [unlines].
      rewrite string_app_nil_r. reflexivity.
Qed.

(** X8: [hexDump] gives one line for every 16 bytes, the last one for
    the bytes that remain: the lines of the offsets 0, 16, 32, ..., each
    closed by a line feed, and every character of a line is one of
    [\x20-\x7E]. *)
Theorem hexDump_lines (buffer : Buffer) :
  let lines :=
    map (fun j => hexDump_line buffer (16 * j))
        (seq 0 ((List.length buffer + 15) / 16)) in
  hexDump_of buffer = unlines lines
  /\ Forall (fun line => forallb_string isPrintable line = true) lines.
Proof.
  cbv zeta. split.
  - unfold hexDump_of. rewrite hexDump_loop_unlines by lia.
    unfold hexDump_lines_from. rewrite Nat.sub_0_r. reflexivity.
  - apply Forall_map. apply Forall_forall. intros j _.
    apply printable_hexDump_line.
Qed.



Lemma length_toString_ascii (buffer : Buffer) :
  String.length (toString_ascii buffer) = List.length buffer.
Proof.
  unfold toString_ascii.
  induction buffer as [|b rest IH]; cbn; [|rewrite IH]; reflexivity.
Qed.



(** The dump of three bytes. *)
Example hexDump_three_bytes :
  hexDump_of [x23; x00; x41]
  = ("0000: 23 00 41" ++ repeat_char " " 40 ++ " #.A"
     ++ String (fromCharCode 10) EmptyString)%string.
Proof. vm_compute. reflexivity. Qed.



(** ** The results of the client *)

Lemma queryServer_inr
    (toISOString toLocalString : Date -> string)
    (client : NTPClient) (server : string) (attempt : Attempt)
    (result : NTPQueryResult) :
  queryServer toISOString toLocalString client server attempt = inr result ->
  exists address receiveClock originateClock,
    event attempt
    = OnMessage (buffer result) address receiveClock originateClock
    /\ (48 <= List.length (buffer result))%nat
    /\ result
       = {| buffer := buffer result;
            hexDump := hexDump_of (buffer result);
            parsed := packet_at toISOString toLocalString (buffer result);
            serverAddress := address;
            clientReceiveTime := receiveClock;
            clientOriginateTime :=
              new_Date (fsub (inject_Z originateClock)
                             (fdiv (inject_Z (timeout client)) 2));
            usedServer := Some server |}.
Proof.
  unfold queryServer. intros H.
  destruct (createRequestPacket (sendClock attempt) (random attempt));
    [discriminate|]. cbn [bind] in H.
  destruct (event attempt) as [reply addr rc oc | | e | e]; try discriminate.
  destruct (parsePacket toISOString toLocalString reply) as [e | p] eqn:P;
    [discriminate|].
  apply parsePacket_inr in P. destruct P as [L ->].
  cbn [bind] in H. injection H as <-. cbn [buffer].
  exists addr, rc, oc. repeat split. exact L.
Qed.

Section ResultFacts.

Variable toISOString : Date -> string.
Variable toLocalString : Date -> string.
Variable network : list string -> string -> Attempt.

Lemma query_inr (client : NTPClient) (result : NTPQueryResult) :
  fst (query toISOString toLocalString network client) = inr result ->
  exists tried server,
    In server (host client :: fallbackServers client)
    /\ queryServer toISOString toLocalString client server
         (network tried server) = inr result.
Proof.
  unfold query.
  pose proof (query_loop_spec toISOString toLocalString network client
                (host client :: fallbackServers client) None []) as S.
  destruct (query_loop toISOString toLocalString network client
              (host client :: fallbackServers client) None [])
    as [[r | last] tried]; cbn [fst]; [|discriminate].
  intros H. injection H as <-.
  destruct S as (before & server & after & E & _ & _ & Q).
  exists ([] ++ before)%list, server. split; [|exact Q].
  rewrite E. apply in_or_app. right. left. reflexivity.
Qed.

End ResultFacts.

(** X10: the fields of a result of [query] belong together.  The buffer
    holds 48 bytes or more, [parsed] is what [parsePacket] returns on it,
    [hexDump] is its dump, [roundTripDelay] and [clockOffset] of the packet
    are undefined, and [usedServer] is a host of the server list. *)
Theorem query_result_consistent
    (toISOString toLocalString : Date -> string)
    (network : list string -> string -> Attempt)
    (client : NTPClient) (result : NTPQueryResult) :
  fst (query toISOString toLocalString network client) = inr result ->
  (48 <= List.length (buffer result))%nat
  /\ parsePacket toISOString toLocalString (buffer result)
     = inr (parsed result)
  /\ hexDump result = hexDump_of (buffer result)
  /\ roundTripDelay (parsed result) = None
  /\ clockOffset (parsed result) = None
  /\ exists server,
       usedServer result = Some server
       /\ In server (host client :: fallbackServers client).
Proof.
  intros H. apply query_inr in H. destruct H as (tried & server & I & Q).
  apply queryServer_inr in Q.
  destruct Q as (a & rc & oc & _ & L & ->). cbn [buffer parsed hexDump usedServer].
  split; [exact L|]. split; [apply parsePacket_returns; exact L|].
  split; [reflexivity|]. split; [reflexivity|]. split; [reflexivity|].
  exists server. split; [reflexivity | exact I].
Qed.

Lemma query_result_consistent_witness :
  exists result,
    fst (query decimalDate decimalDate only_b sample_client) = inr result
    /\ (48 <= List.length (buffer result))%nat
    /\ parsePacket decimalDate decimalDate (buffer result) = inr (parsed result)
    /\ hexDump result = hexDump_of (buffer result)
    /\ roundTripDelay (parsed result) = None
    /\ clockOffset (parsed result) = None
    /\ exists server,
         usedServer result = Some server
         /\ In server (host sample_client :: fallbackServers sample_client).
Proof.
  eexists. split; [vm_compute; reflexivity|].
  apply (query_result_consistent decimalDate decimalDate only_b sample_client).
  vm_compute. reflexivity.
Defined.

(** X11: [queryServer] returns exactly when the request could be built
    and the socket reports a message of 48 bytes or more before a timeout
    or an error.  Nothing else of the message is examined: not its mode,
    not its originate timestamp, not its sender. *)
Theorem queryServer_returns_iff
    (toISOString toLocalString : Date -> string)
    (client : NTPClient) (server : string) (attempt : Attempt) :
  (exists result,
      queryServer toISOString toLocalString client server attempt = inr result)
  <-> (exists packet,
          createRequestPacket (sendClock attempt) (random attempt) = inr packet)
      /\ (exists reply address receiveClock originateClock,
             event attempt = OnMessage reply address receiveClock originateClock
             /\ (48 <= List.length reply)%nat).
Proof.
  split.
  - intros [result Q]. split.
    + unfold queryServer in Q.
      destruct (createRequestPacket (sendClock attempt) (random attempt))
        as [e | packet]; [discriminate|]. exists packet. reflexivity.
    + apply queryServer_inr in Q. destruct Q as (a & rc & oc & E & L & _).
      exists (buffer result), a, rc, oc. split; assumption.
  - intros [[packet P] (reply & a & rc & oc & E & L)].
    unfold queryServer. rewrite P, E. cbn [bind].
    rewrite parsePacket_returns by exact L. cbn [bind]. eexists. reflexivity.
Qed.

Lemma timestamp_at_range
    (toISOString toLocalString : Date -> string)
    (buffer : Buffer) (offset : nat) :
  - 2208988800000
  <= getTime (date (timestamp_at toISOString toLocalString buffer offset))
  <= 2085978496000.
Proof.
  cbn [timestamp_at date]. unfold getTime.
  pose proof (word_range buffer offset) as Hs.
  pose proof (word_range buffer (offset + 4)) as Hf.
  destruct (time_of_between _ _ Hs Hf) as [Lo Hi].
  pose proof (Qtrunc_between _ _ _ Lo Hi) as T.
  assert (W : 0 <= word buffer (offset + 4) * 1000 / 2 ^ 32 < 1000).
  { change (2 ^ 32) with 4294967296 in *. split.
    - apply Z.div_pos; lia.
    - apply Z.div_lt_upper_bound; lia. }
  unfold NTP_EPOCH_OFFSET in *. lia.
Qed.

(** X12: [getTime] runs [query]; it throws the error of [query], or
    returns the date of the transmit timestamp of the result, which lies
    between 1900-01-01T00:00:00Z and 2036-02-07T06:28:16Z. *)
Theorem getTime_transmit_date
    (toISOString toLocalString : Date -> string)
    (network : list string -> string -> Attempt) (client : NTPClient) :
  match fst (query toISOString toLocalString network client) with
  | inr result =>
      getTime_of toISOString toLocalString network client
      = inr (date (transmit (timestamps (parsed result))))
      /\ - 2208988800000
         <= getTime (date (transmit (timestamps (parsed result))))
         <= 2085978496000
  | inl error =>
      getTime_of toISOString toLocalString network client = inl error
  end.
Proof.
  unfold getTime_of.
  destruct (fst (query toISOString toLocalString network client))
    as [e | result] eqn:Q; [reflexivity|].
  split; [reflexivity|].
  apply query_inr in Q. destruct Q as (tried & server & _ & Q).
  apply queryServer_inr in Q. destruct Q as (a & rc & oc & _ & _ & ->).
  cbn [parsed packet_at timestamps transmit]. apply timestamp_at_range.
Qed.

Lemma Qtrunc_floor_ceiling (v : Q) :
  Qtrunc v = if Qle_bool 0 v then Qfloor v else Qceiling v.
Proof.
  destruct v as [n d]. unfold Qtrunc, Qle_bool, Qceiling, Qfloor, Qopp.
  cbn [Qnum Qden]. rewrite Z.mul_1_r. cbn [Z.mul].
  destruct (Z.leb_spec 0 n) as [P | N].
  - apply Z.quot_div_nonneg; lia.
  - rewrite <- (Z.opp_involutive n) at 1.
    rewrite Z.quot_opp_l by lia. f_equal.
    apply Z.quot_div_nonneg; lia.
Qed.

Lemma Qtrunc_comp (v w : Q) : (v == w)%Q -> Qtrunc v = Qtrunc w.
Proof.
  intros E. rewrite !Qtrunc_floor_ceiling.
  rewrite (Qfloor_comp v w E), (Qceiling_comp v w E).
  destruct (Qle_bool 0 v) eqn:V, (Qle_bool 0 w) eqn:W; try reflexivity.
  - apply Qle_bool_iff in V. rewrite E in V. apply Qle_bool_iff in V.
    congruence.
  - apply Qle_bool_iff in W. rewrite <- E in W. apply Qle_bool_iff in W.
    congruence.
Qed.

Lemma new_Date_half (n : Z) (v : Q) :
  Z.abs n < 2 ^ 53 -> (v == inject_Z n * (1 # 2))%Q ->
  new_Date v = Some (Z.quot n 2).
Proof.
  intros N E. unfold new_Date.
  assert (B : (Qabs v <= inject_Z 8640000000000000)%Q).
  { rewrite E. apply Qabs_Qle_condition.
    assert (L : (inject_Z (- 2 ^ 53) <= inject_Z n)%Q) by (rewrite <- Zle_Qle; lia).
    assert (U : (inject_Z n <= inject_Z (2 ^ 53))%Q) by (rewrite <- Zle_Qle; lia).
    change (inject_Z (- 2 ^ 53)) with (- 9007199254740992)%Q in L.
    change (inject_Z (2 ^ 53)) with 9007199254740992%Q in U.
    change (inject_Z 8640000000000000) with 8640000000000000%Q.
    set (i := inject_Z n) in *. split; lra. }
  apply Qle_bool_iff in B. rewrite B. f_equal.
  rewrite (Qtrunc_comp v (n # 2)).
  - reflexivity.
  - rewrite E. unfold Qeq. cbn. lia.
Qed.

(** The originate time of an attempt that returns. *)
Lemma queryServer_clientOriginateTime
    (toISOString toLocalString : Date -> string)
    (client : NTPClient) (server : string) (attempt : Attempt)
    (result : NTPQueryResult)
    (reply : Buffer) (address : string) (receiveClock originateClock : Z) :
  queryServer toISOString toLocalString client server attempt = inr result ->
  event attempt = OnMessage reply address receiveClock originateClock ->
  Z.abs (timeout client) < 2 ^ 53 ->
  Z.abs (2 * originateClock - timeout client) < 2 ^ 53 ->
  clientOriginateTime result
  = Some (Z.quot (2 * originateClock - timeout client) 2)
  /\ clientReceiveTime result = receiveClock
  /\ buffer result = reply.
Proof.
  intros Q E T C. apply queryServer_inr in Q.
  destruct Q as (a & rc & oc & E' & _ & R). rewrite E in E'.
  injection E' as Eb <- <- <-. rewrite R.
  cbn [clientOriginateTime clientReceiveTime buffer].
  split; [|split; [reflexivity | symmetry; exact Eb]].
  apply new_Date_half; [exact C|].
  unfold fsub, fdiv.
  assert (H : (round64 (inject_Z (timeout client) / 2)
               == inject_Z (timeout client) * (1 # 2))%Q).
  { rewrite (round64_exact _ (timeout client) (-1)); [field | | exact T | lia].
    change (pow2 (-1)) with (1 # 2)%Q. field. }
  rewrite (round64_proper _ (inject_Z (2 * originateClock - timeout client)
                             * (1 # 2))).
  - apply (round64_exact _ (2 * originateClock - timeout client) (-1));
      [reflexivity | exact C | lia].
  - rewrite H. unfold Z.sub.
    rewrite inject_Z_plus, inject_Z_mult, inject_Z_opp. ring.
Qed.


(** X13: [clientOriginateTime] is computed when the reply arrives: the
    clock read in the handler of the message minus half the timeout of the
    client, truncated towards zero to a millisecond.  The clock read when
    the request was sent has no part in it.  [clientReceiveTime] is the
    clock read by [new Date()] in the handler. *)
Theorem clientOriginateTime_value
    (toISOString toLocalString : Date -> string)
    (client : NTPClient) (server : string) (attempt : Attempt)
    (result : NTPQueryResult)
    (reply : Buffer) (address : string) (receiveClock originateClock : Z) :
  queryServer toISOString toLocalString client server attempt = inr result ->
  event attempt = OnMessage reply address receiveClock originateClock ->
  Z.abs (timeout client) < 2 ^ 53 ->
  Z.abs (2 * originateClock - timeout client) < 2 ^ 53 ->
  clientOriginateTime result
  = Some (Z.quot (2 * originateClock - timeout client) 2)
  /\ clientReceiveTime result = receiveClock.
Proof.
  intros Q E T C.
  destruct (queryServer_clientOriginateTime _ _ _ _ _ _ _ _ _ _ Q E T C)
    as (O & R & _).
  split; assumption.
Qed.

Lemma clientOriginateTime_value_witness :
  exists result,
    queryServer decimalDate decimalDate sample_client "b.example" sample_reply
    = inr result
    /\ clientOriginateTime result
       = Some (Z.quot (2 * 1732304819991 - timeout sample_client) 2)
    /\ clientReceiveTime result = 1732304819990.
Proof.
  eexists. split; [vm_compute; reflexivity|].
  apply (clientOriginateTime_value decimalDate decimalDate sample_client
           "b.example" sample_reply _ sample_response "192.0.2.7").
  - vm_compute. reflexivity.
  - reflexivity.
  - vm_compute. reflexivity.
  - vm_compute. reflexivity.
Defined.

Lemma Qabs_le_eq (x y e : Q) :
  (x == y)%Q -> (Qabs x <= e)%Q -> (Qabs y <= e)%Q.
Proof. intros E H. rewrite <- E. exact H. Qed.

(** The exact delay and offset for the originate time
    [originateClock - half] and the receive time [receiveClock]. *)
Lemma result_delay_form (d t2 t3 : Q) (half receiveClock originateClock : Z) :
  (d - (inject_Z receiveClock / 1000
        - inject_Z (originateClock - half) / 1000 - (t3 - t2))
   == d - (inject_Z (half + (receiveClock - originateClock)) / 1000
           - (t3 - t2)))%Q.
Proof.
  unfold Z.sub. rewrite !inject_Z_plus, !inject_Z_opp. field.
Qed.

Lemma result_offset_form (o t2 t3 : Q) (half receiveClock originateClock : Z) :
  (o - (t2 - inject_Z (originateClock - half) / 1000
        + (t3 - inject_Z receiveClock / 1000)) / 2
   == o - ((t2 + t3) / 2
           - inject_Z (receiveClock + originateClock - half) / 2000))%Q.
Proof.
  unfold Z.sub. rewrite !inject_Z_plus, !inject_Z_opp. field.
Qed.

(** X14: the metrics of a result.  With the originate and receive times
    of a result of [queryServer], [calculateMetrics] gives, to within
    2^-18 s, a round-trip delay of half the timeout (rounded up to a
    millisecond) plus the time between the two readings of the clock in
    the handler, minus the time the server held the request; the time the
    packets spent on the network has no part in it.  The offset is the
    mean of the two server timestamps minus the mean of the receive time
    and the receive time less half the timeout. *)
Theorem result_metrics
    (toISOString toLocalString : Date -> string)
    (client : NTPClient) (server : string) (attempt : Attempt)
    (result : NTPQueryResult)
    (reply : Buffer) (address : string) (receiveClock originateClock : Z) :
  queryServer toISOString toLocalString client server attempt = inr result ->
  event attempt = OnMessage reply address receiveClock originateClock ->
  0 <= timeout client <= 2 * originateClock ->
  originateClock < 2 ^ 41 -> Z.abs receiveClock < 2 ^ 41 ->
  let half := (timeout client + 1) / 2 in
  let rx := unix (receive (timestamps (parsed result))) in
  let tx := unix (transmit (timestamps (parsed result))) in
  let t2 := (inject_Z (Unix.seconds rx) + Unix.milliseconds rx / 1000)%Q in
  let t3 := (inject_Z (Unix.seconds tx) + Unix.milliseconds tx / 1000)%Q in
  clientOriginateTime result = Some (originateClock - half)
  /\ let m := calculateMetrics (parsed result) (originateClock - half)
                (clientReceiveTime result) in
     (Qabs (Metrics.roundTripDelay m
            - (inject_Z (half + (receiveClock - originateClock)) / 1000
               - (t3 - t2))) <= 1 # 262144)%Q
     /\ (Qabs (Metrics.clockOffset m
               - ((t2 + t3) / 2
                  - inject_Z (receiveClock + originateClock - half) / 2000))
         <= 1 # 262144)%Q.
Proof.
  intros Q E T O R. cbv zeta.
  destruct (queryServer_clientOriginateTime _ _ _ _ _ _ _ _ _ _ Q E
              ltac:(lia) ltac:(lia)) as (C & Rc & Eb).
  assert (H : Z.quot (2 * originateClock - timeout client) 2
              = originateClock - (timeout client + 1) / 2).
  { rewrite Z.quot_div_nonneg by lia. Z.div_mod_to_equations. lia. }
  rewrite H in C. split; [exact C|].
  pose proof (queryServer_inr _ _ _ _ _ _ Q) as (a & rc & oc & _ & L & P).
  assert (PP : parsePacket toISOString toLocalString (buffer result)
               = inr (parsed result)).
  { rewrite P at 2. cbn [parsed]. apply parsePacket_returns. exact L. }
  assert (H1 : Z.abs (originateClock - (timeout client + 1) / 2) < 2 ^ 41).
  { Z.div_mod_to_equations. lia. }
  rewrite Rc.
  pose proof (calculateMetrics_accuracy toISOString toLocalString
                (buffer result) (parsed result)
                (originateClock - (timeout client + 1) / 2) receiveClock
                PP H1 R) as [D F].
  cbv zeta in D, F.
  split.
  - exact (Qabs_le_eq _ _ _ (result_delay_form _ _ _ _ _ _) D).
  - exact (Qabs_le_eq _ _ _ (result_offset_form _ _ _ _ _ _) F).
Qed.

Lemma result_metrics_witness :
  exists result,
    queryServer decimalDate decimalDate sample_client "b.example" sample_reply
    = inr result
    /\ let half := (timeout sample_client + 1) / 2 in
       let rx := unix (receive (timestamps (parsed result))) in
       let tx := unix (transmit (timestamps (parsed result))) in
       let t2 :=
         (inject_Z (Unix.seconds rx) + Unix.milliseconds rx / 1000)%Q in
       let t3 :=
         (inject_Z (Unix.seconds tx) + Unix.milliseconds tx / 1000)%Q in
       clientOriginateTime result = Some (1732304819991 - half)
       /\ let m := calculateMetrics (parsed result) (1732304819991 - half)
                     (clientReceiveTime result) in
          (Qabs (Metrics.roundTripDelay m
                 - (inject_Z (half + (1732304819990 - 1732304819991)) / 1000
                    - (t3 - t2))) <= 1 # 262144)%Q
          /\ (Qabs (Metrics.clockOffset m
                    - ((t2 + t3) / 2
                       - inject_Z (1732304819990 + 1732304819991 - half)
                         / 2000))
              <= 1 # 262144)%Q.
Proof.
  eexists. split; [vm_compute; reflexivity|].
  apply (result_metrics decimalDate decimalDate sample_client
           "b.example" sample_reply _ sample_response "192.0.2.7").
  - vm_compute. reflexivity.
  - reflexivity.
  - vm_compute. split; discriminate.
  - vm_compute. reflexivity.
  - vm_compute. reflexivity.
Defined.

(** ** The constructor and the default export *)


Lemma default_client_servers (requested : option string) :
  host (Default.client requested) = primary_host requested
  /\ fallbackServers (Default.client requested)
     = ["time.google.com"; "pool.ntp.org"]%string
  /\ primary_host requested <> EmptyString.
Proof.
  unfold Default.client, new_NTPClient, primary_host.
  cbn [host fallbackServers config_host config_fallbackServers
       or_string or_array].
  destruct requested as [[|c h]|]; repeat split; discriminate.
Qed.

(** X16: [query(host)] of the default export asks the given host, or
    [time.hixbe.com] when none or the empty string is given, and then, when
    that fails, [time.google.com] and [pool.ntp.org]: the hosts tried are
    the beginning of that list up to the host that answered, which is
    [usedServer], and the whole list when [query] throws. *)
Theorem default_query_servers
    (toISOString toLocalString : Date -> string)
    (network : list string -> string -> Attempt)
    (requested : option string) :
  let servers :=
    [primary_host requested; "time.google.com"; "pool.ntp.org"]%string in
  primary_host requested <> EmptyString
  /\ match Default.query toISOString toLocalString network requested with
     | (inr result, tried) =>
         exists n server,
           (n < 3)%nat
           /\ tried = firstn (S n) servers
           /\ nth_error servers n = Some server
           /\ usedServer result = Some server
     | (inl error, tried) => tried = servers
     end.
Proof.
  cbv zeta. destruct (default_client_servers requested) as (H & F & N).
  split; [exact N|].
  unfold Default.query, query. rewrite H, F.
  pose proof (query_loop_spec toISOString toLocalString network
                (Default.client requested)
                [primary_host requested; "time.google.com"; "pool.ntp.org"]%string
                None []) as S.
  destruct (query_loop toISOString toLocalString network
              (Default.client requested)
              [primary_host requested; "time.google.com"; "pool.ntp.org"]%string
              None [])
    as [[result | last] tried].
  - destruct S as (before & server & after & E & -> & _ & Q).
    apply queryServer_usedServer in Q. cbn [app].
    destruct before as [|b0 [|b1 [|b2 before]]]; cbn [app] in E;
      inversion E; subst.
    + exists 0%nat, (primary_host requested).
      repeat split; [lia | exact Q].
    + exists 1%nat, "time.google.com"%string. repeat split; [lia | exact Q].
    + exists 2%nat, "pool.ntp.org"%string. repeat split; [lia | exact Q].
    + destruct before; discriminate.
  - destruct S as (-> & _). reflexivity.
Qed.

(** The error of [query]. *)
Lemma query_inl
    (toISOString toLocalString : Date -> string)
    (network : list string -> string -> Attempt)
    (client : NTPClient) (error : JsError) :
  fst (query toISOString toLocalString network client) = inl error ->
  exists last,
    error = Error ("NTP query failed for all servers ("
                   ++ join ", " (host client :: fallbackServers client)
                   ++ "): " ++ last).
Proof.
  unfold query.
  destruct (query_loop toISOString toLocalString network client
              (host client :: fallbackServers client) None [])
    as [[result | last] tried]; cbn [fst]; [discriminate|].
  intros H. injection H as <-. exists (message_of last). reflexivity.
Qed.

Lemma default_query_inl
    (toISOString toLocalString : Date -> string)
    (network : list string -> string -> Attempt)
    (requested : option string) (error : JsError) :
  fst (Default.query toISOString toLocalString network requested) = inl error ->
  default_failure requested error.
Proof.
  intros H. apply query_inl in H. destruct H as [last ->].
  destruct (default_client_servers requested) as (Hh & F & _).
  rewrite Hh, F. exists last.
  cbn [join]. rewrite !string_app_assoc. reflexivity.
Qed.

(** X17: [getTime(host)] and [getOffset(host)] of the default export.
    On one network the two succeed together: [getOffset] returns the time
    value of the date [getTime] returns, a date between
    1900-01-01T00:00:00Z and 2036-02-07T06:28:16Z, minus the time value of
    the receive time of the result.  They fail together, with the [Error]
    of [query] that names the given host, [time.google.com] and
    [pool.ntp.org]. *)
Theorem default_getTime_getOffset
    (toISOString toLocalString : Date -> string)
    (network : list string -> string -> Attempt)
    (requested : option string) :
  match Default.getOffset toISOString toLocalString network requested with
  | inr offset =>
      exists d result,
        Default.getTime toISOString toLocalString network requested = inr d
        /\ fst (Default.query toISOString toLocalString network requested)
           = inr result
        /\ offset = getTime d - getTime (clientReceiveTime result)
        /\ - 2208988800000 <= getTime d <= 2085978496000
  | inl error =>
      Default.getTime toISOString toLocalString network requested = inl error
      /\ default_failure requested error
  end.
Proof.
  unfold Default.getOffset, Default.getTime, getOffset, getTime_of.
  pose proof (default_query_inl toISOString toLocalString network requested)
    as I.
  unfold Default.query in *.
  destruct (fst (query toISOString toLocalString network
                   (Default.client requested))) as [e | result] eqn:Q.
  - cbn [bind]. split; [reflexivity | apply I; reflexivity].
  - cbn [bind]. exists (date (transmit (timestamps (parsed result)))), result.
    split; [reflexivity|]. split; [reflexivity|]. split; [reflexivity|].
    apply query_inr in Q. destruct Q as (tried & server & _ & Q).
    apply queryServer_inr in Q. destruct Q as (a & rc & oc & _ & _ & ->).
    cbn [parsed packet_at timestamps transmit]. apply timestamp_at_range.
Qed.

(** ** The reference identifier of a primary server *)

Lemma length_replace_nul (s : string) :
  (String.length (replace_nul s) <= String.length s)%nat.
Proof.
  induction s as [|c s IH]; cbn [replace_nul String.length]; [lia|].
  destruct (charCode c =? 0); cbn [String.length]; lia.
Qed.

Lemma ascii_char_of_byte (b : byte) :
  let c := fromCharCode (Z.land (Z_of_byte b) 127) in
  (charCode c =? 0) = false -> isCodeChar c = true.
Proof.
  destruct b; vm_compute; intros H; solve [reflexivity | discriminate H].
Qed.

Lemma isCodeChar_replace_nul (buffer : Buffer) :
  forallb_string isCodeChar (replace_nul (toString_ascii buffer)) = true.
Proof.
  unfold toString_ascii.
  induction buffer as [|b rest IH]; [reflexivity|].
  cbn [map string_of_list_ascii replace_nul].
  destruct (charCode (fromCharCode (Z.land (Z_of_byte b) 127)) =? 0) eqn:E;
    [exact IH|].
  cbn [forallb_string]. rewrite IH, (ascii_char_of_byte b E). reflexivity.
Qed.

(** X18: for stratum 1 the reference identifier of the header is the
    bytes 12-15 of the buffer read as ASCII, the highest bit of each byte
    cleared, without the NUL characters: a string of at most four
    characters with codes from 1 to 127. *)
Theorem stratum1_referenceId_shape
    (toISOString toLocalString : Date -> string)
    (buffer : Buffer) (packet : ParsedNTPPacket) :
  parsePacket toISOString toLocalString buffer = inr packet ->
  stratum (header packet) = 1 ->
  referenceId (header packet)
  = replace_nul (toString_ascii (slice buffer 12 16))
  /\ (String.length (referenceId (header packet)) <= 4)%nat
  /\ forallb_string isCodeChar (referenceId (header packet)) = true.
Proof.
  intros H S.
  pose proof (parsePacket_inr _ _ _ _ H) as [L _].
  apply parsePacket_referenceId in H. destruct H as [_ F].
  rewrite S, formatReferenceId_stratum1 in F by apply word_range.
  assert (R : referenceId (header packet)
              = replace_nul (toString_ascii (bytes_of_word (word buffer 12))))
    by congruence.
  rewrite R, (bytes_of_word_slice buffer 12) by lia. cbn [Nat.add].
  split; [reflexivity|]. split; [|apply isCodeChar_replace_nul].
  apply Nat.le_trans with (1 := length_replace_nul _).
  rewrite length_toString_ascii. unfold slice.
  rewrite length_firstn. lia.
Qed.

Lemma stratum1_referenceId_shape_witness :
  let packet := packet_at decimalDate decimalDate gps_response in
  referenceId (header packet)
  = replace_nul (toString_ascii (slice gps_response 12 16))
  /\ (String.length (referenceId (header packet)) <= 4)%nat
  /\ forallb_string isCodeChar (referenceId (header packet)) = true.
Proof.
  apply (stratum1_referenceId_shape decimalDate decimalDate gps_response).
  - vm_compute. reflexivity.
  - reflexivity.
Defined.

(** ** A server that answers at once *)




